(** * werf build phase and container-driver retries: a shallow embedding

    The development follows two source files of the repository:
    - [pkg/docker/image.go]: the pull / push retry loops of the container
      driver (module [Docker]);
    - the build phase ([package build]): digest calculation, stage
      calculation under the per-digest mutex, the atomic build-and-publish
      window, image metadata publication and the images report
      (module [Build]).

    Go values are modelled as follows.  An [error] is [option string] (the
    text of [err.Error()], [None] for [nil]).  Pointers to mutable objects
    are references into explicit heaps held in the world state, so that
    aliasing is preserved.  Calls to collaborators whose code is outside the
    build phase are recorded in a chronological trace and answered by an
    environment that owns an abstract state of its own. *)

From stdpp Require Import gmap strings list pretty.
From Equations Require Import Equations.

Open Scope string_scope.

(** ** Go basics shared by both packages *)

Module Go.

(** [error]: [nil] or a value with an [Error()] text. *)
Definition error := option string.

(** A Go pair [(T, error)]. *)
Inductive Result (A : Type) : Type :=
| Success (a : A)
| Failure (e : string).
Arguments Success {A} a.
Arguments Failure {A} e.

(** [strings.HasPrefix]. *)
Fixpoint HasPrefix (s prefix : string) : bool :=
  match prefix, s with
  | EmptyString, _ => true
  | String _ _, EmptyString => false
  | String c prefix', String d s' =>
      if Ascii.eqb c d then HasPrefix s' prefix' else false
  end.

(** [strings.Contains]: [substr] occurs at some offset of [s]. *)
Fixpoint Contains (s substr : string) : bool :=
  HasPrefix s substr ||
  match s with
  | EmptyString => false
  | String _ s' => Contains s' substr
  end.

(** The one-character string holding a double quote (code point 34). *)
Definition dq : string := String (Ascii.ascii_of_nat 34) EmptyString.

(** The newline (code point 10) as a one-character string. *)
Definition nl : string := String (Ascii.ascii_of_nat 10) EmptyString.

(** The tab (code point 9) as a one-character string. *)
Definition tab : string := String (Ascii.ascii_of_nat 9) EmptyString.

End Go.

(** ** pkg/docker/image.go: pull and push with retries *)

Module Docker.
Import Go.

(** What the driver does to the outside world, in order. *)
Inductive Event : Type :=
| EvPull (args : list string)          (* doCliPull(c, args...) *)
| EvPush (args : list string)          (* doCliPush(c, args...) *)
| EvWarn (msg : string)                (* logboek.Context(ctx).Warn().LogF *)
| EvErrWrite (msg : string)            (* c.Err().Write([]byte(msg)) *)
| EvSleep (seconds : nat).             (* time.Sleep(seconds * time.Second) *)

#[global] Instance Event_eq_dec : EqDecision Event.
Proof. solve_decision. Defined.

Definition cliPullMaxAttempts : nat := 5.
Definition cliPushMaxAttempts : nat := 10.

Definition pullSpecificErrors : list string :=
  [ "Client.Timeout exceeded while awaiting headers";
    "TLS handshake timeout";
    "i/o timeout";
    "504 Gateway Time-out";
    "504 Gateway Timeout";
    "Internal Server Error" ].

Definition pushSpecificErrors : list string :=
  [ "Client.Timeout exceeded while awaiting headers";
    "TLS handshake timeout";
    "i/o timeout";
    "Only schema version 2 is supported";
    "504 Gateway Time-out";
    "504 Gateway Timeout";
    "Internal Server Error" ].

(** The [for _, specificError := range specificErrors] scan: the first
    listed text contained in the error message, if any. *)
Definition matchSpecificError (errText : string) (specificErrors : list string)
  : option string :=
  List.find (fun specificError => Contains errText specificError) specificErrors.

Section Retries.
(** State of the docker CLI, the registry, the network and the random
    source. *)
Context {Ext : Type}.

(** The cobra commands behind [doCliPull] / [doCliPush]. *)
Variable doCliPull : list string -> Ext -> error * Ext.
Variable doCliPush : list string -> Ext -> error * Ext.

(** The next raw draw of the global [math/rand] source.  [rand.Intn n]
    returns a value of the half-open interval from [0] to [n]; it is
    modelled as the raw draw reduced modulo [n]. *)
Variable rand_draw : Ext -> nat * Ext.

Record World : Type := mkWorld { ext : Ext; trace : list Event }.

Definition emit (e : Event) (w : World) : World :=
  mkWorld (ext w) (trace w ++ [e]).

Definition rand_Intn (n : nat) (w : World) : nat * World :=
  let '(r, x) := rand_draw (ext w) in
  (r mod n, mkWorld x (trace w)).

Definition cliPull (args : list string) (w : World) : error * World :=
  let '(err, x) := doCliPull args (ext w) in
  (err, mkWorld x (trace w ++ [EvPull args])).

Definition cliPush (args : list string) (w : World) : error * World :=
  let '(err, x) := doCliPush args (ext w) in
  (err, mkWorld x (trace w ++ [EvPush args])).

Definition pullRetryMsg (seconds attempt : nat) : string :=
  "Retrying docker pull in " +:+ pretty seconds +:+ " seconds (" +:+
  pretty attempt +:+ "/" +:+ pretty cliPullMaxAttempts +:+ ") ..." +:+ nl.

Definition pushRetryMsg (seconds attempt : nat) : string :=
  "Retrying docker push in " +:+ pretty seconds +:+ " seconds (" +:+
  pretty attempt +:+ "/" +:+ pretty cliPushMaxAttempts +:+ ") ..." +:+ nl.

(** [doCliPullWithRetries], entered at label [tryPull] with the current
    value of [attempt]. *)
Equations? tryPull (attempt : nat) (args : list string) (w : World)
  : error * World by wf (cliPullMaxAttempts - attempt) lt :=
  tryPull attempt args w with cliPull args w => {
    | (None, w1) := (None, w1);
    | (Some err, w1) with decide (attempt < cliPullMaxAttempts) => {
        | right _ := (Some err, w1);
        | left _ with matchSpecificError err pullSpecificErrors => {
            | None := (Some err, w1);
            | Some _ :=
                let attempt' := S attempt in
                let '(r, w2) := rand_Intn (30 - 15) w1 in
                let seconds := r + 15 in
                let w3 := emit (EvWarn (pullRetryMsg seconds attempt')) w2 in
                let w4 := emit (EvSleep seconds) w3 in
                tryPull attempt' args w4 } } }.
Proof. unfold cliPullMaxAttempts in *; lia. Qed.

Definition doCliPullWithRetries (args : list string) (w : World)
  : error * World :=
  tryPull 0 args w.

(** [doCliPushWithRetries], entered at label [tryPush]. *)
Equations? tryPush (attempt : nat) (args : list string) (w : World)
  : error * World by wf (cliPushMaxAttempts - attempt) lt :=
  tryPush attempt args w with cliPush args w => {
    | (None, w1) := (None, w1);
    | (Some err, w1) with decide (attempt < cliPushMaxAttempts) => {
        | right _ := (Some err, w1);
        | left _ with matchSpecificError err pushSpecificErrors => {
            | None := (Some err, w1);
            | Some _ :=
                let attempt' := S attempt in
                let '(r, w2) := rand_Intn (30 - 15) w1 in
                let seconds := r + 15 in
                let w3 := emit (EvErrWrite (pushRetryMsg seconds attempt')) w2 in
                let w4 := emit (EvSleep seconds) w3 in
                tryPush attempt' args w4 } } }.
Proof. unfold cliPushMaxAttempts in *; lia. Qed.

Definition doCliPushWithRetries (args : list string) (w : World)
  : error * World :=
  tryPush 0 args w.

End Retries.

Definition isSleep (e : Event) : option nat :=
  match e with EvSleep s => Some s | _ => None end.

Definition isPull (e : Event) : bool :=
  match e with EvPull _ => true | _ => false end.

Definition isPush (e : Event) : bool :=
  match e with EvPush _ => true | _ => false end.

(** The sleeps of a trace, in order. *)
Definition sleeps (t : list Event) : list nat := omap isSleep t.

(** The number of pull (resp. push) commands of a trace. *)
Definition pulls (t : list Event) : nat := length (List.filter isPull t).
Definition pushes (t : list Event) : nat := length (List.filter isPush t).

(** The events a run from [w] to [w'] appended to the trace. *)
Definition newEvents {Ext} (w w' : @World Ext) : list Event :=
  drop (length (trace w)) (trace w').

(** What a retry loop entered with [attempt] may record: sleeps of 15 to
    29 seconds, at most [max - attempt] of them, and one command more than
    sleeps. *)
Definition retryEvents (max attempt : nat) (isCall : Event -> bool)
  (evs : list Event) : Prop :=
  Forall (fun s : nat => (15 <= s <= 29)%nat) (sleeps evs) /\
  (length (sleeps evs) <= max - attempt)%nat /\
  length (List.filter isCall evs) = S (length (sleeps evs)).

End Docker.

(** ** package build: the build phase *)

Module Build.
Import Go.

(** *** Data model *)

(** A Go pointer: an address in one of the heaps of the world. *)
Definition ref := nat.

(** [image.StageID]: digest plus unique suffix. *)
Record StageID : Type := mkStageID {
  sid_Digest : string;
  sid_UniqueID : Z }.

(** [image.Info], the fields the build phase reads. *)
Record Info : Type := mkInfo {
  info_Name : string;
  info_Repository : string;
  info_Tag : string;
  info_ID : string;
  info_Size : Z }.

(** [image.StageDescription]: the persisted metadata of a stored stage. *)
Record StageDescription : Type := mkStageDescription {
  sd_StageID : StageID;
  sd_Info : Info }.

#[global] Instance StageID_eq_dec : EqDecision StageID.
Proof. solve_decision. Defined.
#[global] Instance Info_eq_dec : EqDecision Info.
Proof. solve_decision. Defined.
#[global] Instance StageDescription_eq_dec : EqDecision StageDescription.
Proof. solve_decision. Defined.

(** A value of interface type [container_runtime.ImageInterface]: the nil
    interface, a [*container_runtime.StageImage] (itself possibly a nil
    pointer), or a value of some other dynamic type. *)
Inductive ImageInterface : Type :=
| IfaceNil
| IfaceStageImage (p : option ref)
| IfaceOther (typeName : string).

(** [container_runtime.StageImage], the state the build phase touches. *)
Record StageImage : Type := mkStageImage {
  si_name : string;
  si_fromImage : option ref;
  si_stageDescription : option StageDescription;
  si_dockerfileBuildArgs : list string;
  si_serviceCommitLabels : list (string * string);
  si_runVolumes : list string;
  si_runEnv : list (string * string) }.

(** A stage behind [stage.Interface]: the fields of its base part. *)
Record Stage : Type := mkStage {
  stg_name : string;
  stg_logDetailedName : string;
  stg_isDockerfileStage : bool;
  stg_digest : string;
  stg_contentDigest : string;
  stg_image : option ref }.

(** A logical [Image] of the configuration. *)
Record Image : Type := mkImage {
  img_name : string;
  img_logName : string;
  img_logDetailedName : string;
  img_isArtifact : bool;
  img_isDockerfileImage : bool;
  img_lastNonEmptyStage : option ref;
  img_contentDigest : string }.

(** A function registered with [Conveyor.AppendOnTerminateFunc]. *)
Inductive TerminateFunc : Type :=
| CleanupDockerfileImageBuilder (stageImage : ref).

Record Conveyor : Type := mkConveyor {
  c_images : list ref;
  c_stageImages : gmap string ref;
  c_stageDigestMutexes : gmap string bool;
  c_projectName : string;
  c_sshAuthSock : string;
  c_Parallel : bool;
  c_localGitRepo : option ref;
  c_onTerminateFuncs : list TerminateFunc }.

Record IntrospectTarget : Type := mkIntrospectTarget {
  it_ImageName : string;
  it_StageName : string }.

Record IntrospectOptions : Type := mkIntrospectOptions {
  Targets : list IntrospectTarget }.

Definition ReportFormat := string.
Definition ReportJSON : ReportFormat := "json".

Record BuildOptions : Type := mkBuildOptions {
  bo_ImageBuildOptions : string;
  bo_IntrospectOptions : IntrospectOptions;
  bo_ReportPath : string;
  bo_ReportFormat : ReportFormat;
  bo_DryRun : bool }.

Record BuildPhaseOptions : Type := mkBuildPhaseOptions {
  bpo_BuildOptions : BuildOptions;
  bpo_ShouldBeBuiltMode : bool }.

Record StagesIterator : Type := mkStagesIterator {
  PrevNonEmptyStage : option ref;
  PrevBuiltStage : option ref }.

Record ReportImageRecord : Type := mkReportImageRecord {
  WerfImageName : string;
  DockerRepo : string;
  DockerTag : string;
  DockerImageID : string }.

(** [ImagesReport]: the map guarded by [mux]; every method takes and
    releases [mux] within the call. *)
Record ImagesReport : Type := mkImagesReport {
  Images : gmap string ReportImageRecord }.

(** [BuildPhase].  The struct declares [ReportPath] and [ReportFormat]
    itself; selectors [phase.ReportPath] and [phase.ReportFormat] resolve
    to these fields, which are shallower than the ones promoted from the
    embedded [BuildOptions]. *)
Record BuildPhase : Type := mkBuildPhase {
  ph_BuildPhaseOptions : BuildPhaseOptions;
  ph_StagesIterator : option StagesIterator;
  ph_ShouldAddManagedImageRecord : bool;
  ph_ImagesReport : ImagesReport;
  ph_ReportPath : string;
  ph_ReportFormat : ReportFormat }.

Definition ShouldBeBuiltMode (phase : BuildPhase) : bool :=
  bpo_ShouldBeBuiltMode (ph_BuildPhaseOptions phase).
Definition ImageBuildOptions (phase : BuildPhase) : string :=
  bo_ImageBuildOptions (bpo_BuildOptions (ph_BuildPhaseOptions phase)).
Definition phaseIntrospectOptions (phase : BuildPhase) : IntrospectOptions :=
  bo_IntrospectOptions (bpo_BuildOptions (ph_BuildPhaseOptions phase)).

Inductive LogLevel : Type := Debug | Info_ | Default | Warn.

(** Calls that leave the build phase, in the order they are made, each
    with the answer it got. *)
Inductive Event : Type :=
| EvLog (level : LogLevel) (msg : string)
| EvPrintf (msg : string)
| EvSleep (seconds : Z)
| EvFetchDependencies (stg : ref) (answer : error)
| EvGetDependencies (stg : ref) (answer : Result string)
| EvGetNextStageDependencies (stg : ref) (answer : Result string)
| EvPrepareImage (stg : ref) (stageImage : option ref) (answer : error)
| EvPreRunHook (stg : ref) (answer : error)
| EvGetStagesByDigest
    (logName digest : string) (answer : Result (list StageDescription))
| EvSelectSuitableStage
    (stg : ref) (stages : list StageDescription)
    (answer : Result (option StageDescription))
| EvFetchStage (stg : option ref) (answer : error)
| EvGenerateStageUniqueID
    (digest : string) (stages : list StageDescription) (answer : string * Z)
| EvAtomicStoreStagesByDigestToCache
    (stageName digest : string) (stageIDs : list StageID) (answer : error)
| EvStoreImage (stageImage : ref) (answer : error)
| EvGetStageDescription
    (project digest : string) (uniqueID : Z)
    (answer : Result (option StageDescription))
| EvAddManagedImage (project imageName : string) (answer : error)
| EvIsImageMetadataExist
    (project imageName commit stageID : string) (answer : Result bool)
| EvPutImageMetadata (project imageName commit stageID : string) (answer : error)
| EvLockStage (project digest : string) (answer : Result nat)
| EvUnlockStage (lock : nat) (answer : error)
| EvHeadCommit (answer : Result string)
| EvFetchBaseImage (img : ref) (answer : error)
| EvSetupBaseImage (img : ref)
| EvBuild (stageImage : ref) (opts : string) (answer : error)
| EvIntrospect (stageImage : ref) (answer : error)
| EvNewUUID (answer : string)
| EvGetOrCreateContainer (answer : Result string)
| EvWriteFile (path data : string) (mode : N) (answer : error).

Definition isStoreImage (e : Event) : bool :=
match e with EvStoreImage _ _ => true | _ => false end.
Definition isGenerateStageUniqueID (e : Event) : bool :=
match e with EvGenerateStageUniqueID _ _ _ => true | _ => false end.
Definition isCacheWrite (e : Event) : bool :=
match e with EvAtomicStoreStagesByDigestToCache _ _ _ _ => true | _ => false end.
Definition isBuild (e : Event) : bool :=
match e with EvBuild _ _ _ => true | _ => false end.
Definition isNewUUID (e : Event) : bool :=
match e with EvNewUUID _ => true | _ => false end.
Definition isWriteFile (e : Event) : bool :=
match e with EvWriteFile _ _ _ _ => true | _ => false end.
Definition isHeadCommit (e : Event) : bool :=
match e with EvHeadCommit _ => true | _ => false end.
Definition isIsImageMetadataExist (e : Event) : bool :=
match e with EvIsImageMetadataExist _ _ _ _ _ => true | _ => false end.
Definition isPutImageMetadata (e : Event) : bool :=
match e with EvPutImageMetadata _ _ _ _ _ => true | _ => false end.

(** What [calculateDigest] may record: debug lines and the predecessor's
    answer. *)
Definition isDigestEvent (e : Event) : bool :=
match e with
| EvLog Debug _ | EvGetNextStageDependencies _ _ => true
| _ => false
end.

(** The three steps that publish a freshly built image. *)
Definition isPublishEvent (e : Event) : bool :=
isStoreImage e || isGenerateStageUniqueID e || isCacheWrite e.

(** The calls [publishImageMetadata] makes. *)
Definition isMetadataEvent (e : Event) : bool :=
isHeadCommit e || isIsImageMetadataExist e || isPutImageMetadata e.

(** The calls to the stages storage and to its cache of stages by
    digest. *)
Definition isStorageEvent (e : Event) : bool :=
match e with
| EvGetStagesByDigest _ _ _ | EvSelectSuitableStage _ _ _
| EvGenerateStageUniqueID _ _ _ | EvStoreImage _ _
| EvGetStageDescription _ _ _ _
| EvAtomicStoreStagesByDigestToCache _ _ _ _ => true
| _ => false
end.

Definition isLockEvent (e : Event) : bool :=
match e with
| EvLockStage _ _ _ | EvUnlockStage _ _ => true
| _ => false
end.

(** [lockDiscipline held evs]: in [evs], started with the lock [held] (if
    any), a lock is asked for only when none is held, the lock released is
    the one held, the storage is called only while a lock is held, and no
    lock is held at the end. *)
Fixpoint lockDiscipline (held : option nat) (evs : list Event) : bool :=
match evs with
| [] => bool_decide (held = None)
| EvLockStage _ _ (Success lock) :: evs' =>
    bool_decide (held = None) && lockDiscipline (Some lock) evs'
| EvLockStage _ _ (Failure _) :: evs' =>
    bool_decide (held = None) && lockDiscipline None evs'
| EvUnlockStage lock _ :: evs' =>
    bool_decide (held = Some lock) && lockDiscipline None evs'
| e :: evs' =>
    (negb (isStorageEvent e) || bool_decide (is_Some held)) &&
    lockDiscipline held evs'
end.

(** The order of the steps that publish an image: a unique id, then the
    store, then, only after a store that succeeded, the cache write. *)
Definition publishOrder (steps : list Event) : bool :=
match steps with
| [] => true
| [EvGenerateStageUniqueID _ _ _] => true
| [EvGenerateStageUniqueID _ _ _; EvStoreImage _ _] => true
| [EvGenerateStageUniqueID _ _ _; EvStoreImage _ None;
   EvAtomicStoreStagesByDigestToCache _ _ _ _] => true
| _ => false
end.

(** How a call ends: it returns a value, returns a non-nil [error],
    panics, or never returns because the goroutine waits on a mutex that
    is held. *)
Inductive Outcome (A : Type) : Type :=
| Ok (a : A)
| Err (e : string)
| Panic (msg : string)
| Blocked.
Arguments Ok {A} a.
Arguments Err {A} e.
Arguments Panic {A} msg.
Arguments Blocked {A}.

Definition nilDeref : string :=
  "runtime error: invalid memory address or nil pointer dereference".

Section Phase.

(** State owned by the collaborators: stages storage, lock server,
  container runtime, git repository, file system, process
  environment. *)
Context {Ext : Type}.

Record World : Type := mkWorld {
w_ext : Ext;
w_trace : list Event;
w_conveyor : Conveyor;
w_phase : BuildPhase;
w_stages : gmap ref Stage;
w_stageImages : gmap ref StageImage;
w_images : gmap ref Image }.

Definition set_ext (x : Ext) (w : World) : World :=
mkWorld x (w_trace w) (w_conveyor w) (w_phase w)
        (w_stages w) (w_stageImages w) (w_images w).
Definition add_event (e : Event) (w : World) : World :=
mkWorld (w_ext w) (w_trace w ++ [e]) (w_conveyor w) (w_phase w)
        (w_stages w) (w_stageImages w) (w_images w).
Definition set_conveyor (c : Conveyor) (w : World) : World :=
mkWorld (w_ext w) (w_trace w) c (w_phase w)
        (w_stages w) (w_stageImages w) (w_images w).
Definition set_phase (p : BuildPhase) (w : World) : World :=
mkWorld (w_ext w) (w_trace w) (w_conveyor w) p
        (w_stages w) (w_stageImages w) (w_images w).
Definition set_stages (m : gmap ref Stage) (w : World) : World :=
mkWorld (w_ext w) (w_trace w) (w_conveyor w) (w_phase w)
        m (w_stageImages w) (w_images w).
Definition set_stageImages (m : gmap ref StageImage) (w : World) : World :=
mkWorld (w_ext w) (w_trace w) (w_conveyor w) (w_phase w)
        (w_stages w) m (w_images w).
Definition set_images (m : gmap ref Image) (w : World) : World :=
mkWorld (w_ext w) (w_trace w) (w_conveyor w) (w_phase w)
        (w_stages w) (w_stageImages w) m.

(** *** The collaborators

  Every operation reads the world as it is at the call and answers with
  a result and the collaborators' next state. *)

(** Methods of [stage.Interface] implemented by the concrete stages. *)
Class StageMethods : Type := {
stage_FetchDependencies : World -> ref -> error * Ext;
stage_GetDependencies :
  World -> ref -> ImageInterface -> ImageInterface -> Result string * Ext;
stage_GetNextStageDependencies : World -> ref -> Result string * Ext;
stage_PrepareImage :
  World -> ref -> ImageInterface -> option ref -> error * Ext;
stage_PreRunHook : World -> ref -> error * Ext }.

(** [StorageManager.StagesStorage]. *)
Class StagesStorage : Type := {
storage_StoreImage : World -> ref -> error * Ext;
storage_GetStageDescription :
  World -> string -> string -> Z -> Result (option StageDescription) * Ext;
storage_AddManagedImage : World -> string -> string -> error * Ext;
storage_IsImageMetadataExist :
  World -> string -> string -> string -> string -> Result bool * Ext;
storage_PutImageMetadata :
  World -> string -> string -> string -> string -> error * Ext;
storage_String : World -> string }.

(** [Conveyor.StorageManager]. *)
Class StorageManager : Type := {
manager_GetStagesByDigest :
  World -> string -> string -> Result (list StageDescription) * Ext;
manager_SelectSuitableStage :
  World -> ref -> list StageDescription ->
  Result (option StageDescription) * Ext;
manager_FetchStage : World -> option ref -> error * Ext;
manager_GenerateStageUniqueID :
  World -> string -> list StageDescription -> (string * Z) * Ext;
manager_AtomicStoreStagesByDigestToCache :
  World -> string -> string -> list StageID -> error * Ext }.

(** [Conveyor.StorageLockManager]. *)
Class StorageLockManager : Type := {
locker_LockStage : World -> string -> string -> Result nat * Ext;
locker_Unlock : World -> nat -> error * Ext }.

(** The container runtime, the iterator's image lookups, the logical
  image's own operations and the local git repository. *)
Class Runtime : Type := {
image_Build : World -> ref -> string -> error * Ext;
image_Introspect : World -> ref -> error * Ext;
image_GetBuiltId : World -> ref -> string;
container_UserCommitChanges : World -> ref -> list string;
container_UserRunCommands : World -> ref -> list string;
stapel_GetOrCreateContainer : World -> Result string * Ext;
iterator_GetPrevImage : World -> ref -> ref -> ImageInterface;
iterator_GetPrevBuiltImage : World -> ref -> ref -> ImageInterface;
img_FetchBaseImage : World -> ref -> error * Ext;
img_SetupBaseImage : World -> ref -> Ext;
img_baseImageName : World -> ref -> string;
img_GetStageID : World -> ref -> string;
repo_HeadCommit : World -> ref -> Result string * Ext }.

(** The process, the standard library and the constants of other
  packages. *)
Class Host : Type := {
os_Getenv : World -> string -> string;
fmt_Sscanf_d : string -> Z;
runtime_GOOS : string;
uuid_New : World -> string * Ext;
ioutil_WriteFile : World -> string -> string -> N -> error * Ext;
json_MarshalIndent : ImagesReport -> string -> string -> Result string;
strconv_Quote : string -> string;
util_Sha3_224Hash : list string -> string;
image_BuildCacheVersion : string;
werf_Version : string;
image_ParseRepositoryAndTag : string -> string * string;
stringid_TruncateID : string -> string;
info_GetCreatedAt : Info -> string;
byteCountBinary : Z -> string;
logboek_FitText : string -> nat -> string }.

Context {SM : StageMethods} {SS : StagesStorage} {MG : StorageManager}
      {LM : StorageLockManager} {RT : Runtime} {HO : Host}.

(** *** The monad of build-phase code *)

Definition M (A : Type) : Type := World -> Outcome A * World.

#[local] Instance M_ret : MRet M := fun A a w => (Ok a, w).

#[local] Instance M_bind : MBind M := fun A B f m w =>
match m w with
| (Ok a, w') => f a w'
| (Err e, w') => (Err e, w')
| (Panic msg, w') => (Panic msg, w')
| (Blocked, w') => (Blocked, w')
end.

Definition get : M World := fun w => (Ok w, w).

(** A query that changes nothing and is not recorded in the trace. *)
Definition read {A} (f : World -> A) : M A := fun w => (Ok (f w), w).
Definition modify (f : World -> World) : M unit := fun w => (Ok tt, f w).
Definition fail {A} (e : string) : M A := fun w => (Err e, w).
Definition panic {A} (msg : string) : M A := fun w => (Panic msg, w).
Definition block {A} : M A := fun w => (Blocked, w).

(** [if err != nil { return fmt.Errorf(..., err) }]: the error of [m],
  if any, is rewritten by [f]. *)
Definition wrapErr {A} (f : string -> string) (m : M A) : M A := fun w =>
match m w with
| (Err e, w') => (Err (f e), w')
| r => r
end.

(** [err := m(); ...]: the error of [m] becomes a value. *)
Definition try {A} (m : M A) : M (Result A) := fun w =>
match m w with
| (Ok a, w') => (Ok (Success a), w')
| (Err e, w') => (Ok (Failure e), w')
| (Panic msg, w') => (Panic msg, w')
| (Blocked, w') => (Blocked, w')
end.

(** [defer d(); body]: [d] runs when [body] returns or panics, and a
  panic of [d] replaces the result; nothing runs if [body] never
  returns. *)
Definition defer {A} (d : M unit) (body : M A) : M A := fun w =>
match body w with
| (Blocked, w') => (Blocked, w')
| (r, w') =>
    match d w' with
    | (Panic msg, w'') => (Panic msg, w'')
    | (Blocked, w'') => (Blocked, w'')
    | (_, w'') => (r, w'')
    end
end.

Definition when (b : bool) (m : M unit) : M unit :=
if b then m else mret tt.

Fixpoint forM_ {A} (l : list A) (f : A -> M unit) : M unit :=
match l with
| [] => mret tt
| a :: l' => f a ;; forM_ l' f
end.

(** A call to a collaborator: answered, and recorded with its answer. *)
Definition call {R} (ev : R -> Event) (f : World -> R * Ext) : M R := fun w =>
let '(r, x) := f w in (Ok r, set_ext x (add_event (ev r) w)).

Definition callErr (ev : error -> Event) (f : World -> error * Ext) : M unit :=
r ← call ev f;
match r with None => mret tt | Some e => fail e end.

Definition callRes {R} (ev : Result R -> Event) (f : World -> Result R * Ext)
  : M R :=
r ← call ev f;
match r with Success v => mret v | Failure e => fail e end.

Definition log (level : LogLevel) (msg : string) : M unit :=
modify (add_event (EvLog level msg)).

(** *** Heap access *)

Definition derefStage (stg : ref) : M Stage :=
w ← get;
match w_stages w !! stg with
| Some s => mret s
| None => panic nilDeref
end.

Definition derefStageImage (p : option ref) : M StageImage :=
w ← get;
match p ≫= (fun r => w_stageImages w !! r) with
| Some i => mret i
| None => panic nilDeref
end.

Definition derefPtr (p : option ref) : M ref :=
i ← derefStageImage p;
match p with Some r => mret r | None => panic nilDeref end.

Definition derefImage (img : ref) : M Image :=
w ← get;
match w_images w !! img with
| Some i => mret i
| None => panic nilDeref
end.

Definition updStage (stg : ref) (f : Stage -> Stage) : M unit :=
s ← derefStage stg;
modify (fun w => set_stages (<[stg := f s]> (w_stages w)) w).

Definition updStageImage (p : option ref) (f : StageImage -> StageImage)
: M unit :=
r ← derefPtr p;
i ← derefStageImage p;
modify (fun w => set_stageImages (<[r := f i]> (w_stageImages w)) w).

Definition updImage (img : ref) (f : Image -> Image) : M unit :=
i ← derefImage img;
modify (fun w => set_images (<[img := f i]> (w_images w)) w).

Definition getPhase : M BuildPhase := w ← get; mret (w_phase w).
Definition getConveyor : M Conveyor := w ← get; mret (w_conveyor w).

(** [phase.StagesIterator], dereferenced. *)
Definition getIterator : M StagesIterator :=
phase ← getPhase;
match ph_StagesIterator phase with
| Some it => mret it
| None => panic nilDeref
end.

(** *** Accessors of the stage and its image *)

Definition Stage_Name (stg : ref) : M string :=
s ← derefStage stg; mret (stg_name s).
Definition Stage_LogDetailedName (stg : ref) : M string :=
s ← derefStage stg; mret (stg_logDetailedName s).
Definition Stage_GetDigest (stg : ref) : M string :=
s ← derefStage stg; mret (stg_digest s).
Definition Stage_GetContentDigest (stg : ref) : M string :=
s ← derefStage stg; mret (stg_contentDigest s).
Definition Stage_GetImage (stg : ref) : M (option ref) :=
s ← derefStage stg; mret (stg_image s).

Definition Stage_SetDigest (stg : ref) (digest : string) : M unit :=
updStage stg (fun s =>
  mkStage (stg_name s) (stg_logDetailedName s) (stg_isDockerfileStage s)
          digest (stg_contentDigest s) (stg_image s)).
Definition Stage_SetContentDigest (stg : ref) (digest : string) : M unit :=
updStage stg (fun s =>
  mkStage (stg_name s) (stg_logDetailedName s) (stg_isDockerfileStage s)
          (stg_digest s) digest (stg_image s)).
Definition Stage_SetImage (stg : ref) (i : option ref) : M unit :=
updStage stg (fun s =>
  mkStage (stg_name s) (stg_logDetailedName s) (stg_isDockerfileStage s)
          (stg_digest s) (stg_contentDigest s) i).

Definition withName (name : string) (i : StageImage) : StageImage :=
mkStageImage name (si_fromImage i) (si_stageDescription i)
             (si_dockerfileBuildArgs i) (si_serviceCommitLabels i)
             (si_runVolumes i) (si_runEnv i).
Definition withStageDescription (d : option StageDescription) (i : StageImage)
  : StageImage :=
mkStageImage (si_name i) (si_fromImage i) d
             (si_dockerfileBuildArgs i) (si_serviceCommitLabels i)
             (si_runVolumes i) (si_runEnv i).

Definition StageImage_Name (p : option ref) : M string :=
i ← derefStageImage p; mret (si_name i).
Definition StageImage_GetStageDescription (p : option ref)
  : M (option StageDescription) :=
i ← derefStageImage p; mret (si_stageDescription i).
Definition StageImage_SetName (p : option ref) (name : string) : M unit :=
updStageImage p (withName name).
Definition StageImage_SetStageDescription
  (p : option ref) (d : option StageDescription) : M unit :=
updStageImage p (withStageDescription d).

(** *** The conveyor *)

Definition updConveyor (f : Conveyor -> Conveyor) : M unit :=
modify (fun w => set_conveyor (f (w_conveyor w)) w).

Definition withStageImages (m : gmap string ref) (c : Conveyor) : Conveyor :=
mkConveyor (c_images c) m (c_stageDigestMutexes c) (c_projectName c)
           (c_sshAuthSock c) (c_Parallel c) (c_localGitRepo c)
           (c_onTerminateFuncs c).
Definition withMutexes (m : gmap string bool) (c : Conveyor) : Conveyor :=
mkConveyor (c_images c) (c_stageImages c) m (c_projectName c)
           (c_sshAuthSock c) (c_Parallel c) (c_localGitRepo c)
           (c_onTerminateFuncs c).
Definition withOnTerminate (l : list TerminateFunc) (c : Conveyor) : Conveyor :=
mkConveyor (c_images c) (c_stageImages c) (c_stageDigestMutexes c)
           (c_projectName c) (c_sshAuthSock c) (c_Parallel c)
           (c_localGitRepo c) l.

Definition projectName : M string := c ← getConveyor; mret (c_projectName c).

(** Modelled from the spec: [Conveyor.GetStageImage], missing from the
    sources; the conveyor's StageImage registry is a map keyed by name. *)
Definition GetStageImage (name : string) : M (option ref) :=
c ← getConveyor; mret (c_stageImages c !! name).

(** Modelled from the spec: [Conveyor.UnsetStageImage], missing from the
    sources; with [SetStageImage] it forms the rename (unset + set). *)
Definition UnsetStageImage (name : string) : M unit :=
updConveyor (fun c => withStageImages (delete name (c_stageImages c)) c).

(** Modelled from the spec: [Conveyor.SetStageImage], missing from the
    sources; the object is registered under its current name. *)
Definition SetStageImage (p : option ref) : M unit :=
r ← derefPtr p;
name ← StageImage_Name p;
updConveyor (fun c => withStageImages (<[name := r]> (c_stageImages c)) c).

Definition newStageImage (fromImage : option ref) (name : string) : StageImage :=
mkStageImage name fromImage None [] [] [] [].

(** Modelled from the spec: [Conveyor.GetOrCreateStageImage], missing from
    the sources; the factory deduplicates by name: a registered object is
    returned as it is, otherwise a new one with the given parent and name
    is allocated and registered. *)
Definition GetOrCreateStageImage (fromImage : option ref) (name : string)
  : M (option ref) :=
existing ← GetStageImage name;
match existing with
| Some r => mret (Some r)
| None =>
    w ← get;
    let r := fresh (dom (w_stageImages w)) in
    modify (set_stageImages
              (<[r := newStageImage fromImage name]> (w_stageImages w)));;
    SetStageImage (Some r);;
    mret (Some r)
end.

(** Modelled from the spec: [Conveyor.GetStageDigestMutex], missing from
    the sources; it returns the mutex unique to the digest.  The mutex is
    identified by its digest, and a digest without an entry in the map
    stands for a mutex that was never locked. *)
Definition GetStageDigestMutex (digest : string) : M string := mret digest.

(** [sync.Mutex.Lock]: the caller waits for ever on a held mutex when no
    other goroutine releases it. *)
Definition Mutex_Lock (m : string) : M unit :=
c ← getConveyor;
match c_stageDigestMutexes c !! m with
| Some true => block
| _ => updConveyor (fun c => withMutexes (<[m := true]> (c_stageDigestMutexes c)) c)
end.

(** [sync.Mutex.Unlock]: unlocking a mutex that is not locked is a fatal
    run-time error. *)
Definition Mutex_Unlock (m : string) : M unit :=
c ← getConveyor;
match c_stageDigestMutexes c !! m with
| Some true =>
    updConveyor (fun c => withMutexes (<[m := false]> (c_stageDigestMutexes c)) c)
| _ => panic "fatal error: sync: unlock of unlocked mutex"
end.

Definition AppendOnTerminateFunc (f : TerminateFunc) : M unit :=
updConveyor (fun c => withOnTerminate (c_onTerminateFuncs c ++ [f]) c).

(** [phase.StagesIterator.GetPrevImage(img, stg)]: the method is outside
    the sources and is answered by the environment. *)
Definition GetPrevImage (img stg : ref) : M ImageInterface :=
read (fun w => iterator_GetPrevImage w img stg).

(** [phase.StagesIterator.GetPrevBuiltImage(img, stg)]. *)
Definition GetPrevBuiltImage (img stg : ref) : M ImageInterface :=
read (fun w => iterator_GetPrevBuiltImage w img stg).

(** *** calculateDigest *)

Definition checksumArgsNames : list string :=
[ "BuildCacheVersion";
  "stageName";
  "stageDependencies";
  "prevNonEmptyStage digest";
  "prevNonEmptyStage dependencies for next stage" ].

Definition checksumArgs
  (stageName stageDependencies : string) (prev : option (string * string))
  : list string :=
[image_BuildCacheVersion; stageName; stageDependencies] ++
match prev with
| Some (prevDigest, prevStageDependencies) => [prevDigest; prevStageDependencies]
| None => []
end.

Definition calculateDigest
  (stageName stageDependencies : string) (prevNonEmptyStage : option ref)
  : M string :=
prev ← match prevNonEmptyStage with
       | Some prevStage =>
           r ← try (callRes (EvGetNextStageDependencies prevStage)
                            (fun w => stage_GetNextStageDependencies w prevStage));
           match r with
           | Failure err =>
               prevName ← Stage_Name prevStage;
               fail ("unable to get prev stage " +:+ prevName +:+
                     " dependencies for the stage " +:+ stageName +:+ ": " +:+ err)
           | Success prevStageDependencies =>
               prevDigest ← Stage_GetDigest prevStage;
               mret (Some (prevDigest, prevStageDependencies))
           end
       | None => mret None
       end;
let args := checksumArgs stageName stageDependencies prev in
let digest := util_Sha3_224Hash args in
log Debug ("Stage " +:+ stageName +:+ " digest " +:+ digest);;
forM_ (zip checksumArgsNames args) (fun '(argName, checksumArg) =>
  log Debug (argName +:+ " => " +:+ strconv_Quote checksumArg +:+ nl));;
mret digest.

(** *** printShouldBeBuiltError *)

Definition reasonNumberFunc (reasonNumber : nat) : nat * string :=
(S reasonNumber, "(" +:+ pretty (S reasonNumber) +:+ ") ").

Definition reasonDockerfile : string :=
"Dockerfile has COPY or ADD instruction which uses non-permanent data that affects stage digest:" +:+ nl +:+
"- .git directory which should be excluded with .dockerignore file (https://docs.docker.com/engine/reference/builder/#dockerignore-file)" +:+ nl +:+
"- auto-generated file".

Definition reasonWerfYaml : string :=
"werf.yaml has non-permanent data that affects stage digest:" +:+ nl +:+
"- environment variable (e.g. {{ env " +:+ dq +:+ "JOB_ID" +:+ dq +:+ " }})" +:+ nl +:+
"- dynamic go template function (e.g. one of sprig date functions http://masterminds.github.io/sprig/date.html)" +:+ nl +:+
"- auto-generated file content (e.g. {{ .Files.Get " +:+ dq +:+ "hash_sum_of_something" +:+ dq +:+ " }})".

Definition adviceCompareConfigs : string :=
"Stage digest dependencies can be found here, https://werf.io/documentation/reference/stages_and_images.html#stage-dependencies." +:+ nl +:+
nl +:+
"To quickly find the problem compare current and previous rendered werf configurations." +:+ nl +:+
"Get the path at the beginning of command output by the following prefix 'Using werf config render file: '." +:+ nl +:+
"E.g.:" +:+ nl +:+
nl +:+
"  diff /tmp/werf-config-render-502883762 /tmp/werf-config-render-837625028".

Definition reasonNotBuilt : string :=
"Stages have not been built yet or stages have been removed:" +:+ nl +:+
"- automatically with werf cleanup command" +:+ nl +:+
"- manually with werf purge, werf stages purge or werf host purge commands".

(** [Warn().LogLn(args)]: the text and a newline. *)
Definition warnLn (msg : string) : M unit := log Warn (msg +:+ nl).

Definition notExistMsg (logDetailedName digest : string) : string :=
logDetailedName +:+ " with digest " +:+ digest +:+
" is not exist in stages storage" +:+ nl.

Definition printShouldBeBuiltError (img stg : ref) : M unit :=
log Default "Built stages cache check";;
detailedName ← Stage_LogDetailedName stg;
digest ← Stage_GetDigest stg;
log Warn (notExistMsg detailedName digest);;
let reasonNumber := 0 in
warnLn "";;
warnLn "There are some possible reasons:";;
warnLn "";;
i ← derefImage img;
reasonNumber ← (if img_isDockerfileImage i
                then
                  let '(n, prefix) := reasonNumberFunc reasonNumber in
                  warnLn (prefix +:+ reasonDockerfile);;
                  warnLn "";;
                  mret n
                else mret reasonNumber);
let '(reasonNumber, prefix) := reasonNumberFunc reasonNumber in
warnLn (prefix +:+ reasonWerfYaml);;
warnLn "";;
warnLn adviceCompareConfigs;;
warnLn "";;
let '(reasonNumber, prefix) := reasonNumberFunc reasonNumber in
warnLn (prefix +:+ reasonNotBuilt);;
warnLn "".

(** *** calculateStage *)

Definition castToStageImage (img : ImageInterface) : M (option ref) :=
match img with
| IfaceNil => mret None
| IfaceStageImage p => mret p
| IfaceOther typeName =>
    panic ("interface conversion: container_runtime.ImageInterface is " +:+
           typeName +:+ ", not *container_runtime.StageImage")
end.

Definition calculateStage (img stg : ref) (shouldBeBuiltMode : bool) : M unit :=
prevImage ← GetPrevImage img stg;
prevBuiltImage ← GetPrevBuiltImage img stg;
stageDependencies ←
  callRes (EvGetDependencies stg)
          (fun w => stage_GetDependencies w stg prevImage prevBuiltImage);
name ← Stage_Name stg;
it ← getIterator;
stageSig ← calculateDigest name stageDependencies (PrevNonEmptyStage it);
Stage_SetDigest stg stageSig;;
detailedName ← Stage_LogDetailedName stg;
c ← getConveyor;
when (c_Parallel c)
     (log Info_ ("Locking stage " +:+ detailedName +:+ " handling"));;
digest ← Stage_GetDigest stg;
mutex ← GetStageDigestMutex digest;
Mutex_Lock mutex;;
detailedName ← Stage_LogDetailedName stg;
stages ← callRes (EvGetStagesByDigest detailedName stageSig)
                 (fun w => manager_GetStagesByDigest w detailedName stageSig);
stageDesc ← callRes (EvSelectSuitableStage stg stages)
                    (fun w => manager_SelectSuitableStage w stg stages);
match stageDesc with
| Some desc =>
    prevImage ← GetPrevImage img stg;
    fromImage ← castToStageImage prevImage;
    i ← GetOrCreateStageImage fromImage (info_Name (sd_Info desc));
    StageImage_SetStageDescription i (Some desc);;
    Stage_SetImage stg i
| None =>
    if shouldBeBuiltMode
    then
      printShouldBeBuiltError img stg;;
      fail "stages required"
    else
      prevImage ← GetPrevImage img stg;
      fromImage ← castToStageImage prevImage;
      newName ← call EvNewUUID uuid_New;
      i ← GetOrCreateStageImage fromImage newName;
      Stage_SetImage stg i
end;;
name ← Stage_Name stg;
stageContentSig ←
  wrapErr (fun err => "unable to calculate stage " +:+ name +:+
                      " content digest: " +:+ err)
          (calculateDigest (name +:+ "-content") "" (Some stg));
Stage_SetContentDigest stg stageContentSig;;
detailedName ← Stage_LogDetailedName stg;
log Info_ ("Stage " +:+ detailedName +:+ " content digest: " +:+
           stageContentSig +:+ nl).

(** *** Logging helpers of the build phase *)

Definition ImageStageShouldBeIntrospected
  (opts : IntrospectOptions) (imageName stageName : string) : bool :=
existsb (fun s =>
           (bool_decide (it_ImageName s = "*") ||
            bool_decide (it_ImageName s = imageName)) &&
           bool_decide (it_StageName s = stageName))
        (Targets opts).

Definition logImageInfoLeftPartWidth : nat := 8.

(** [fmt.Sprintf(logImageInfoFormat, key, value)]: the key is padded with
    spaces on the left to the width of the left part. *)
Definition logImageInfoLine (key value : string) : string :=
"  " +:+
String.concat "" (replicate (logImageInfoLeftPartWidth - String.length key) " ")
+:+ key +:+ ": " +:+ value +:+ nl.

(** [strings.TrimLeft(s, " ")]. *)
Fixpoint TrimLeftSpaces (s : string) : string :=
match s with
| String c s' => if Ascii.eqb c (Ascii.ascii_of_nat 32) then TrimLeftSpaces s' else s
| EmptyString => s
end.

Definition logImageCommands (img : option ref) : M unit :=
r ← derefPtr img;
commands ← read (fun w => container_UserRunCommands w r);
when (negb (bool_decide (length commands = 0)))
     (let formattedCommands :=
        TrimLeftSpaces (logboek_FitText (String.concat nl commands)
                                        (logImageInfoLeftPartWidth + 4)) in
      log Default (logImageInfoLine "commands" formattedCommands)).

Definition derefDescription (img : option ref) : M StageDescription :=
d ← StageImage_GetStageDescription img;
match d with
| Some desc => mret desc
| None => panic nilDeref
end.

Definition logImageInfo
  (img : option ref) (prevStageImageSize : Z) (isUsingCache : bool) : M unit :=
name ← StageImage_Name img;
let '(repository, tag) := image_ParseRepositoryAndTag name in
log Default (logImageInfoLine "name" (repository +:+ ":" +:+ tag));;
desc ← derefDescription img;
log Info_ (logImageInfoLine "image_id" (stringid_TruncateID (info_ID (sd_Info desc))));;
desc ← derefDescription img;
log Info_ (logImageInfoLine "created" (info_GetCreatedAt (sd_Info desc)));;
desc ← derefDescription img;
(if bool_decide (prevStageImageSize = 0%Z)
 then log Default (logImageInfoLine "size" (byteCountBinary (info_Size (sd_Info desc))))
 else log Default
        (logImageInfoLine "size"
           (byteCountBinary (info_Size (sd_Info desc)) +:+ " (+" +:+
            byteCountBinary (info_Size (sd_Info desc) - prevStageImageSize) +:+ ")")));;
when (negb isUsingCache)
     (r ← derefPtr img;
      changes ← read (fun w => container_UserCommitChanges w r);
      when (negb (bool_decide (length changes = 0)))
           (let formattedCommands :=
              TrimLeftSpaces (logboek_FitText (String.concat nl changes)
                                              (logImageInfoLeftPartWidth + 4)) in
            log Default (logImageInfoLine "instructions" formattedCommands));;
      logImageCommands img).

Definition getPrevNonEmptyStageImageSize : M Z :=
it ← getIterator;
match PrevNonEmptyStage it with
| Some prev =>
    i ← Stage_GetImage prev;
    d ← StageImage_GetStageDescription i;
    match d with
    | Some desc => mret (info_Size (sd_Info desc))
    | None => mret 0%Z
    end
| None => mret 0%Z
end.

Definition introspectStage (s : ref) : M unit :=
name ← Stage_Name s;
log Info_ ("Introspecting stage " +:+ name);;
i ← Stage_GetImage s;
r ← derefPtr i;
wrapErr (fun err => "introspect error failed: " +:+ err)
        (callErr (EvIntrospect r) (fun w => image_Introspect w r)).

(** *** fetchBaseImageForStage *)

Definition fetchBaseImageForStage (img stg : ref) : M unit :=
name ← Stage_Name stg;
if bool_decide (name = "from")
then
  r ← try (callErr (EvFetchBaseImage img) (fun w => img_FetchBaseImage w img));
  match r with
  | Failure err =>
      baseImageName ← read (fun w => img_baseImageName w img);
      detailedName ← Stage_LogDetailedName stg;
      fail ("unable to fetch base image " +:+ baseImageName +:+
            " for stage " +:+ detailedName +:+ ": " +:+ err)
  | Success _ => mret tt
  end
else if bool_decide (name = "dockerfile")
then mret tt
else
  it ← getIterator;
  callErr (EvFetchStage (PrevBuiltStage it))
          (fun w => manager_FetchStage w (PrevBuiltStage it)).

(** *** prepareStageInstructions *)

(** Modelled from the spec: the label names of package [image], missing
    from the sources; the spec lists them as stable wire identifiers. *)
Definition WerfDockerImageName : string := "werf-docker-image-name".
Definition WerfLabel : string := "werf".
Definition WerfVersionLabel : string := "werf-version".
Definition WerfCacheVersionLabel : string := "werf-cache-version".
Definition WerfImageLabel : string := "werf-image".
Definition WerfStageDigestLabel : string := "werf-stage-digest".
Definition WerfStageContentDigestLabel : string := "werf-stage-content-digest".

Definition serviceLabels
  (imageName project digest contentDigest : string) : gmap string string :=
list_to_map
  [ (WerfDockerImageName, imageName);
    (WerfLabel, project);
    (WerfVersionLabel, werf_Version);
    (WerfCacheVersionLabel, image_BuildCacheVersion);
    (WerfImageLabel, "false");
    (WerfStageDigestLabel, digest);
    (WerfStageContentDigestLabel, contentDigest) ].

Definition appendBuildArgs (args : list string) (i : StageImage) : StageImage :=
mkStageImage (si_name i) (si_fromImage i) (si_stageDescription i)
             (si_dockerfileBuildArgs i ++ args) (si_serviceCommitLabels i)
             (si_runVolumes i) (si_runEnv i).
Definition addServiceCommitLabels
  (labels : list (string * string)) (i : StageImage) : StageImage :=
mkStageImage (si_name i) (si_fromImage i) (si_stageDescription i)
             (si_dockerfileBuildArgs i) (si_serviceCommitLabels i ++ labels)
             (si_runVolumes i) (si_runEnv i).
Definition addRunVolume (v : string) (i : StageImage) : StageImage :=
mkStageImage (si_name i) (si_fromImage i) (si_stageDescription i)
             (si_dockerfileBuildArgs i) (si_serviceCommitLabels i)
             (si_runVolumes i ++ [v]) (si_runEnv i).
Definition addRunEnv (kv : string * string) (i : StageImage) : StageImage :=
mkStageImage (si_name i) (si_fromImage i) (si_stageDescription i)
             (si_dockerfileBuildArgs i) (si_serviceCommitLabels i)
             (si_runVolumes i) (si_runEnv i ++ [kv]).

(** The iteration order of a Go map is unspecified; the labels are taken
    in the order of [map_to_list]. *)
Definition prepareStageInstructions (img stg : ref) : M unit :=
i ← derefImage img;
detailedName ← Stage_LogDetailedName stg;
log Debug ("-- BuildPhase.prepareStage " +:+ img_logDetailedName i +:+ " " +:+
           detailedName +:+ nl);;
stageImage ← Stage_GetImage stg;
imageName ← StageImage_Name stageImage;
project ← projectName;
digest ← Stage_GetDigest stg;
contentDigest ← Stage_GetContentDigest stg;
let labels := serviceLabels imageName project digest contentDigest in
s ← derefStage stg;
(if stg_isDockerfileStage s
 then
   let buildArgs :=
     (fun '(key, value) => "--label=" +:+ key +:+ "=" +:+ value)
       <$> map_to_list labels in
   updStageImage stageImage (appendBuildArgs buildArgs);;
   r ← derefPtr stageImage;
   AppendOnTerminateFunc (CleanupDockerfileImageBuilder r)
 else
   updStageImage stageImage (addServiceCommitLabels (map_to_list labels));;
   c ← getConveyor;
   when (negb (bool_decide (c_sshAuthSock c = "")))
        (if bool_decide (runtime_GOOS = "darwin")
         then
           updStageImage stageImage
             (addRunVolume "/run/host-services/ssh-auth.sock:/run/host-services/ssh-auth.sock");;
           updStageImage stageImage
             (addRunEnv ("SSH_AUTH_SOCK", "/run/host-services/ssh-auth.sock"))
         else
           updStageImage stageImage
             (addRunVolume (c_sshAuthSock c +:+ ":/.werf/tmp/ssh-auth-sock"));;
           updStageImage stageImage
             (addRunEnv ("SSH_AUTH_SOCK", "/.werf/tmp/ssh-auth-sock"))));;
prevBuiltImage ← GetPrevBuiltImage img stg;
name ← Stage_Name stg;
wrapErr (fun err => "error preparing stage " +:+ name +:+ ": " +:+ err)
        (callErr (EvPrepareImage stg stageImage)
                 (fun w => stage_PrepareImage w stg prevBuiltImage stageImage)).

(** *** atomicBuildStageImage *)

Definition envSleepBeforeStageBuild : string :=
"WERF_TEST_ATOMIC_STAGE_BUILD__SLEEP_SECONDS_BEFORE_STAGE_BUILD".
Definition envSleepBeforeStageSave : string :=
"WERF_TEST_ATOMIC_STAGE_BUILD__SLEEP_SECONDS_BEFORE_STAGE_SAVE".

Definition printf (msg : string) : M unit := modify (add_event (EvPrintf msg)).
Definition sleep (seconds : Z) : M unit := modify (add_event (EvSleep seconds)).

(** The candidates' IDs followed by the ID of the new image: the loop
    [for _, stageDesc := range stages] and the final [append]. *)
Definition collectStageIDs (stages : list StageDescription) (new : StageID)
  : list StageID :=
(fold_left (fun stageIDs stageDesc => stageIDs ++ [sd_StageID stageDesc])
           stages [] ++ [new])%list.

Definition atomicBuildStageImage (img stg : ref) : M unit :=
stageImage ← Stage_GetImage stg;
v ← read (fun w => os_Getenv w envSleepBeforeStageBuild);
(when (negb (bool_decide (v = "")))
      (let seconds := fmt_Sscanf_d v in
       digest ← Stage_GetDigest stg;
       printf ("Sleeping " +:+ pretty seconds +:+
               " seconds before building new image by digest " +:+ digest +:+
               "..." +:+ nl);;
       sleep seconds));;
phase ← getPhase;
name ← Stage_Name stg;
r ← try (built ← derefPtr stageImage;
         callErr (EvBuild built (ImageBuildOptions phase))
                 (fun w => image_Build w built (ImageBuildOptions phase)));
match r with
| Failure err =>
    digest ← Stage_GetDigest stg;
    fail ("failed to build image for stage " +:+ name +:+ " with digest " +:+
          digest +:+ ": " +:+ err)
| Success _ => mret tt
end;;
v ← read (fun w => os_Getenv w envSleepBeforeStageSave);
(when (negb (bool_decide (v = "")))
      (let seconds := fmt_Sscanf_d v in
       i ← Stage_GetImage stg;
       built ← derefPtr i;
       builtId ← read (fun w => image_GetBuiltId w built);
       storageName ← read storage_String;
       digest ← Stage_GetDigest stg;
       printf ("Sleeping " +:+ pretty seconds +:+
               " seconds before saving newly built image " +:+
               builtId +:+ " into stages storage " +:+
               storageName +:+ " by digest " +:+ digest +:+ "..." +:+ nl);;
       sleep seconds));;
project ← projectName;
digest ← Stage_GetDigest stg;
l ← try (callRes (EvLockStage project digest)
                 (fun w => locker_LockStage w project digest));
match l with
| Failure err =>
    fail ("unable to lock project " +:+ project +:+ " digest " +:+ digest +:+
          ": " +:+ err)
| Success lock =>
    defer (call (EvUnlockStage lock) (fun w => locker_Unlock w lock);; mret tt)
      (detailedName ← Stage_LogDetailedName stg;
       digest ← Stage_GetDigest stg;
       stages ← callRes (EvGetStagesByDigest detailedName digest)
                        (fun w => manager_GetStagesByDigest w detailedName digest);
       stageDesc ← callRes (EvSelectSuitableStage stg stages)
                           (fun w => manager_SelectSuitableStage w stg stages);
       match stageDesc with
       | Some desc =>
           detailedName ← Stage_LogDetailedName stg;
           digest ← Stage_GetDigest stg;
           log Default
             ("Discarding newly built image for stage " +:+ detailedName +:+
              " by digest " +:+ digest +:+ ": detected already existing image " +:+
              info_Name (sd_Info desc) +:+ " in the stages storage" +:+ nl);;
           prevImage ← GetPrevImage img stg;
           i ← match prevImage with
               | IfaceStageImage fromImage =>
                   GetOrCreateStageImage fromImage (info_Name (sd_Info desc))
               | IfaceNil =>
                   GetOrCreateStageImage None (info_Name (sd_Info desc))
               | IfaceOther typeName =>
                   panic ("runtime error: unexpected type " +:+ typeName)
               end;
           StageImage_SetStageDescription i (Some desc);;
           Stage_SetImage stg i
       | None =>
           digest ← Stage_GetDigest stg;
           '(newStageImageName, uniqueID) ←
             call (EvGenerateStageUniqueID digest stages)
                  (fun w => manager_GenerateStageUniqueID w digest stages);
           oldName ← StageImage_Name stageImage;
           stageImageObj ← GetStageImage oldName;
           objName ← StageImage_Name stageImageObj;
           UnsetStageImage objName;;
           StageImage_SetName stageImageObj newStageImageName;;
           SetStageImage stageImageObj;;
           log Info_ "Store into stages storage";;
           stored ← derefPtr stageImage;
           s ← try (callErr (EvStoreImage stored)
                            (fun w => storage_StoreImage w stored));
           match s with
           | Failure err =>
               detailedName ← Stage_LogDetailedName stg;
               digest ← Stage_GetDigest stg;
               imageName ← StageImage_Name stageImage;
               storageName ← read storage_String;
               fail ("unable to store stage " +:+ detailedName +:+ " digest " +:+
                     digest +:+ " image " +:+ imageName +:+
                     " into stages storage " +:+ storageName +:+ ": " +:+ err)
           | Success _ => mret tt
           end;;
           project ← projectName;
           digest ← Stage_GetDigest stg;
           d ← try (callRes (EvGetStageDescription project digest uniqueID)
                            (fun w => storage_GetStageDescription
                                        w project digest uniqueID));
           match d with
           | Failure err =>
               detailedName ← Stage_LogDetailedName stg;
               digest ← Stage_GetDigest stg;
               imageName ← StageImage_Name stageImage;
               storageName ← read storage_String;
               fail ("unable to get stage " +:+ detailedName +:+ " digest " +:+
                     digest +:+ " image " +:+ imageName +:+
                     " description from stages storage " +:+ storageName +:+
                     " after stages has been stored into stages storage: " +:+ err)
           | Success desc => StageImage_SetStageDescription stageImageObj desc
           end;;
           new ← derefDescription stageImage;
           let stageIDs := collectStageIDs stages (sd_StageID new) in
           name ← Stage_Name stg;
           digest ← Stage_GetDigest stg;
           callErr (EvAtomicStoreStagesByDigestToCache name digest stageIDs)
                   (fun w => manager_AtomicStoreStagesByDigestToCache
                               w name digest stageIDs)
       end)
end.

(** *** buildStage *)

Definition buildStage (img stg : ref) : M unit :=
i ← derefImage img;
when (negb (img_isDockerfileImage i))
     (wrapErr (fun err => "get or create stapel container failed: " +:+ err)
              (callRes EvGetOrCreateContainer stapel_GetOrCreateContainer;; mret tt));;
detailedName ← Stage_LogDetailedName stg;
log Default ("Building stage " +:+ detailedName);;
r ← try (h ← try (callErr (EvPreRunHook stg) (fun w => stage_PreRunHook w stg));
         match h with
         | Failure err =>
             detailedName ← Stage_LogDetailedName stg;
             fail (detailedName +:+ " preRunHook failed: " +:+ err)
         | Success _ => atomicBuildStageImage img stg
         end);
(* infoSectionFunc(err) *)
match r with
| Failure _ => stageImage ← Stage_GetImage stg; logImageCommands stageImage
| Success _ =>
    stageImage ← Stage_GetImage stg;
    size ← getPrevNonEmptyStageImageSize;
    logImageInfo stageImage size false
end;;
match r with
| Failure err => fail err
| Success _ => mret tt
end;;
phase ← getPhase;
name ← Stage_Name stg;
when (ImageStageShouldBeIntrospected (phaseIntrospectOptions phase) (img_name i) name)
     (introspectStage stg).

(** *** onImageStage *)

Definition withShouldAddManagedImageRecord (b : bool) (p : BuildPhase)
  : BuildPhase :=
mkBuildPhase (ph_BuildPhaseOptions p) (ph_StagesIterator p) b
             (ph_ImagesReport p) (ph_ReportPath p) (ph_ReportFormat p).

(** [defer phase.Conveyor.GetStageDigestMutex(stg.GetDigest()).Unlock()]:
    the mutex is looked up when the [defer] statement runs, its [Unlock]
    when the function leaves. *)
Definition deferStageDigestMutexUnlock {A} (stg : ref) (rest : M A) : M A :=
digest ← Stage_GetDigest stg;
mutex ← GetStageDigestMutex digest;
defer (Mutex_Unlock mutex) rest.

Definition onImageStage (img stg : ref) (isEmpty : bool) : M unit :=
if isEmpty then mret tt
else
  r ← try (callErr (EvFetchDependencies stg)
                   (fun w => stage_FetchDependencies w stg));
  match r with
  | Failure err =>
      detailedName ← Stage_LogDetailedName stg;
      fail ("unable to fetch dependencies for stage " +:+ detailedName +:+
            ": " +:+ err)
  | Success _ => mret tt
  end;;
  phase ← getPhase;
  if ShouldBeBuiltMode phase
  then
    calculateStage img stg true;;
    deferStageDigestMutexUnlock stg (mret tt)
  else
    name ← Stage_Name stg;
    when (negb (bool_decide (name = "from")) &&
          negb (bool_decide (name = "dockerfile")))
         (it ← getIterator;
          i ← derefImage img;
          match PrevNonEmptyStage it, PrevBuiltStage it with
          | None, _ =>
              panic ("expected PrevNonEmptyStage to be set for image " +:+
                     strconv_Quote (img_name i) +:+ " stage " +:+ name)
          | Some _, None =>
              panic ("expected PrevBuiltStage to be set for image " +:+
                     strconv_Quote (img_name i) +:+ " stage " +:+ name)
          | Some nonEmpty, Some built =>
              when (negb (bool_decide (built = nonEmpty)))
                   (builtName ← Stage_LogDetailedName built;
                    nonEmptyName ← Stage_LogDetailedName nonEmpty;
                    panic ("expected PrevBuiltStage (" +:+ strconv_Quote builtName +:+
                           ") to equal PrevNonEmptyStage (" +:+
                           strconv_Quote nonEmptyName +:+ ") for image " +:+
                           strconv_Quote (img_name i) +:+ " stage " +:+ name))
          end);;
    calculateStage img stg false;;
    deferStageDigestMutexUnlock stg
      (stageImage ← Stage_GetImage stg;
       desc ← StageImage_GetStageDescription stageImage;
       match desc with
       | Some _ =>
           (* Stage is cached in the stages storage *)
           detailedName ← Stage_LogDetailedName stg;
           log Default ("Use cache image for " +:+ detailedName +:+ nl);;
           stageImage ← Stage_GetImage stg;
           size ← getPrevNonEmptyStageImageSize;
           logImageInfo stageImage size true;;
           log Default nl;;
           phase ← getPhase;
           i ← derefImage img;
           name ← Stage_Name stg;
           when (ImageStageShouldBeIntrospected
                   (phaseIntrospectOptions phase) (img_name i) name)
                (introspectStage stg)
       | None =>
           fetchBaseImageForStage img stg;;
           prepareStageInstructions img stg;;
           buildStage img stg;;
           stageImage ← Stage_GetImage stg;
           desc ← StageImage_GetStageDescription stageImage;
           match desc with
           | None =>
               name ← Stage_Name stg;
               i ← derefImage img;
               imageName ← StageImage_Name stageImage;
               panic ("expected stage " +:+ name +:+ " image " +:+
                      strconv_Quote (img_name i) +:+
                      " built image info (image name = " +:+ imageName +:+
                      ") to be set!")
           | Some _ =>
               (* Add managed image record only if there was at least one
                  newly built stage *)
               modify (fun w =>
                 set_phase (withShouldAddManagedImageRecord true (w_phase w)) w)
           end
       end).

(** *** The phase: construction, per-image hooks, report *)

Definition NewBuildPhase (opts : BuildPhaseOptions) : BuildPhase :=
mkBuildPhase opts None false (mkImagesReport ∅) "" "".

Definition withImagesReport (r : ImagesReport) (p : BuildPhase) : BuildPhase :=
mkBuildPhase (ph_BuildPhaseOptions p) (ph_StagesIterator p)
             (ph_ShouldAddManagedImageRecord p) r
             (ph_ReportPath p) (ph_ReportFormat p).
Definition withStagesIterator (it : option StagesIterator) (p : BuildPhase)
  : BuildPhase :=
mkBuildPhase (ph_BuildPhaseOptions p) it
             (ph_ShouldAddManagedImageRecord p) (ph_ImagesReport p)
             (ph_ReportPath p) (ph_ReportFormat p).

(** [ImagesReport.SetImageRecord]. *)
Definition SetImageRecord (name : string) (imageRecord : ReportImageRecord)
  : M unit :=
modify (fun w =>
  set_phase
    (withImagesReport
       (mkImagesReport (<[name := imageRecord]> (Images (ph_ImagesReport (w_phase w)))))
       (w_phase w))
    w).

(** [ImagesReport.ToJson]: [json.MarshalIndent(report, "", "\t")]. *)
Definition ToJson : M string :=
phase ← getPhase;
match json_MarshalIndent (ph_ImagesReport phase) "" tab with
| Success data => mret data
| Failure err => fail err
end.

(** The file mode [0644] (octal). *)
Definition mode0644 : N := 6 * 64 + 4 * 8 + 4.

Definition reportRecord (desc : StageDescription) : ReportImageRecord :=
mkReportImageRecord (info_Name (sd_Info desc)) (info_Repository (sd_Info desc))
                    (info_Tag (sd_Info desc)) (info_ID (sd_Info desc)).

(** [img.GetLastNonEmptyStage().GetImage().GetStageDescription()] followed
    by the dereference of the description. *)
Definition lastStageDescription (i : Image) : M StageDescription :=
match img_lastNonEmptyStage i with
| None => panic nilDeref
| Some last =>
    stageImage ← Stage_GetImage last;
    derefDescription stageImage
end.

Definition createReport : M unit :=
c ← getConveyor;
forM_ (c_images c) (fun img =>
  i ← derefImage img;
  if img_isArtifact i then mret tt
  else
    desc ← lastStageDescription i;
    SetImageRecord (img_name i) (reportRecord desc));;
data ← wrapErr (fun err => "unable to prepare report json: " +:+ err) ToJson;
log Debug ("ImagesReport:" +:+ nl +:+ data +:+ nl);;
phase ← getPhase;
when (negb (bool_decide (ph_ReportPath phase = "")) &&
      bool_decide (ph_ReportFormat phase = ReportJSON))
     (wrapErr (fun err => "unable to write report to " +:+ ph_ReportPath phase +:+
                          ": " +:+ err)
              (callErr (EvWriteFile (ph_ReportPath phase) (data +:+ nl) mode0644)
                       (fun w => ioutil_WriteFile w (ph_ReportPath phase)
                                                  (data +:+ nl) mode0644))).

Definition AfterImages : M unit := createReport.

(** Modelled from the spec: [NewStagesIterator], missing from the sources;
    a fresh iterator has seen no stage yet. *)
Definition NewStagesIterator : StagesIterator := mkStagesIterator None None.

Definition BeforeImageStages (img : ref) : M unit :=
modify (fun w =>
  set_phase (withStagesIterator (Some NewStagesIterator) (w_phase w)) w);;
call (fun _ => EvSetupBaseImage img) (fun w => (tt, img_SetupBaseImage w img)).

Definition addManagedImage (img : ref) : M unit :=
phase ← getPhase;
when (ph_ShouldAddManagedImageRecord phase)
     (project ← projectName;
      i ← derefImage img;
      wrapErr (fun err => "unable to add image " +:+ strconv_Quote (img_name i) +:+
                          " to the managed images of project " +:+
                          strconv_Quote project +:+ ": " +:+ err)
              (callErr (EvAddManagedImage project (img_name i))
                       (fun w => storage_AddManagedImage w project (img_name i)))).

Definition publishImageMetadata (img : ref) : M unit :=
c ← getConveyor;
match c_localGitRepo c with
| Some localGitRepo =>
    i ← derefImage img;
    log Info_ ("Processing image " +:+ img_name i +:+ " git metadata");;
    headCommit ← callRes EvHeadCommit (fun w => repo_HeadCommit w localGitRepo);
    project ← projectName;
    stageID ← read (fun w => img_GetStageID w img);
    e ← try (callRes (EvIsImageMetadataExist project (img_name i) headCommit stageID)
                     (fun w => storage_IsImageMetadataExist
                                 w project (img_name i) headCommit stageID));
    match e with
    | Failure err =>
        stageID ← read (fun w => img_GetStageID w img);
        fail ("unable to get image " +:+ img_name i +:+ " metadata by commit " +:+
              headCommit +:+ " and stage ID " +:+ stageID +:+ ": " +:+ err)
    | Success exists_ =>
        if negb exists_
        then
          project ← projectName;
          stageID ← read (fun w => img_GetStageID w img);
          callErr (EvPutImageMetadata project (img_name i) headCommit stageID)
                  (fun w => storage_PutImageMetadata
                              w project (img_name i) headCommit stageID)
        else mret tt
    end
| None => mret tt
end.

Definition withLastNonEmptyStage (s : option ref) (i : Image) : Image :=
mkImage (img_name i) (img_logName i) (img_logDetailedName i) (img_isArtifact i)
        (img_isDockerfileImage i) s (img_contentDigest i).
Definition withContentDigest (d : string) (i : Image) : Image :=
mkImage (img_name i) (img_logName i) (img_logDetailedName i) (img_isArtifact i)
        (img_isDockerfileImage i) (img_lastNonEmptyStage i) d.

Definition AfterImageStages (img : ref) : M unit :=
it ← getIterator;
updImage img (withLastNonEmptyStage (PrevNonEmptyStage it));;
it ← getIterator;
contentDigest ← match PrevNonEmptyStage it with
                | Some prev => Stage_GetContentDigest prev
                | None => panic nilDeref
                end;
updImage img (withContentDigest contentDigest);;
i ← derefImage img;
if img_isArtifact i then mret tt
else
  addManagedImage img;;
  publishImageMetadata img.

(** *** Vocabulary of the specifications *)

(** [twp m w Q]: the run of [m] from [w] appends some events [evs] to the
    trace, and its outcome [o] and final world [w'] satisfy [Q o w' evs]. *)
Definition twp {A} (m : M A) (w : World)
  (Q : Outcome A -> World -> list Event -> Prop) : Prop :=
∃ evs, w_trace (m w).2 = (w_trace w ++ evs)%list ∧ Q (m w).1 (m w).2 evs.

(** The postcondition a continuation [f] must meet after a first part that
    ended with a given outcome. *)
Definition after {A B} (f : A -> M B)
  (Q : Outcome B -> World -> list Event -> Prop)
  : Outcome A -> World -> list Event -> Prop :=
fun o w1 evs1 =>
  match o with
  | Ok a => twp (f a) w1 (fun o2 w2 evs2 => Q o2 w2 (evs1 ++ evs2)%list)
  | Err e => Q (Err e) w1 evs1
  | Panic msg => Q (Panic msg) w1 evs1
  | Blocked => Q Blocked w1 evs1
  end.

(** The events a run of [m] from [w] appends to the trace. *)
Definition eventsOf {A} (m : M A) (w : World) : list Event :=
drop (length (w_trace w)) (w_trace (m w).2).

(** The world after collaborators moved to [x] and recorded [evs], the
    objects of the program untouched. *)
Definition advance (x : Ext) (evs : list Event) (w : World) : World :=
mkWorld x (w_trace w ++ evs) (w_conveyor w) (w_phase w)
        (w_stages w) (w_stageImages w) (w_images w).

(** The stage image a pointer leads to, if any. *)
Definition heapAt (w : World) (p : option ref) : option (ref * StageImage) :=
match p with
| Some r => match w_stageImages w !! r with Some i => Some (r, i) | None => None end
| None => None
end.

(** The digest of section 4.1 as a function of its declared inputs: the
    stage name, its dependency summary and, for a stage with a non-empty
    predecessor, the predecessor's digest and what it hands to its
    successor. *)
Definition digestOf
  (stageName stageDependencies : string) (prev : option (string * string))
  : string :=
util_Sha3_224Hash (checksumArgs stageName stageDependencies prev).

(** What the predecessor contributes to the digest: nothing when there is
    no previous non-empty stage; otherwise its digest and its answer to
    [GetNextStageDependencies]. *)
Definition predecessorInputs
  (w : World) (prev : option ref) (inputs : option (string * string)) : Prop :=
match prev with
| None => inputs = None
| Some p =>
    ∃ s next, w_stages w !! p = Some s ∧
              (stage_GetNextStageDependencies w p).1 = Success next ∧
              inputs = Some (stg_digest s, next)
end.

(** The pointers of the registry and of the stage lead to live objects. *)
Definition registryValid (w : World) : Prop :=
∀ name r, c_stageImages (w_conveyor w) !! name = Some r →
          is_Some (w_stageImages w !! r).

(** The image bound to the stage is the object registered under its own
    name: the state [calculateStage] leaves on a cache miss. *)
Definition stageImageRegistered (w : World) (stg : ref) : Prop :=
∃ s r i, w_stages w !! stg = Some s ∧ stg_image s = Some r ∧
         w_stageImages w !! r = Some i ∧
         c_stageImages (w_conveyor w) !! si_name i = Some r.

(** The description the stage is bound to. *)
Definition boundDescription (w : World) (stg : ref) : option StageDescription :=
s ← w_stages w !! stg;
r ← stg_image s;
i ← w_stageImages w !! r;
si_stageDescription i.

(** The program's objects of [w0] are those of [w]; the collaborators and
    the trace may have moved on. *)
Definition sameObjects (w0 w : World) : Prop :=
w_conveyor w0 = w_conveyor w ∧ w_phase w0 = w_phase w ∧
w_stages w0 = w_stages w ∧ w_stageImages w0 = w_stageImages w ∧
w_images w0 = w_images w.

(** The parent [GetPrevImage] names for the image of [stg], asked while
    the program's objects are those of [w]: a stage image or nil. *)
Definition prevImageDuring
  (w : World) (img stg : ref) (fromImage : option ref) : Prop :=
∃ w0, sameObjects w0 w ∧
      match iterator_GetPrevImage w0 img stg with
      | IfaceStageImage p => fromImage = p
      | IfaceNil => fromImage = None
      | IfaceOther _ => False
      end.

Definition withImage (i : option ref) (s : Stage) : Stage :=
mkStage (stg_name s) (stg_logDetailedName s) (stg_isDockerfileStage s)
        (stg_digest s) (stg_contentDigest s) i.

(** [reboundTo w w' img stg desc]: from [w] to [w'] the stage [stg] left
    the image it had for the object the registry holds under the name of
    [desc], and that object now carries [desc].  The object is the one the
    registry of [w] had under this name, if any; otherwise it is a new
    object with this name and the parent [GetPrevImage] gives, registered
    under the name.  Nothing else of the stages, of the stage images and
    of the registry changed. *)
Definition reboundTo
  (w w' : World) (img stg : ref) (desc : StageDescription) : Prop :=
let name := info_Name (sd_Info desc) in
∃ s r i,
  w_stages w !! stg = Some s ∧
  w_stages w' = <[stg := withImage (Some r) s]> (w_stages w) ∧
  w_stageImages w' =
    <[r := withStageDescription (Some desc) i]> (w_stageImages w) ∧
  c_stageImages (w_conveyor w') = <[name := r]> (c_stageImages (w_conveyor w)) ∧
  match c_stageImages (w_conveyor w) !! name with
  | Some r0 => r = r0 ∧ w_stageImages w !! r0 = Some i
  | None => w_stageImages w !! r = None ∧
            ∃ fromImage, prevImageDuring w img stg fromImage ∧
                         i = newStageImage fromImage name
  end.

(** What [img.GetStageID()] gives while the program's objects are those of
    [w]. *)
Definition stageIDDuring (w : World) (img : ref) (stageID : string) : Prop :=
∃ w0, sameObjects w0 w ∧ stageID = img_GetStageID w0 img.

(** The state of the in-process mutex of a digest. *)
Definition mutexHeld (w : World) (digest : string) : bool :=
default false (c_stageDigestMutexes (w_conveyor w) !! digest).

(** The lines [printShouldBeBuiltError] writes. *)
Definition shouldBeBuiltDiagnostic
  (isDockerfileImage : bool) (logDetailedName digest : string) : list Event :=
[ EvLog Default "Built stages cache check";
  EvLog Warn (notExistMsg logDetailedName digest);
  EvLog Warn nl;
  EvLog Warn ("There are some possible reasons:" +:+ nl);
  EvLog Warn nl ] ++
(if isDockerfileImage
 then [ EvLog Warn ("(1) " +:+ reasonDockerfile +:+ nl); EvLog Warn nl;
        EvLog Warn ("(2) " +:+ reasonWerfYaml +:+ nl); EvLog Warn nl;
        EvLog Warn (adviceCompareConfigs +:+ nl); EvLog Warn nl;
        EvLog Warn ("(3) " +:+ reasonNotBuilt +:+ nl); EvLog Warn nl ]
 else [ EvLog Warn ("(1) " +:+ reasonWerfYaml +:+ nl); EvLog Warn nl;
        EvLog Warn (adviceCompareConfigs +:+ nl); EvLog Warn nl;
        EvLog Warn ("(2) " +:+ reasonNotBuilt +:+ nl); EvLog Warn nl ]).

(** The world with its report map replaced. *)
Definition setReport (m : gmap string ReportImageRecord) (w : World) : World :=
set_phase (withImagesReport (mkImagesReport m) (w_phase w)) w.

(** What one turn of the loop of [createReport] does to the report map. *)
Definition reportStep (w : World) (m : gmap string ReportImageRecord) (img : ref)
  : gmap string ReportImageRecord :=
match w_images w !! img with
| Some i =>
    if img_isArtifact i then m
    else match img_lastNonEmptyStage i ≫= boundDescription w with
         | Some desc => <[img_name i := reportRecord desc]> m
         | None => m
         end
| None => m
end.

(** The body of the loop of [createReport]. *)
Definition reportBody (img : ref) : M unit :=
i ← derefImage img;
if img_isArtifact i then mret tt
else
  desc ← lastStageDescription i;
  SetImageRecord (img_name i) (reportRecord desc).

(** An image that is an artifact, or whose last non-empty stage is bound
    to an image with a description. *)
Definition imageReportable (w : World) (img : ref) : Prop :=
∃ i, w_images w !! img = Some i ∧
     (img_isArtifact i = false →
      ∃ last desc, img_lastNonEmptyStage i = Some last ∧
                   boundDescription w last = Some desc).

(** Every image of the conveyor is live and can be reported. *)
Definition reportable (w : World) : Prop :=
∀ img, img ∈ c_images (w_conveyor w) → imageReportable w img.

(** The report map after the loop of [createReport]. *)
Definition finalReport (w : World) : gmap string ReportImageRecord :=
foldl (reportStep w) (Images (ph_ImagesReport (w_phase w)))
      (c_images (w_conveyor w)).

(** The condition under which [createReport] writes the file. *)
Definition reportWritten (phase : BuildPhase) : bool :=
negb (bool_decide (ph_ReportPath phase = "")) &&
bool_decide (ph_ReportFormat phase = ReportJSON).

End Phase.

Arguments World : clear implicits.
Arguments StageMethods : clear implicits.
Arguments StagesStorage : clear implicits.
Arguments StorageManager : clear implicits.
Arguments StorageLockManager : clear implicits.
Arguments Runtime : clear implicits.
Arguments Host : clear implicits.

(** *** Vocabulary of the further properties *)

(** What the helpers around a build record: log lines, the fetch of a base
    image or of a stage, the preparation of an image, an introspection. *)
Definition isQuietEvent (e : Event) : bool :=
match e with
| EvLog _ _ | EvIntrospect _ _ | EvFetchBaseImage _ _ | EvFetchStage _ _
| EvPrepareImage _ _ _ => true
| _ => false
end.

(** What [atomicBuildStageImage] records. *)
Definition isAtomicBuildEvent (e : Event) : bool :=
match e with
| EvLog _ _ | EvPrintf _ | EvSleep _ | EvBuild _ _ _ => true
| _ => isLockEvent e || isStorageEvent e
end.

Section Frames.
Context {Ext : Type}.

(** [framed w w' evs]: from [w] to [w'] the events [evs] were recorded;
    the phase, the images, the mutexes of the digests and the fixed fields
    of the conveyor are as they were.  The stages, the stage images, their
    registry and the terminate functions may have changed. *)
Definition framed (w w' : World Ext) (evs : list Event) : Prop :=
∃ x registry funcs stages stageImages,
  w' = mkWorld x (w_trace w ++ evs)
         (mkConveyor (c_images (w_conveyor w)) registry
                     (c_stageDigestMutexes (w_conveyor w))
                     (c_projectName (w_conveyor w))
                     (c_sshAuthSock (w_conveyor w))
                     (c_Parallel (w_conveyor w))
                     (c_localGitRepo (w_conveyor w)) funcs)
         (w_phase w) stages stageImages (w_images w).

End Frames.

Section Digests.
Context {Ext : Type} {HO : Host Ext}.

(** [digestFrom w prev name deps evs v]: [v] is the hash of the cache
    version, [name], [deps] and, when there is a previous stage, its
    digest in [w] and the next-stage dependencies it answered in [evs]. *)
Definition digestFrom
  (w : World Ext) (prev : option ref) (name deps : string)
  (evs : list Event) (v : string) : Prop :=
match prev with
| None => v = util_Sha3_224Hash [image_BuildCacheVersion; name; deps]
| Some p =>
    ∃ s next,
      w_stages w !! p = Some s ∧
      EvGetNextStageDependencies p (Success next) ∈ evs ∧
      v = util_Sha3_224Hash
            [image_BuildCacheVersion; name; deps; stg_digest s; next]
end.

End Digests.

End Build.

(** *** byteCountBinary

    The function of the sources behind the [byteCountBinary] the log
    helpers call. *)

Module ByteCount.
Import Go Build.

(** [int64] arithmetic wraps around. *)
Definition int64 (z : Z) : Z := ((z + 2 ^ 63) `mod` 2 ^ 64 - 2 ^ 63)%Z.

Definition unit : Z := 1024.

(** The loop [for n := b / unit; n >= unit; n /= unit], entered with the
    current [n], [div] and [exp]. *)
Equations? loop (n div : Z) (exp : nat) : Z * nat by wf (Z.to_nat n) lt :=
  loop n div exp with decide (unit <= n)%Z => {
    | left _ := loop (n `quot` unit) (int64 (div * unit)) (S exp);
    | right _ := (div, exp) }.
Proof.
  unfold unit in *.
  assert (0 <= n `quot` 1024 < n)%Z; [|lia].
  split; [apply Z.quot_pos; lia|apply Z.quot_lt; lia].
Qed.

Section Format.
(** [fmt.Sprintf("%.1f", float64(b)/float64(div))]. *)
Variable fmt_Sprintf_1f : Z -> Z -> string.

Definition byteCountBinary (b : Z) : Outcome string :=
if decide (b < unit)%Z
then Ok (pretty b +:+ " B")
else
  let '(div, exp) := loop (b `quot` unit) unit 0 in
  match String.get exp "KMGTPE" with
  | Some c => Ok (fmt_Sprintf_1f b div +:+ " " +:+ String c "iB")
  | None => Panic "runtime error: index out of range"
  end.

End Format.

End ByteCount.

(** ** A scenario: one project, its collaborators and a flaky registry *)

Module Scenario.
Import Go Build.

(** The collaborators' state: whether the stages storage already holds a
    suitable stage for the digest asked about. *)
Definition Ext : Type := bool.

Definition storedDesc : StageDescription :=
mkStageDescription (mkStageID "d1" 1)
                   (mkInfo "repo:d1-1" "repo" "d1-1" "sha256:aa" 10).

Definition builtDesc : StageDescription :=
mkStageDescription (mkStageID "d1" 7)
                   (mkInfo "repo:d1-7" "repo" "d1-7" "sha256:bb" 12).

#[export] Instance stages : StageMethods Ext := {|
  stage_FetchDependencies w _ := (None, w_ext w);
  stage_GetDependencies w _ _ _ := (Success "deps", w_ext w);
  stage_GetNextStageDependencies w _ := (Success "next", w_ext w);
  stage_PrepareImage w _ _ _ := (None, w_ext w);
  stage_PreRunHook w _ := (None, w_ext w) |}.

#[export] Instance storage : StagesStorage Ext := {|
  storage_StoreImage w _ := (None, w_ext w);
  storage_GetStageDescription w _ _ _ := (Success (Some builtDesc), w_ext w);
  storage_AddManagedImage w _ _ := (None, w_ext w);
  storage_IsImageMetadataExist w _ _ _ _ := (Success false, w_ext w);
  storage_PutImageMetadata w _ _ _ _ := (None, w_ext w);
  storage_String _ := ":local" |}.

#[export] Instance manager : StorageManager Ext := {|
  manager_GetStagesByDigest (w : World Ext) _ _ :=
    (Success (if w_ext w then [storedDesc] else []), w_ext w);
  manager_SelectSuitableStage (w : World Ext) _ _ :=
    (Success (if w_ext w then Some storedDesc else None), w_ext w);
  manager_FetchStage w _ := (None, w_ext w);
  manager_GenerateStageUniqueID w _ _ := (("repo:d1-7", 7%Z), w_ext w);
  manager_AtomicStoreStagesByDigestToCache w _ _ _ := (None, w_ext w) |}.

#[export] Instance locker : StorageLockManager Ext := {|
  locker_LockStage w _ _ := (Success 1, w_ext w);
  locker_Unlock w _ := (None, w_ext w) |}.

#[export] Instance runtime : Runtime Ext := {|
  image_Build w _ _ := (None, w_ext w);
  image_Introspect w _ := (None, w_ext w);
  image_GetBuiltId _ _ := "sha256:bb";
  container_UserCommitChanges _ _ := [];
  container_UserRunCommands _ _ := [];
  stapel_GetOrCreateContainer w := (Success "stapel", w_ext w);
  iterator_GetPrevImage _ _ _ := IfaceNil;
  iterator_GetPrevBuiltImage _ _ _ := IfaceNil;
  img_FetchBaseImage w _ := (None, w_ext w);
  img_SetupBaseImage w _ := w_ext w;
  img_baseImageName _ _ := "alpine";
  img_GetStageID _ _ := "d1-1";
  repo_HeadCommit w _ := (Success "c0ffee", w_ext w) |}.

(** The hash and the JSON encoder are stand-ins: the arguments joined by a
    bar, and the sorted names of the report. *)
#[export] Instance host : Host Ext := {|
  os_Getenv _ _ := "";
  fmt_Sscanf_d _ := 0%Z;
  runtime_GOOS := "linux";
  uuid_New w := ("uuid-1", w_ext w);
  ioutil_WriteFile w _ _ _ := (None, w_ext w);
  json_MarshalIndent r prefix indent :=
    Success (String.concat "," (fst <$> map_to_list (Images r)));
  strconv_Quote s := dq +:+ s +:+ dq;
  util_Sha3_224Hash args := String.concat "|" args;
  image_BuildCacheVersion := "1.2";
  werf_Version := "dev";
  image_ParseRepositoryAndTag s := (s, "latest");
  stringid_TruncateID s := s;
  info_GetCreatedAt _ := "now";
  byteCountBinary _ := "10 B";
  logboek_FitText s _ := s |}.

Definition app : Image :=
mkImage "app" "app" "image app" false false (Some 0) "".
Definition tools : Image :=
mkImage "tools" "tools" "artifact tools" true false (Some 0) "".

Definition install : Stage :=
mkStage "install" "app/install" false "d1" "" (Some 0).

(** The image of a stage about to be built, and the image of a stage
    found in the storage. *)
Definition installImage : StageImage :=
mkStageImage "uuid-1" None None [] [] [] [].
Definition storedImage : StageImage :=
mkStageImage "repo:d1-1" None (Some storedDesc) [] [] [] [].

Definition conveyor : Conveyor :=
mkConveyor [0; 1] {["uuid-1" := 0]} ∅ "demo" "" false None [].

Definition options (shouldBeBuilt : bool) : BuildPhaseOptions :=
mkBuildPhaseOptions (mkBuildOptions "" (mkIntrospectOptions []) "" "" false)
                    shouldBeBuilt.

Definition phase (shouldBeBuilt : bool) : BuildPhase :=
withStagesIterator (Some NewStagesIterator) (NewBuildPhase (options shouldBeBuilt)).

(** A project with image [app] and artifact [tools], stage [install] of
    [app] about to be handled. *)
Definition world (stored shouldBeBuilt : bool) : World Ext :=
mkWorld stored [] conveyor (phase shouldBeBuilt)
        {[0 := install]} {[0 := installImage]} {[0 := app; 1 := tools]}.

(** The project after all its stages were handled, [install] being the
    last stage of both images and found in the storage. *)
Definition builtWorld (reportPath : string) (reportFormat : ReportFormat)
  : World Ext :=
mkWorld true [] conveyor
        (mkBuildPhase (options false)
                      (Some (mkStagesIterator (Some 0) (Some 0))) true
                      (mkImagesReport ∅) reportPath reportFormat)
        {[0 := install]} {[0 := storedImage]} {[0 := app; 1 := tools]}.

(** A storage manager that lists a stage for the digest and finds it
    unsuitable, whatever the state of the storage. *)
Definition pickyManager : StorageManager Ext := {|
  manager_GetStagesByDigest (w : World Ext) _ _ :=
    (Success [storedDesc], w_ext w);
  manager_SelectSuitableStage (w : World Ext) _ _ := (Success None, w_ext w);
  manager_FetchStage w _ := (None, w_ext w);
  manager_GenerateStageUniqueID w _ _ := (("repo:d1-7", 7%Z), w_ext w);
  manager_AtomicStoreStagesByDigestToCache w _ _ _ := (None, w_ext w) |}.

(** The built project checked out from a local git repository. *)
Definition repoWorld : World Ext :=
mkWorld true []
        (mkConveyor [0; 1] {["uuid-1" := 0]} ∅ "demo" "" false (Some 0) [])
        (mkBuildPhase (options false)
                      (Some (mkStagesIterator (Some 0) (Some 0))) true
                      (mkImagesReport ∅) "" "")
        {[0 := install]} {[0 := storedImage]} {[0 := app; 1 := tools]}.

(** Options that ask for a JSON report, and the built project with the
    phase [NewBuildPhase] makes from them. *)
Definition reportOptions : BuildPhaseOptions :=
mkBuildPhaseOptions
  (mkBuildOptions "" (mkIntrospectOptions []) "/tmp/report.json" ReportJSON false)
  false.

Definition reportWorld : World Ext :=
mkWorld true [] conveyor
        (withStagesIterator (Some (mkStagesIterator (Some 0) (Some 0)))
                            (NewBuildPhase reportOptions))
        {[0 := install]} {[0 := storedImage]} {[0 := app; 1 := tools]}.

(** A registry that always answers with a TLS timeout, and a random source
    that counts up. *)
Definition flakyPull (args : list string) (x : nat) : error * nat :=
(Some "net/http: TLS handshake timeout", x).
Definition flakyPush (args : list string) (x : nat) : error * nat :=
(Some "unauthorized: authentication required", x).
Definition draw (x : nat) : nat * nat := (x, S x).

End Scenario.

Module MoreScenarios.
Import Go Build Scenario.

(** A container runtime whose builds fail. *)
Definition brokenRuntime : Runtime Ext := {|
  image_Build w _ _ := (Some "exit status 1", w_ext w);
  image_Introspect w _ := (None, w_ext w);
  image_GetBuiltId _ _ := "";
  container_UserCommitChanges _ _ := [];
  container_UserRunCommands _ _ := [];
  stapel_GetOrCreateContainer w := (Success "stapel", w_ext w);
  iterator_GetPrevImage _ _ _ := IfaceNil;
  iterator_GetPrevBuiltImage _ _ _ := IfaceNil;
  img_FetchBaseImage w _ := (None, w_ext w);
  img_SetupBaseImage w _ := w_ext w;
  img_baseImageName _ _ := "alpine";
  img_GetStageID _ _ := "d1-1";
  repo_HeadCommit w _ := (Success "c0ffee", w_ext w) |}.

(** The project while stage [install] of [app] is handled after a stage
    that was not empty; [stored] tells whether the storage holds a suitable
    stage. *)
Definition handledWorld (stored : bool) : World Ext :=
mkWorld stored [] conveyor
        (mkBuildPhase (options false)
                      (Some (mkStagesIterator (Some 0) (Some 0))) false
                      (mkImagesReport ∅) "" "")
        {[0 := install]} {[0 := installImage]} {[0 := app; 1 := tools]}.

(** A registry that answers every push with a gateway timeout. *)
Definition timeoutPush (args : list string) (x : nat) : error * nat :=
(Some "received unexpected HTTP status: 504 Gateway Time-out", x).

End MoreScenarios.

(** ** Facts about the retry loops *)

Module DockerFacts.
Import Go Docker.

Section RetryFacts.
Context {Ext : Type}.
Variable doCliPull : list string -> Ext -> error * Ext.
Variable doCliPush : list string -> Ext -> error * Ext.
Variable rand_draw : Ext -> nat * Ext.

Abbreviation World := (@World Ext).
Abbreviation tryPull := (tryPull doCliPull rand_draw).
Abbreviation tryPush := (tryPush doCliPush rand_draw).

Lemma rand_Intn_range n w :
  (0 < n)%nat → ((rand_Intn rand_draw n w).1 < n)%nat ∧
          trace (rand_Intn rand_draw n w).2 = trace w.
Proof.
  intros Hn. unfold rand_Intn. destruct (rand_draw (ext w)) as [r x]. simpl.
  split; [|done]. apply Nat.mod_upper_bound. lia.
Qed.

Lemma cliPull_trace args w :
  trace (cliPull doCliPull args w).2 = (trace w ++ [EvPull args])%list.
Proof. unfold cliPull. by destruct (doCliPull args (ext w)). Qed.

Lemma cliPush_trace args w :
  trace (cliPush doCliPush args w).2 = (trace w ++ [EvPush args])%list.
Proof. unfold cliPush. by destruct (doCliPush args (ext w)). Qed.

Lemma retryEvents_done max attempt isCall e :
  isCall e = true → isSleep e = None → retryEvents max attempt isCall [e].
Proof.
  intros Hc Hs. unfold retryEvents, sleeps. cbn. rewrite Hc, Hs. cbn.
  split; [constructor|]. split; [lia|done].
Qed.

Lemma retryEvents_retry max attempt isCall e msg s evs :
  (attempt < max)%nat →
  isCall e = true → isSleep e = None →
  isCall msg = false → isSleep msg = None →
  isCall (EvSleep s) = false → (15 ≤ s ≤ 29)%nat →
  retryEvents max (S attempt) isCall evs →
  retryEvents max attempt isCall (e :: msg :: EvSleep s :: evs).
Proof.
  intros Hlt Hc Hs Hmc Hms Hsc Hrange (Hall & Hlen & Hcalls).
  unfold retryEvents, sleeps in *. cbn. rewrite Hc, Hs, Hmc, Hms, Hsc. cbn.
  split; [by constructor|]. split; [lia|]. by rewrite Hcalls.
Qed.

Lemma tryPull_events attempt args w :
  ∃ evs, trace (tryPull attempt args w).2 = (trace w ++ evs)%list ∧
         retryEvents cliPullMaxAttempts attempt isPull evs.
Proof.
  funelim (tryPull attempt args w); clear Heqcall.
  1,2,4: exists [EvPull args]; split;
    [by rewrite <- (cliPull_trace args w), Heq1 || by rewrite <- (cliPull_trace args w), Heq0
      || by rewrite <- (cliPull_trace args w), Heq
    |by apply retryEvents_done].
  destruct (rand_Intn_range (30 - 15) w1) as [Hr Ht]; [lia|].
  destruct (rand_Intn rand_draw (30 - 15) w1) as [r w2]. simpl in Hr, Ht.
  destruct (H r w2) as (evs & Htr & Hev).
  exists (EvPull args :: EvWarn (pullRetryMsg (r + 15) (S attempt)) ::
          EvSleep (r + 15) :: evs).
  split.
  - rewrite Htr. simpl. rewrite Ht.
    pose proof (cliPull_trace args w) as Hp. rewrite Heq1 in Hp. simpl in Hp.
    rewrite Hp, <- !app_assoc. done.
  - apply retryEvents_retry; try done. lia.
Qed.

Lemma tryPush_events attempt args w :
  ∃ evs, trace (tryPush attempt args w).2 = (trace w ++ evs)%list ∧
         retryEvents cliPushMaxAttempts attempt isPush evs.
Proof.
  funelim (tryPush attempt args w); clear Heqcall.
  1,2,4: exists [EvPush args]; split;
    [by rewrite <- (cliPush_trace args w), Heq1 || by rewrite <- (cliPush_trace args w), Heq0
      || by rewrite <- (cliPush_trace args w), Heq
    |by apply retryEvents_done].
  destruct (rand_Intn_range (30 - 15) w1) as [Hr Ht]; [lia|].
  destruct (rand_Intn rand_draw (30 - 15) w1) as [r w2]. simpl in Hr, Ht.
  destruct (H r w2) as (evs & Htr & Hev).
  exists (EvPush args :: EvErrWrite (pushRetryMsg (r + 15) (S attempt)) ::
          EvSleep (r + 15) :: evs).
  split.
  - rewrite Htr. simpl. rewrite Ht.
    pose proof (cliPush_trace args w) as Hp. rewrite Heq1 in Hp. simpl in Hp.
    rewrite Hp, <- !app_assoc. done.
  - apply retryEvents_retry; try done. lia.
Qed.





End RetryFacts.

Section RetryFacts2.
Context {Ext : Type}.
Variable doCliPull : list string -> Ext -> error * Ext.
Variable doCliPush : list string -> Ext -> error * Ext.
Variable rand_draw : Ext -> nat * Ext.

Abbreviation World := (@World Ext).
Abbreviation tryPull := (tryPull doCliPull rand_draw).
Abbreviation tryPush := (tryPush doCliPush rand_draw).

Lemma sleeps_budget (l : list nat) :
  Forall (fun s : nat => (15 <= s <= 29)%nat) l →
  (15 * length l <= sum_list l <= 29 * length l)%nat.
Proof.
  induction 1 as [|s l Hs _ IH]; simpl; lia.
Qed.

Lemma tryPull_exhausts attempt args w :
  (∀ x, ∃ e, (doCliPull args x).1 = Some e ∧
             matchSpecificError e pullSpecificErrors ≠ None) →
  (attempt <= cliPullMaxAttempts)%nat →
  ∃ evs, trace (tryPull attempt args w).2 = (trace w ++ evs)%list ∧
         length (sleeps evs) = (cliPullMaxAttempts - attempt)%nat ∧
         pulls evs = S (cliPullMaxAttempts - attempt) ∧
         (tryPull attempt args w).1 ≠ None.
Proof.
  intros Hfail.
  funelim (tryPull attempt args w); intros Hle; clear Heqcall.
  all: match goal with
       | Hc : cliPull _ _ _ = (_, _) |- _ =>
           pose proof (cliPull_trace doCliPull args w) as Hpt;
           rewrite Hc in Hpt; simpl in Hpt;
           destruct (Hfail (ext w)) as (e' & He' & Hm');
           unfold cliPull in Hc;
           destruct (doCliPull args (ext w)) as [o' x'];
           simpl in He'; subst o'; injection Hc as Herr Hw
       end.
  all: try discriminate Herr.
  all: subst.
  all: try congruence.
  - exists [EvPull args]. unfold cliPullMaxAttempts in *.
    split; [done|]. split; [cbn; lia|]. split; [cbn; lia|done].
  - destruct (rand_Intn_range rand_draw (30 - 15)
                (mkWorld x' (trace w ++ [EvPull args]))) as [Hr Ht]; [lia|].
    destruct (rand_Intn rand_draw (30 - 15) _) as [r w2]. simpl in Hr, Ht.
    edestruct (H r w2) as (evs & Htr & Hs & Hp & Hres);
      [first [exact Hfail | lia]..|].
    exists (EvPull args :: EvWarn (pullRetryMsg (r + 15) (S attempt)) ::
            EvSleep (r + 15) :: evs).
    split; [|split; [|split; [|done]]].
    + rewrite Htr. simpl. rewrite Ht. simpl. rewrite <- !app_assoc. done.
    + unfold sleeps, cliPullMaxAttempts, cliPushMaxAttempts in *. cbn. rewrite Hs. lia.
    + unfold pulls, cliPullMaxAttempts in *. cbn. rewrite Hp. lia.
Qed.

Lemma tryPush_exhausts attempt args w :
  (∀ x, ∃ e, (doCliPush args x).1 = Some e ∧
             matchSpecificError e pushSpecificErrors ≠ None) →
  (attempt <= cliPushMaxAttempts)%nat →
  ∃ evs, trace (tryPush attempt args w).2 = (trace w ++ evs)%list ∧
         length (sleeps evs) = (cliPushMaxAttempts - attempt)%nat ∧
         pushes evs = S (cliPushMaxAttempts - attempt) ∧
         (tryPush attempt args w).1 ≠ None.
Proof.
  intros Hfail.
  funelim (tryPush attempt args w); intros Hle; clear Heqcall.
  all: match goal with
       | Hc : cliPush _ _ _ = (_, _) |- _ =>
           pose proof (cliPush_trace doCliPush args w) as Hpt;
           rewrite Hc in Hpt; simpl in Hpt;
           destruct (Hfail (ext w)) as (e' & He' & Hm');
           unfold cliPush in Hc;
           destruct (doCliPush args (ext w)) as [o' x'];
           simpl in He'; subst o'; injection Hc as Herr Hw
       end.
  all: try discriminate Herr.
  all: subst.
  all: try congruence.
  - exists [EvPush args]. unfold cliPushMaxAttempts in *.
    split; [done|]. split; [cbn; lia|]. split; [cbn; lia|done].
  - destruct (rand_Intn_range rand_draw (30 - 15)
                (mkWorld x' (trace w ++ [EvPush args]))) as [Hr Ht]; [lia|].
    destruct (rand_Intn rand_draw (30 - 15) _) as [r w2]. simpl in Hr, Ht.
    edestruct (H r w2) as (evs & Htr & Hs & Hp & Hres);
      [first [exact Hfail | lia]..|].
    exists (EvPush args :: EvErrWrite (pushRetryMsg (r + 15) (S attempt)) ::
            EvSleep (r + 15) :: evs).
    split; [|split; [|split; [|done]]].
    + rewrite Htr. simpl. rewrite Ht. simpl. rewrite <- !app_assoc. done.
    + unfold sleeps, cliPullMaxAttempts, cliPushMaxAttempts in *. cbn. rewrite Hs. lia.
    + unfold pushes, cliPushMaxAttempts in *. cbn. rewrite Hp. lia.
Qed.
End RetryFacts2.

Section MoreRetryFacts.
Context {Ext : Type}.
Variable doCliPull : list string -> Ext -> error * Ext.
Variable doCliPush : list string -> Ext -> error * Ext.
Variable rand_draw : Ext -> nat * Ext.

Abbreviation World := (@World Ext).
Abbreviation tryPull := (tryPull doCliPull rand_draw).
Abbreviation tryPush := (tryPush doCliPush rand_draw).

(** X14: the retry loops wait a bounded time: a pull sleeps at most 145
    seconds in all and a push at most 290, and each retry costs at least
    15 seconds. *)
Theorem retries_sleep_budget args w :
  (15 * length (sleeps (newEvents w (doCliPullWithRetries doCliPull rand_draw args w).2))
   <= sum_list (sleeps (newEvents w (doCliPullWithRetries doCliPull rand_draw args w).2))
   <= 145)%nat ∧
  (15 * length (sleeps (newEvents w (doCliPushWithRetries doCliPush rand_draw args w).2))
   <= sum_list (sleeps (newEvents w (doCliPushWithRetries doCliPush rand_draw args w).2))
   <= 290)%nat.
Proof.
  unfold doCliPullWithRetries, doCliPushWithRetries, newEvents.
  split.
  - destruct (tryPull_events doCliPull rand_draw 0 args w)
      as (evs & -> & Hall & Hlen & _).
    rewrite drop_app_length.
    pose proof (sleeps_budget _ Hall). unfold cliPullMaxAttempts in Hlen. lia.
  - destruct (tryPush_events doCliPush rand_draw 0 args w)
      as (evs & -> & Hall & Hlen & _).
    rewrite drop_app_length.
    pose proof (sleeps_budget _ Hall). unfold cliPushMaxAttempts in Hlen. lia.
Qed.

(** X15: against a registry that answers every command with one of the
    listed errors, a pull runs the command 6 times with 5 sleeps between
    and a push 11 times with 10 sleeps, and both return an error. *)
Theorem retries_exhausted args w :
  ((∀ x, ∃ e, (doCliPull args x).1 = Some e ∧
              matchSpecificError e pullSpecificErrors ≠ None) →
   pulls (newEvents w (doCliPullWithRetries doCliPull rand_draw args w).2) = 6 ∧
   length (sleeps (newEvents w (doCliPullWithRetries doCliPull rand_draw args w).2))
     = 5 ∧
   (doCliPullWithRetries doCliPull rand_draw args w).1 ≠ None) ∧
  ((∀ x, ∃ e, (doCliPush args x).1 = Some e ∧
              matchSpecificError e pushSpecificErrors ≠ None) →
   pushes (newEvents w (doCliPushWithRetries doCliPush rand_draw args w).2) = 11 ∧
   length (sleeps (newEvents w (doCliPushWithRetries doCliPush rand_draw args w).2))
     = 10 ∧
   (doCliPushWithRetries doCliPush rand_draw args w).1 ≠ None).
Proof.
  unfold doCliPullWithRetries, doCliPushWithRetries, newEvents.
  split; intros Hfail.
  - destruct (tryPull_exhausts doCliPull rand_draw 0 args w Hfail)
      as (evs & Ht & Hs & Hp & Hres); [unfold cliPullMaxAttempts; lia|].
    rewrite Ht, drop_app_length. done.
  - destruct (tryPush_exhausts doCliPush rand_draw 0 args w Hfail)
      as (evs & Ht & Hs & Hp & Hres); [unfold cliPushMaxAttempts; lia|].
    rewrite Ht, drop_app_length. done.
Qed.
End MoreRetryFacts.

End DockerFacts.

(** ** Facts about the build phase *)

Module BuildFacts.
Import Go Build.

(** *** Rules of the run predicate *)

Section Rules.
Context {Ext : Type}.
Context {SM : StageMethods Ext} {SS : StagesStorage Ext} {MG : StorageManager Ext}
        {LM : StorageLockManager Ext} {RT : Runtime Ext} {HO : Host Ext}.
#[local] Existing Instance M_ret.
#[local] Existing Instance M_bind.

Abbreviation M := (@M Ext).
Abbreviation World := (World Ext).
Abbreviation Post A := (Outcome A → World → list Event → Prop).
Implicit Types (w : World).

Lemma twp_run {A} (m : M A) w Q o w' evs :
  twp m w Q → m w = (o, w') → w_trace w' = (w_trace w ++ evs)%list → Q o w' evs.
Proof.
  intros (evs' & Ht & HQ) Hrun Hevs. rewrite Hrun in Ht, HQ. simpl in *.
  rewrite Ht in Hevs. apply app_inv_head in Hevs. by subst.
Qed.

Lemma twp_mono {A} (m : M A) w (Q Q' : Outcome A → World → list Event → Prop) :
  twp m w Q → (∀ o w' evs, Q o w' evs → Q' o w' evs) → twp m w Q'.
Proof. intros (evs & Ht & HQ) H. exists evs. eauto. Qed.

Lemma twp_pure {A} (m : M A) w Q o :
  m w = (o, w) → Q o w [] → twp m w Q.
Proof. intros Hm HQ. exists []. rewrite Hm, app_nil_r. done. Qed.

Lemma twp_ret {A} (a : A) w Q : Q (Ok a) w [] → twp (mret a) w Q.
Proof. by apply twp_pure. Qed.

Lemma twp_bind {A B} (m : M A) (f : A → M B) w Q :
  twp m w (after f Q) → twp (m ≫= f) w Q.
Proof.
  intros (evs1 & Ht & HQ). unfold twp, mbind, M_bind in *.
  destruct (m w) as [[a|e|msg|] w1]; simpl in *; [|by exists evs1..].
  destruct HQ as (evs2 & Ht2 & HQ). exists (evs1 ++ evs2)%list.
  rewrite Ht2, Ht, app_assoc. done.
Qed.

(** A first part without events: the continuation keeps its own list. *)
Lemma twp_bind_pure {A B} (m : M A) (f : A → M B) w Q o :
  m w = (o, w) →
  match o with
  | Ok a => twp (f a) w Q
  | Err e => Q (Err e) w []
  | Panic msg => Q (Panic msg) w []
  | Blocked => Q Blocked w []
  end →
  twp (m ≫= f) w Q.
Proof.
  intros Hm H. unfold twp, mbind, M_bind. rewrite Hm.
  destruct o; simpl; try (exists []; by rewrite app_nil_r). exact H.
Qed.

Lemma twp_get w Q : Q (Ok w) w [] → twp get w Q.
Proof. by apply twp_pure. Qed.

Lemma twp_read {A} (f : World → A) w Q :
  (∀ a, a = f w → Q (Ok a) w []) → twp (read f) w Q.
Proof. intros H. eapply twp_pure; [done|]. by apply H. Qed.

Lemma twp_fail {A} e w (Q : Post A) : Q (Err e) w [] → twp (fail e) w Q.
Proof. by apply twp_pure. Qed.

Lemma twp_panic {A} e w (Q : Post A) : Q (Panic e) w [] → twp (panic e) w Q.
Proof. by apply twp_pure. Qed.

Lemma twp_block {A} w (Q : Post A) : Q Blocked w [] → twp block w Q.
Proof. by apply twp_pure. Qed.

Lemma twp_modify f w Q :
  w_trace (f w) = w_trace w → Q (Ok tt) (f w) [] → twp (modify f) w Q.
Proof. intros Hf HQ. exists []. simpl. by rewrite app_nil_r. Qed.

Lemma twp_emit e w Q :
  Q (Ok tt) (add_event e w) [e] → twp (modify (add_event e)) w Q.
Proof. intros HQ. by exists [e]. Qed.

Lemma twp_log l msg w Q :
  Q (Ok tt) (add_event (EvLog l msg) w) [EvLog l msg] → twp (log l msg) w Q.
Proof. apply twp_emit. Qed.

Lemma twp_printf msg w Q :
  Q (Ok tt) (add_event (EvPrintf msg) w) [EvPrintf msg] → twp (printf msg) w Q.
Proof. apply twp_emit. Qed.

Lemma twp_sleep n w Q :
  Q (Ok tt) (add_event (EvSleep n) w) [EvSleep n] → twp (sleep n) w Q.
Proof. apply twp_emit. Qed.

Lemma twp_call {R} (ev : R → Event) f w Q :
  (∀ r x, f w = (r, x) → Q (Ok r) (set_ext x (add_event (ev r) w)) [ev r]) →
  twp (call ev f) w Q.
Proof.
  intros H. unfold twp, call. destruct (f w) as [r x] eqn:E.
  exists [ev r]. split; [done|]. by apply H.
Qed.

Lemma twp_callErr ev f w Q :
  (∀ x, f w = (None, x) → Q (Ok tt) (set_ext x (add_event (ev None) w)) [ev None]) →
  (∀ e x, f w = (Some e, x) →
     Q (Err e) (set_ext x (add_event (ev (Some e)) w)) [ev (Some e)]) →
  twp (callErr ev f) w Q.
Proof.
  intros H1 H2. apply twp_bind, twp_call. intros [e|] x E; simpl.
  - apply twp_fail. simpl. eauto.
  - apply twp_ret. simpl. eauto.
Qed.

Lemma twp_callRes {R} (ev : Result R → Event) f w Q :
  (∀ v x, f w = (Success v, x) →
     Q (Ok v) (set_ext x (add_event (ev (Success v)) w)) [ev (Success v)]) →
  (∀ e x, f w = (Failure e, x) →
     Q (Err e) (set_ext x (add_event (ev (Failure e)) w)) [ev (Failure e)]) →
  twp (callRes ev f) w Q.
Proof.
  intros H1 H2. apply twp_bind, twp_call. intros [v|e] x E; simpl.
  - apply twp_ret. simpl. eauto.
  - apply twp_fail. simpl. eauto.
Qed.

Lemma twp_try {A} (m : M A) w Q :
  twp m w (fun o w1 evs =>
             match o with
             | Ok a => Q (Ok (Success a)) w1 evs
             | Err e => Q (Ok (Failure e)) w1 evs
             | Panic msg => Q (Panic msg) w1 evs
             | Blocked => Q Blocked w1 evs
             end) →
  twp (try m) w Q.
Proof.
  intros (evs & Ht & HQ). unfold twp, try in *.
  destruct (m w) as [[a|e|msg|] w1]; by exists evs.
Qed.

Lemma twp_wrapErr {A} g (m : M A) w Q :
  twp m w (fun o w1 evs =>
             match o with
             | Err e => Q (Err (g e)) w1 evs
             | _ => Q o w1 evs
             end) →
  twp (wrapErr g m) w Q.
Proof.
  intros (evs & Ht & HQ). unfold twp, wrapErr in *.
  destruct (m w) as [[a|e|msg|] w1]; by exists evs.
Qed.

Lemma twp_defer {A} d (body : M A) w Q :
  twp body w (fun o w1 evs1 =>
                match o with
                | Blocked => Q Blocked w1 evs1
                | _ => twp d w1 (fun od w2 evs2 =>
                         match od with
                         | Panic msg => Q (Panic msg) w2 (evs1 ++ evs2)%list
                         | Blocked => Q Blocked w2 (evs1 ++ evs2)%list
                         | _ => Q o w2 (evs1 ++ evs2)%list
                         end)
                end) →
  twp (defer d body) w Q.
Proof.
  intros (evs1 & Ht & HQ). unfold twp, defer in *.
  destruct (body w) as [[a|e|msg|] w1]; simpl in *; [| | |by exists evs1].
  all: destruct HQ as (evs2 & Ht2 & HQ); exists (evs1 ++ evs2)%list;
    rewrite app_assoc, <- Ht;
    destruct (d w1) as [[[]|?|?|] w2]; simpl in *; done.
Qed.

Lemma twp_when (b : bool) m w (Q : Post unit) :
  (if b then twp m w Q else Q (Ok tt) w []) → twp (when b m) w Q.
Proof. destruct b; simpl; [done|apply twp_ret]. Qed.

(** *** Derived rules: heap access *)

Lemma twp_derefStage stg w (Q : Post Stage) :
  match w_stages w !! stg with
  | Some s => Q (Ok s) w []
  | None => Q (Panic nilDeref) w []
  end →
  twp (derefStage stg) w Q.
Proof.
  intros H. unfold derefStage. apply twp_bind, twp_get.
  unfold after. destruct (w_stages w !! stg); by eapply twp_pure.
Qed.

Lemma twp_stageField {A} (g : Stage → A) stg w (Q : Post A) :
  match w_stages w !! stg with
  | Some s => Q (Ok (g s)) w []
  | None => Q (Panic nilDeref) w []
  end →
  twp (s ← derefStage stg; mret (g s)) w Q.
Proof.
  intros H. apply twp_bind, twp_derefStage.
  destruct (w_stages w !! stg); [|done]. by apply twp_ret.
Qed.

Lemma twp_updStage stg f w (Q : Post unit) :
  match w_stages w !! stg with
  | Some s => Q (Ok tt) (set_stages (<[stg := f s]> (w_stages w)) w) []
  | None => Q (Panic nilDeref) w []
  end →
  twp (updStage stg f) w Q.
Proof.
  intros H. apply twp_bind, twp_derefStage.
  destruct (w_stages w !! stg); [|done]. by apply twp_modify.
Qed.

(** The world after the collaborators moved to [x] and [evs] were recorded. *)
Lemma advance_intro x evs w w' :
  w_ext w' = x → w_trace w' = (w_trace w ++ evs)%list →
  w_conveyor w' = w_conveyor w → w_phase w' = w_phase w →
  w_stages w' = w_stages w → w_stageImages w' = w_stageImages w →
  w_images w' = w_images w →
  w' = advance x evs w.
Proof. destruct w'; simpl; intros; subst; reflexivity. Qed.

Lemma twp_derefStageImage p w (Q : Post StageImage) :
  match heapAt w p with
  | Some (_, i) => Q (Ok i) w []
  | None => Q (Panic nilDeref) w []
  end →
  twp (derefStageImage p) w Q.
Proof.
  intros H. unfold derefStageImage. apply twp_bind, twp_get. unfold after.
  unfold heapAt in H. destruct p as [r|]; simpl in *;
    [destruct (w_stageImages w !! r)|]; by eapply twp_pure.
Qed.

Lemma twp_derefPtr p w (Q : Post ref) :
  match heapAt w p with
  | Some (r, _) => Q (Ok r) w []
  | None => Q (Panic nilDeref) w []
  end →
  twp (derefPtr p) w Q.
Proof.
  intros H. apply twp_bind, twp_derefStageImage.
  unfold heapAt in *. destruct p as [r|]; simpl in *;
    [destruct (w_stageImages w !! r)|]; try done. by apply twp_ret.
Qed.

Lemma twp_imageField {A} (g : StageImage → A) p w (Q : Post A) :
  match heapAt w p with
  | Some (_, i) => Q (Ok (g i)) w []
  | None => Q (Panic nilDeref) w []
  end →
  twp (i ← derefStageImage p; mret (g i)) w Q.
Proof.
  intros H. apply twp_bind, twp_derefStageImage.
  destruct (heapAt w p) as [[]|]; [|done]. by apply twp_ret.
Qed.

Lemma twp_derefDescription p w (Q : Post StageDescription) :
  match heapAt w p with
  | Some (_, i) =>
      match si_stageDescription i with
      | Some d => Q (Ok d) w []
      | None => Q (Panic nilDeref) w []
      end
  | None => Q (Panic nilDeref) w []
  end →
  twp (derefDescription p) w Q.
Proof.
  intros H. apply twp_bind, (twp_imageField si_stageDescription).
  destruct (heapAt w p) as [[r i]|]; [|done]. simpl.
  destruct (si_stageDescription i); by eapply twp_pure.
Qed.

Lemma twp_updStageImage p f w (Q : Post unit) :
  match heapAt w p with
  | Some (r, i) =>
      Q (Ok tt) (set_stageImages (<[r := f i]> (w_stageImages w)) w) []
  | None => Q (Panic nilDeref) w []
  end →
  twp (updStageImage p f) w Q.
Proof.
  intros H. apply twp_bind, twp_derefPtr.
  destruct (heapAt w p) as [[r i]|] eqn:E; [|done]. simpl.
  apply twp_bind, twp_derefStageImage. rewrite E. by apply twp_modify.
Qed.

Lemma twp_derefImage img w (Q : Post Image) :
  match w_images w !! img with
  | Some i => Q (Ok i) w []
  | None => Q (Panic nilDeref) w []
  end →
  twp (derefImage img) w Q.
Proof.
  intros H. unfold derefImage. apply twp_bind, twp_get. unfold after.
  destruct (w_images w !! img); by eapply twp_pure.
Qed.

Lemma twp_updImage img f w (Q : Post unit) :
  match w_images w !! img with
  | Some i => Q (Ok tt) (set_images (<[img := f i]> (w_images w)) w) []
  | None => Q (Panic nilDeref) w []
  end →
  twp (updImage img f) w Q.
Proof.
  intros H. apply twp_bind, twp_derefImage.
  destruct (w_images w !! img); [|done]. by apply twp_modify.
Qed.

Lemma twp_getPhase w Q : Q (Ok (w_phase w)) w [] → twp getPhase w Q.
Proof. by apply twp_pure. Qed.

Lemma twp_getConveyor w Q : Q (Ok (w_conveyor w)) w [] → twp getConveyor w Q.
Proof. by apply twp_pure. Qed.

Lemma twp_projectName w Q :
  Q (Ok (c_projectName (w_conveyor w))) w [] → twp projectName w Q.
Proof. by apply twp_pure. Qed.

Lemma twp_getIterator w (Q : Post StagesIterator) :
  match ph_StagesIterator (w_phase w) with
  | Some it => Q (Ok it) w []
  | None => Q (Panic nilDeref) w []
  end →
  twp getIterator w Q.
Proof.
  intros H. unfold getIterator. apply twp_bind, twp_getPhase. unfold after.
  destruct (ph_StagesIterator (w_phase w)); by eapply twp_pure.
Qed.

Lemma twp_updConveyor f w Q :
  Q (Ok tt) (set_conveyor (f (w_conveyor w)) w) [] → twp (updConveyor f) w Q.
Proof. by apply twp_modify. Qed.

Lemma twp_GetPrevImage img stg w (Q : Post ImageInterface) :
  (∀ a, a = iterator_GetPrevImage w img stg → Q (Ok a) w []) →
  twp (GetPrevImage img stg) w Q.
Proof. intros H. by apply twp_read. Qed.

Lemma twp_GetPrevBuiltImage img stg w (Q : Post ImageInterface) :
  (∀ a, a = iterator_GetPrevBuiltImage w img stg → Q (Ok a) w []) →
  twp (GetPrevBuiltImage img stg) w Q.
Proof. intros H. by apply twp_read. Qed.

Lemma twp_GetStageImage name w Q :
  Q (Ok (c_stageImages (w_conveyor w) !! name)) w [] →
  twp (GetStageImage name) w Q.
Proof. by apply twp_pure. Qed.

Lemma twp_UnsetStageImage name w Q :
  Q (Ok tt)
    (set_conveyor (withStageImages (delete name (c_stageImages (w_conveyor w)))
                                   (w_conveyor w)) w) [] →
  twp (UnsetStageImage name) w Q.
Proof. by apply twp_modify. Qed.

Lemma twp_SetStageImage p w (Q : Post unit) :
  match heapAt w p with
  | Some (r, i) =>
      Q (Ok tt)
        (set_conveyor
           (withStageImages (<[si_name i := r]> (c_stageImages (w_conveyor w)))
                            (w_conveyor w)) w) []
  | None => Q (Panic nilDeref) w []
  end →
  twp (SetStageImage p) w Q.
Proof.
  intros H. apply twp_bind, twp_derefPtr.
  destruct (heapAt w p) as [[r i]|] eqn:E; [|done]. simpl.
  apply twp_bind, (twp_imageField si_name). rewrite E. by apply twp_modify.
Qed.

Lemma twp_GetOrCreateStageImage fromImage name w (Q : Post (option ref)) :
  match c_stageImages (w_conveyor w) !! name with
  | Some r => Q (Ok (Some r)) w []
  | None =>
      let r := fresh (dom (w_stageImages w)) in
      Q (Ok (Some r))
        (set_conveyor
           (withStageImages (<[name := r]> (c_stageImages (w_conveyor w)))
                            (w_conveyor w))
           (set_stageImages
              (<[r := newStageImage fromImage name]> (w_stageImages w)) w)) []
  end →
  twp (GetOrCreateStageImage fromImage name) w Q.
Proof.
  intros H. unfold GetOrCreateStageImage. apply twp_bind, twp_GetStageImage.
  unfold after. destruct (c_stageImages (w_conveyor w) !! name).
  { by apply twp_ret. }
  apply twp_bind, twp_get. unfold after.
  apply twp_bind, twp_modify; [done|]. unfold after.
  apply twp_bind, twp_SetStageImage. unfold heapAt. simpl.
  rewrite lookup_insert_eq. simpl. by apply twp_ret.
Qed.

Lemma twp_GetStageDigestMutex digest w Q :
  Q (Ok digest) w [] → twp (GetStageDigestMutex digest) w Q.
Proof. by apply twp_pure. Qed.

Lemma twp_Mutex_Lock m w (Q : Post unit) :
  (if mutexHeld w m then Q Blocked w []
   else Q (Ok tt)
          (set_conveyor
             (withMutexes (<[m := true]> (c_stageDigestMutexes (w_conveyor w)))
                          (w_conveyor w)) w) []) →
  twp (Mutex_Lock m) w Q.
Proof.
  intros H. unfold Mutex_Lock. apply twp_bind, twp_getConveyor. unfold after.
  unfold mutexHeld in H.
  destruct (c_stageDigestMutexes (w_conveyor w) !! m) as [[]|]; simpl in *;
    first [by apply twp_block | by apply twp_updConveyor].
Qed.

Lemma twp_Mutex_Unlock m w (Q : Post unit) :
  (if mutexHeld w m
   then Q (Ok tt)
          (set_conveyor
             (withMutexes (<[m := false]> (c_stageDigestMutexes (w_conveyor w)))
                          (w_conveyor w)) w) []
   else Q (Panic "fatal error: sync: unlock of unlocked mutex") w []) →
  twp (Mutex_Unlock m) w Q.
Proof.
  intros H. unfold Mutex_Unlock. apply twp_bind, twp_getConveyor. unfold after.
  unfold mutexHeld in H.
  destruct (c_stageDigestMutexes (w_conveyor w) !! m) as [[]|]; simpl in *;
    first [by apply twp_panic | by apply twp_updConveyor].
Qed.

End Rules.

(** *** Symbolic execution *)

Ltac world_eval x0 :=
  let x := eval cbv delta [heapAt mutexHeld default advance] in x0 in
  eval cbn beta iota delta [w_ext w_trace w_conveyor w_phase w_stages w_stageImages w_images
            set_ext add_event set_conveyor set_phase set_stages set_stageImages
            set_images fst snd advance
            stg_name stg_logDetailedName stg_isDockerfileStage stg_digest
            stg_contentDigest stg_image
            si_name si_fromImage si_stageDescription withName
            withStageDescription newStageImage
            c_images c_stageImages c_stageDigestMutexes c_projectName
            c_sshAuthSock c_Parallel c_localGitRepo c_onTerminateFuncs
            withStageImages withMutexes withOnTerminate
            ph_BuildPhaseOptions ph_StagesIterator ph_ShouldAddManagedImageRecord
            ph_ImagesReport ph_ReportPath ph_ReportFormat
            withShouldAddManagedImageRecord withImagesReport withStagesIterator
            PrevNonEmptyStage PrevBuiltStage negb andb orb] in x.


Ltac world_simpl :=
  cbn [w_ext w_trace w_conveyor w_phase w_stages w_stageImages w_images
       set_ext add_event set_conveyor set_phase set_stages set_stageImages
       set_images fst snd advance
       stg_name stg_logDetailedName stg_isDockerfileStage stg_digest
       stg_contentDigest stg_image
       si_name si_fromImage si_stageDescription withName
       withStageDescription newStageImage
       c_images c_stageImages c_stageDigestMutexes c_projectName
       c_sshAuthSock c_Parallel c_localGitRepo c_onTerminateFuncs
       withStageImages withMutexes withOnTerminate
       ph_BuildPhaseOptions ph_StagesIterator ph_ShouldAddManagedImageRecord
       ph_ImagesReport ph_ReportPath ph_ReportFormat
       withShouldAddManagedImageRecord withImagesReport withStagesIterator
       PrevNonEmptyStage PrevBuiltStage app].

Ltac world_simpl_in H :=
  cbn [w_ext w_trace w_conveyor w_phase w_stages w_stageImages w_images
       set_ext add_event set_conveyor set_phase set_stages set_stageImages
       set_images fst snd advance
       stg_name stg_logDetailedName stg_isDockerfileStage stg_digest
       stg_contentDigest stg_image
       si_name si_fromImage si_stageDescription withName
       withStageDescription newStageImage
       c_images c_stageImages c_stageDigestMutexes c_projectName
       c_sshAuthSock c_Parallel c_localGitRepo c_onTerminateFuncs
       withStageImages withMutexes withOnTerminate
       ph_BuildPhaseOptions ph_StagesIterator ph_ShouldAddManagedImageRecord
       ph_ImagesReport ph_ReportPath ph_ReportFormat
       withShouldAddManagedImageRecord withImagesReport withStagesIterator
       PrevNonEmptyStage PrevBuiltStage app] in H.

(** Decide the scrutinee [x] of the match at the head of the goal. *)
Ltac settle x :=
  lazymatch x with
  | match ?y with _ => _ end => settle y
  | (if ?y then _ else _) => settle y
  | negb ?y => settle y
  | default _ ?y => settle y
  | andb ?y _ => settle y
  | orb ?y _ => settle y
  | <[?k:=_]> _ !! ?k => rewrite lookup_insert_eq
  | _ =>
      first
        [ match goal with H : x = _ |- _ => rewrite H end
        | is_var x; destruct x
        | let E := fresh "E" in destruct x eqn:E ]
  end.

Ltac head_case :=
  lazymatch goal with
  | |- match ?x with _ => _ end =>
      let x' := world_eval x in
      change x with x';
      first [ is_constructor_head x' | settle x' ]
  | |- if ?x then _ else _ =>
      let x' := world_eval x in
      change x with x';
      first [ is_constructor_head x' | settle x' ]
  end
with is_constructor_head x :=
  lazymatch x with
  | Some _ => idtac | None => idtac | true => idtac | false => idtac
  | (_, _) => idtac | Ok _ => idtac | Err _ => idtac | Panic _ => idtac
  | Blocked => idtac | Success _ => idtac | Failure _ => idtac
  | IfaceNil => idtac | IfaceStageImage _ => idtac | IfaceOther _ => idtac
  end.

(** The postcondition is kept as a local definition, so that the rules do
    not copy the rest of the program. *)
Ltac world_norm W :=
  let x := world_eval (w_ext W) in
  let t := world_eval (w_trace W) in
  let c := world_eval (w_conveyor W) in
  let p := world_eval (w_phase W) in
  let s := world_eval (w_stages W) in
  let si := world_eval (w_stageImages W) in
  let im := world_eval (w_images W) in
  constr:(mkWorld x t c p s si im).

(** The world is kept in constructor form over the projections of the
    initial world, and the postcondition as a local definition, so that
    the rules do not copy the world or the rest of the program. *)
Ltac hide_post :=
  lazymatch goal with
  | |- twp ?m ?W ?Q =>
      tryif is_var W then idtac
      else (let W' := world_norm W in change (twp m W' Q))
  | _ => idtac
  end;
  lazymatch goal with
  | |- twp ?m ?W ?Q =>
      tryif is_var Q then idtac
      else (let K := fresh "K" in pose (K := Q); change (twp m W K))
  | _ => idtac
  end.

Ltac twp_rule :=
  lazymatch goal with
  | |- twp (mbind _ _) _ _ => apply twp_bind
  | |- twp (mret _) _ _ => apply twp_ret
  | |- twp get _ _ => apply twp_get
  | |- twp (read _) _ _ =>
      apply twp_read;
      let a := fresh "a" in
      let Ha := fresh "Ha" in
      intros a Ha; cbv beta in Ha;
      lazymatch type of Ha with
      | _ = img_GetStageID _ _ => idtac
      | _ => clear Ha
      end
  | |- twp (fail _) _ _ => apply twp_fail
  | |- twp (panic _) _ _ => apply twp_panic
  | |- twp block _ _ => apply twp_block
  | |- twp (log _ _) _ _ => apply twp_log
  | |- twp (printf _) _ _ => apply twp_printf
  | |- twp (sleep _) _ _ => apply twp_sleep
  | |- twp (callErr _ _) _ _ => apply twp_callErr; [intros ? _ | intros ? ? _]
  | |- twp (callRes _ _) _ _ => apply twp_callRes; intros ? ? _
  | |- twp (call _ _) _ _ => apply twp_call; intros ? ? _
  | |- twp (try _) _ _ => apply twp_try
  | |- twp (wrapErr _ _) _ _ => apply twp_wrapErr
  | |- twp (defer _ _) _ _ => apply twp_defer
  | |- twp (when _ _) _ _ => apply twp_when
  | |- twp (modify _) _ _ => apply twp_modify; [reflexivity|]
  | |- twp (derefStage _) _ _ => apply twp_derefStage
  | |- twp (Stage_Name _) _ _ => apply (twp_stageField stg_name)
  | |- twp (Stage_LogDetailedName _) _ _ => apply (twp_stageField stg_logDetailedName)
  | |- twp (Stage_GetDigest _) _ _ => apply (twp_stageField stg_digest)
  | |- twp (Stage_GetContentDigest _) _ _ => apply (twp_stageField stg_contentDigest)
  | |- twp (Stage_GetImage _) _ _ => apply (twp_stageField stg_image)
  | |- twp (Stage_SetDigest _ _) _ _ => apply twp_updStage
  | |- twp (Stage_SetContentDigest _ _) _ _ => apply twp_updStage
  | |- twp (Stage_SetImage _ _) _ _ => apply twp_updStage
  | |- twp (updStage _ _) _ _ => apply twp_updStage
  | |- twp (derefStageImage _) _ _ => apply twp_derefStageImage
  | |- twp (derefPtr _) _ _ => apply twp_derefPtr
  | |- twp (derefDescription _) _ _ => apply twp_derefDescription
  | |- twp (StageImage_Name _) _ _ => apply (twp_imageField si_name)
  | |- twp (StageImage_GetStageDescription _) _ _ =>
      apply (twp_imageField si_stageDescription)
  | |- twp (StageImage_SetName _ _) _ _ => apply twp_updStageImage
  | |- twp (StageImage_SetStageDescription _ _) _ _ => apply twp_updStageImage
  | |- twp (updStageImage _ _) _ _ => apply twp_updStageImage
  | |- twp (derefImage _) _ _ => apply twp_derefImage
  | |- twp (updImage _ _) _ _ => apply twp_updImage
  | |- twp getPhase _ _ => apply twp_getPhase
  | |- twp getConveyor _ _ => apply twp_getConveyor
  | |- twp projectName _ _ => apply twp_projectName
  | |- twp getIterator _ _ => apply twp_getIterator
  | |- twp (updConveyor _) _ _ => apply twp_updConveyor
  | |- twp (GetPrevImage _ _) _ _ => apply twp_GetPrevImage
  | |- twp (GetPrevBuiltImage _ _) _ _ => apply twp_GetPrevBuiltImage
  | |- twp (GetStageImage _) _ _ => apply twp_GetStageImage
  | |- twp (UnsetStageImage _) _ _ => apply twp_UnsetStageImage
  | |- twp (SetStageImage _) _ _ => apply twp_SetStageImage
  | |- twp (GetOrCreateStageImage _ _) _ _ => apply twp_GetOrCreateStageImage
  | |- twp (GetStageDigestMutex _) _ _ => apply twp_GetStageDigestMutex
  | |- twp (Mutex_Lock _) _ _ => apply twp_Mutex_Lock
  | |- twp (Mutex_Unlock _) _ _ => apply twp_Mutex_Unlock
  | |- twp (AppendOnTerminateFunc _) _ _ => apply twp_updConveyor
  | |- twp (castToStageImage ?x) _ _ =>
      unfold castToStageImage; first [ is_var x; destruct x | idtac ]
  | |- twp (if ?b then _ else _) _ _ =>
      let b' := world_eval b in
      change b with b';
      first [ is_constructor_head b' | settle b' ]
  | |- twp (match ?x with _ => _ end) _ _ =>
      let x' := world_eval x in
      change x with x';
      first [ is_constructor_head x' | settle x' ]
  end.

Ltac twp_step :=
  lazymatch goal with
  | |- twp _ _ _ => hide_post; twp_rule
  | |- after _ _ _ _ _ => unfold after at 1
  | |- match _ with _ => _ end => head_case
  | |- if _ then _ else _ => head_case
  | |- ∀ a, a = iterator_GetPrevImage _ _ _ → _ => intros ? ?
  | |- ∀ a, a = _ → _ => intros ? _
  | |- let _ := _ in _ => intros ?
  | |- ?K _ _ _ => is_var K; unfold K; try clear K
  end;
  cbn beta iota.

Ltac elem_inv H :=
  repeat first
    [ apply elem_of_nil in H; destruct H
    | apply elem_of_cons in H as [H|H]; [try discriminate H|] ].

Ltac elem_prove :=
  solve [ repeat first [ apply list_elem_of_here | apply list_elem_of_further ] ].

(** All the ways [H : e ∈ l] can hold for a list [l] given by its elements:
    one goal for every element that [e] can be, with the equation used. *)
Ltac elem_cases H :=
  lazymatch type of H with
  | _ ∈ [] => apply elem_of_nil in H; destruct H
  | _ ∈ _ :: _ =>
      apply elem_of_cons in H as [H|H];
      [ first [ discriminate H | simplify_eq H; intros ]
      | elem_cases H ]
  end.

(** *** calculateDigest and publishImageMetadata *)

(** [stageIDDuring]: the world the stage ID was read in has the objects of
    the initial one. *)
Ltac stage_id :=
  match goal with
  | H : ?s = img_GetStageID ?W _ |- stageIDDuring _ _ ?s =>
      exists W; split; [repeat split|exact H]
  end.

(** Substitute the equations between names, keeping those that tell where
    a stage ID was read. *)
Ltac subst_names :=
  repeat match goal with
         | H : ?x = ?y |- _ =>
             first [ is_var y; subst y
                   | is_var x;
                     lazymatch y with
                     | img_GetStageID _ _ => fail
                     | _ => subst x
                     end ]
         end.

Ltac metadata_checked :=
  subst_names; do 2 eexists; split; [elem_prove|stage_id].

Ltac metadata_put :=
  subst_names;
  split; [reflexivity|]; split; [reflexivity|]; split; [elem_prove|];
  split; [stage_id|]; do 2 eexists; split; [elem_prove|stage_id].

Ltac metadata_absent :=
  subst_names;
  split; [reflexivity|]; split; [reflexivity|]; split; [elem_prove|];
  split; [stage_id|]; eexists; split; [elem_prove|stage_id].

Section DigestFacts.
Context {Ext : Type}.
Context {SM : StageMethods Ext} {SS : StagesStorage Ext} {MG : StorageManager Ext}
        {LM : StorageLockManager Ext} {RT : Runtime Ext} {HO : Host Ext}.
#[local] Existing Instance M_ret.
#[local] Existing Instance M_bind.
Abbreviation World := (World Ext).
Implicit Types (w : World).

Lemma twp_publishImageMetadata w img :
  twp (publishImageMetadata img) w (fun o w' evs =>
    (c_localGitRepo (w_conveyor w) = None → o = Ok tt ∧ w' = w ∧ evs = []) ∧
    w_conveyor w' = w_conveyor w ∧
    ((∃ p n c s a, EvPutImageMetadata p n c s a ∈ evs) ↔
     (∃ p n c s, EvIsImageMetadataExist p n c s (Success false) ∈ evs)) ∧
    (∀ repo i,
       c_localGitRepo (w_conveyor w) = Some repo → w_images w !! img = Some i →
       (∃ head, EvHeadCommit head ∈ evs) ∧
       (∀ c, EvHeadCommit (Success c) ∈ evs →
          ∃ s ans,
            EvIsImageMetadataExist (c_projectName (w_conveyor w)) (img_name i)
                                   c s ans ∈ evs ∧
            stageIDDuring w img s) ∧
       (∀ p n c s, EvIsImageMetadataExist p n c s (Success false) ∈ evs →
          p = c_projectName (w_conveyor w) ∧ n = img_name i ∧
          EvHeadCommit (Success c) ∈ evs ∧ stageIDDuring w img s ∧
          ∃ s' a, EvPutImageMetadata p n c s' a ∈ evs ∧ stageIDDuring w img s') ∧
       (∀ p n c s a, EvPutImageMetadata p n c s a ∈ evs →
          p = c_projectName (w_conveyor w) ∧ n = img_name i ∧
          EvHeadCommit (Success c) ∈ evs ∧ stageIDDuring w img s ∧
          ∃ s', EvIsImageMetadataExist p n c s' (Success false) ∈ evs ∧
                stageIDDuring w img s'))).
Proof.
  unfold publishImageMetadata.
  repeat twp_step; world_simpl.
  all: (split; [try done|split; [done|]]).
  all: split;
    [split; [intros (?&?&?&?&?&Hin)|intros (?&?&?&?&Hin)];
     [try (elem_inv Hin; fail); try (do 4 eexists; elem_prove)
     |try (elem_inv Hin; fail); try (do 5 eexists; elem_prove)]|].
  all: intros repo0 i0 Hrepo Hi; try congruence.
  all: injection Hi as <-.
  all: split; [eexists; elem_prove|].
  all: split; [intros c Hin; elem_cases Hin; [metadata_checked..]|].
  all: split;
    [intros p n c s Hin; elem_cases Hin; [metadata_put..]
    |intros p n c s ans Hin; elem_cases Hin; [metadata_absent..]].
Qed.

Lemma twp_calculateDigest w stageName stageDependencies prev :
  twp (calculateDigest stageName stageDependencies prev) w (fun o w' evs =>
    (∃ x, w' = advance x evs w) ∧
    Forall (fun e => isDigestEvent e = true) evs ∧ o ≠ Blocked).
Proof.
  unfold calculateDigest.
  destruct prev as [p|].
  - repeat twp_step; simpl; repeat twp_step; world_simpl.
    all: split; [|split; [repeat constructor|done]].
    all: eexists; apply advance_intro; world_simpl;
      rewrite <- ?app_assoc; reflexivity.
  - repeat twp_step; simpl; repeat twp_step; world_simpl.
    all: split; [|split; [repeat constructor|done]].
    all: eexists; apply advance_intro; world_simpl;
      rewrite <- ?app_assoc; reflexivity.
Qed.

Lemma digestEvent_in (evs : list Event) e :
  Forall (λ e, isDigestEvent e = true) evs → e ∈ evs → isDigestEvent e = true.
Proof. rewrite Forall_forall. auto. Qed.

Lemma digestEvents_no_build (evs : list Event) :
  Forall (λ e, isDigestEvent e = true) evs →
  Forall (λ e, isNewUUID e = false ∧ isBuild e = false) evs.
Proof.
  intros H. eapply Forall_impl; [exact H|].
  intros e He. by destruct e.
Qed.
End DigestFacts.

Ltac twp_calculateDigest_step :=
  lazymatch goal with
  | |- twp (calculateDigest _ _ _) _ _ =>
      hide_post;
      eapply twp_mono; [apply twp_calculateDigest|];
      let o := fresh "o" in
      intros o ? ? ((?&->)&?&?);
      destruct o; [| | |done];
      cbn beta iota
  end.

(** Refute [e ∈ evs] when no event of [evs] can be [e]. *)
Ltac refute_loop H :=
  lazymatch type of H with
  | _ ∈ [] => apply elem_of_nil in H; exact H
  | _ ∈ _ :: _ =>
      apply elem_of_cons in H as [H|H]; [discriminate H | refute_loop H]
  | _ ∈ (_ ++ _)%list =>
      apply elem_of_app in H as [H|H]; refute_loop H
  | _ ∈ ?evs =>
      match goal with
      | HF : Forall _ evs |- _ =>
          apply (digestEvent_in _ _ HF) in H; discriminate H
      end
  end.

Ltac refute_in H := exfalso; world_simpl_in H; refute_loop H.

(** *** atomicBuildStageImage: the race is lost *)

Section DiscardFacts.
Context {Ext : Type}.
Context {SM : StageMethods Ext} {SS : StagesStorage Ext} {MG : StorageManager Ext}
        {LM : StorageLockManager Ext} {RT : Runtime Ext} {HO : Host Ext}.
#[local] Existing Instance M_ret.
#[local] Existing Instance M_bind.
Abbreviation World := (World Ext).
Implicit Types (w : World).

Lemma twp_atomicBuildStageImage_discard w img stg :
  twp (atomicBuildStageImage img stg) w (fun o w' evs =>
    ∀ stages desc,
      EvSelectSuitableStage stg stages (Success (Some desc)) ∈ evs →
      Forall (fun e => isPublishEvent e = false) evs ∧
      (∃ s built lock ans,
         w_stages w !! stg = Some s ∧ stg_image s = Some built ∧
         [EvBuild built (ImageBuildOptions (w_phase w)) None;
          EvLockStage (c_projectName (w_conveyor w)) (stg_digest s) (Success lock);
          EvGetStagesByDigest (stg_logDetailedName s) (stg_digest s)
                              (Success stages);
          EvSelectSuitableStage stg stages (Success (Some desc))]
           `sublist_of` evs ∧
         last evs = Some (EvUnlockStage lock ans)) ∧
      (registryValid w →
       (∀ w0 t, iterator_GetPrevImage w0 img stg ≠ IfaceOther t) →
       o = Ok tt ∧ boundDescription w' stg = Some desc ∧
       reboundTo w w' img stg desc)).
Proof.
  unfold atomicBuildStageImage. cbn iota.
  let rec go := first [ twp_step; go
                      | intros stages desc Hin; solve [refute_in Hin]
                      | idtac ] in go.
  all: world_simpl.
  all: intros stages desc Hin; elem_cases Hin; subst.
  all: split; [repeat (apply Forall_cons_2; [reflexivity|]); apply Forall_nil_2|].
  all: split;
    [do 4 eexists; split; [first [eassumption|reflexivity]|];
     split; [first [eassumption|reflexivity]|];
     split;
       [repeat first [apply sublist_nil_l | apply sublist_skip | apply sublist_cons]
       |reflexivity]|].
  all: intros Hvalid Htyped.
  all: try (exfalso; eapply Htyped; eassumption).
  all: try match goal with
           | H1 : c_stageImages _ !! ?n = Some ?r, H2 : w_stageImages _ !! ?r = None
             |- _ => destruct (Hvalid _ _ H1) as [? Hx]; rewrite H2 in Hx; discriminate Hx
           end.
  all: split; [reflexivity|].
  all: split;
    [subst; unfold boundDescription; world_simpl; rewrite lookup_insert_eq;
     cbn [mbind option_bind stg_image]; rewrite lookup_insert_eq; reflexivity|].
  all: unfold reboundTo; world_simpl; cbn zeta.
  all: eexists _, _, _; split; [eassumption|]; split; [reflexivity|].
  all: try (split; [reflexivity|];
            split; [symmetry; apply insert_id; eassumption|];
            match goal with H : c_stageImages _ !! _ = _ |- _ => rewrite H end;
            split; [reflexivity|eassumption]; fail).
  all: split; [apply insert_insert_eq|]; split; [reflexivity|].
  all: match goal with H : c_stageImages _ !! _ = _ |- _ => rewrite H end.
  all: split; [apply not_elem_of_dom, is_fresh|].
  all: eexists; split; [|reflexivity].
  all: match goal with
       | H : iterator_GetPrevImage ?W _ _ = _ |- _ =>
           exists W; split; [repeat split|rewrite H; reflexivity]
       end.
Qed.
End DiscardFacts.

(** *** atomicBuildStageImage: the image is published *)

Section PublishFacts.
Context {Ext : Type}.
Context {SM : StageMethods Ext} {SS : StagesStorage Ext} {MG : StorageManager Ext}
        {LM : StorageLockManager Ext} {RT : Runtime Ext} {HO : Host Ext}.
#[local] Existing Instance M_ret.
#[local] Existing Instance M_bind.
Abbreviation World := (World Ext).
Implicit Types (w : World).

Lemma collectStageIDs_spec stages new :
  collectStageIDs stages new = ((sd_StageID <$> stages) ++ [new])%list.
Proof.
  unfold collectStageIDs. f_equal.
  cut (∀ acc, fold_left (λ stageIDs stageDesc, stageIDs ++ [sd_StageID stageDesc])%list
                stages acc = (acc ++ (sd_StageID <$> stages))%list).
  { intros H. apply (H []). }
  induction stages as [|d l IH]; intros acc; simpl.
  - by rewrite app_nil_r.
  - rewrite IH, <- app_assoc. done.
Qed.

Lemma twp_atomicBuildStageImage_publish w img stg :
  stageImageRegistered w stg →
  twp (atomicBuildStageImage img stg) w (fun o w' evs =>
    (∀ name digest ids ans,
       EvAtomicStoreStagesByDigestToCache name digest ids ans ∈ evs →
       ∃ logName stages project uid desc,
         EvGetStagesByDigest logName digest (Success stages) ∈ evs ∧
         EvSelectSuitableStage stg stages (Success None) ∈ evs ∧
         EvGetStageDescription project digest uid (Success (Some desc)) ∈ evs ∧
         ids = ((sd_StageID <$> stages) ++ [sd_StageID desc])%list) ∧
    (∀ stages r project digest uid desc,
       EvSelectSuitableStage stg stages (Success None) ∈ evs →
       EvStoreImage r None ∈ evs →
       EvGetStageDescription project digest uid (Success (Some desc)) ∈ evs →
       ∃ name ans,
         EvAtomicStoreStagesByDigestToCache
           name digest ((sd_StageID <$> stages) ++ [sd_StageID desc])%list ans
         ∈ evs)).
Proof.
  intros (s & r & i & Hs & Hr & Hi & Hreg).
  unfold atomicBuildStageImage. cbn iota.
  let rec go := first [ twp_step; go | idtac ] in go.
  all: world_simpl.
  all: split;
    [ intros name digest ids ans Hin; elem_cases Hin
    | intros stages r' project digest uid desc H1 H2 H3;
      elem_cases H1; elem_cases H2; elem_cases H3 ].
  all: subst; rewrite ?collectStageIDs_spec.
  all: try (do 5 eexists; split; [elem_prove|split; [elem_prove|split;
            [elem_prove|reflexivity]]]).
  all: try (do 2 eexists; elem_prove).
Qed.
End PublishFacts.

(** *** onImageStage in ShouldBeBuiltMode *)

Section ShouldBeBuiltFacts.
Context {Ext : Type}.
Context {SM : StageMethods Ext} {SS : StagesStorage Ext} {MG : StorageManager Ext}
        {LM : StorageLockManager Ext} {RT : Runtime Ext} {HO : Host Ext}.
#[local] Existing Instance M_ret.
#[local] Existing Instance M_bind.
Abbreviation World := (World Ext).
Implicit Types (w : World).

Lemma twp_onImageStage_shouldBeBuilt w img stg i :
  ShouldBeBuiltMode (w_phase w) = true →
  w_images w !! img = Some i →
  twp (onImageStage img stg false) w (fun o w' evs =>
    ∀ stages, EvSelectSuitableStage stg stages (Success None) ∈ evs →
      o = Err "stages required" ∧
      w_stageImages w' = w_stageImages w ∧
      c_stageImages (w_conveyor w') = c_stageImages (w_conveyor w) ∧
      Forall (fun e => isNewUUID e = false ∧ isBuild e = false) evs ∧
      ∃ s, w_stages w' !! stg = Some s ∧
           (stg_image <$> w_stages w !! stg) = Some (stg_image s) ∧
           mutexHeld w (stg_digest s) = false ∧
           mutexHeld w' (stg_digest s) = true ∧
           shouldBeBuiltDiagnostic (img_isDockerfileImage i)
             (stg_logDetailedName s) (stg_digest s) `suffix_of` evs).
Proof.
  intros Hmode Hi.
  unfold onImageStage, calculateStage, printShouldBeBuiltError, warnLn,
    reasonNumberFunc, deferStageDigestMutexUnlock.
  cbn iota.
  let rec go := first [ first [twp_calculateDigest_step | twp_step]; go
                      | intros stages Hin; solve [refute_in Hin]
                      | idtac ] in go.
  all: world_simpl.
  all: intros stages _.
  all: split; [reflexivity|]; split; [done|]; split; [done|]; split.
  all: try (repeat first [ apply Forall_nil_2
                         | apply Forall_cons_2; [done|]
                         | apply Forall_app_2; [by apply digestEvents_no_build|] ];
            fail).
  all: eexists; split; [by rewrite lookup_insert_eq|].
  all: split; [reflexivity|].
  all: split;
    [unfold mutexHeld; world_simpl;
     match goal with H : c_stageDigestMutexes _ !! _ = _ |- _ => rewrite H end;
     first [reflexivity|assumption]|].
  all: split; [unfold mutexHeld; world_simpl; by rewrite lookup_insert_eq|].
  all: unfold shouldBeBuiltDiagnostic; world_simpl.
  all: repeat first [ reflexivity | apply suffix_cons_r | apply suffix_app_r ].
Qed.
End ShouldBeBuiltFacts.

(** *** createReport *)

Section ReportFacts.
Context {Ext : Type}.
Context {SM : StageMethods Ext} {SS : StagesStorage Ext} {MG : StorageManager Ext}
        {LM : StorageLockManager Ext} {RT : Runtime Ext} {HO : Host Ext}.
#[local] Existing Instance M_ret.
#[local] Existing Instance M_bind.
Abbreviation World := (World Ext).
Abbreviation M := (@M Ext).
Implicit Types (w : World).

Lemma twp_eventsOf {A} (m : M A) w Q :
  twp m w Q → Q (m w).1 (m w).2 (eventsOf m w).
Proof.
  intros (evs & Ht & HQ). unfold eventsOf. by rewrite Ht, drop_app_length.
Qed.

Lemma eventsOf_trace {A} (m : M A) w Q :
  twp m w Q → w_trace (m w).2 = (w_trace w ++ eventsOf m w)%list.
Proof.
  intros (evs & Ht & HQ). unfold eventsOf. by rewrite Ht, drop_app_length.
Qed.

Lemma reportBody_run w m img :
  imageReportable w img →
  reportBody img (setReport m w) = (Ok tt, setReport (reportStep w m img) w).
Proof.
  intros (i & Hi & Hrep).
  unfold reportBody, reportStep, derefImage, lastStageDescription, Stage_GetImage,
    derefDescription, StageImage_GetStageDescription, derefStageImage, derefStage,
    SetImageRecord, modify, get, mbind, M_bind, mret, M_ret.
  cbn. rewrite Hi. cbn.
  destruct (img_isArtifact i) eqn:Ha; [done|].
  destruct (Hrep eq_refl) as (last & desc & Hl & Hd).
  rewrite Hl. cbn. rewrite Hd.
  unfold boundDescription in Hd.
  destruct (w_stages w !! last) as [s|] eqn:Hs; [|done]. cbn in Hd |- *.
  destruct (stg_image s) as [r|] eqn:Hr; [|done]. cbn in Hd |- *.
  destruct (w_stageImages w !! r) as [si|] eqn:Hsi; [|done]. cbn in Hd |- *.
  rewrite Hd. reflexivity.
Qed.

Lemma reportLoop_run w imgs m :
  (∀ img, img ∈ imgs → imageReportable w img) →
  forM_ imgs reportBody (setReport m w) =
  (Ok tt, setReport (foldl (reportStep w) m imgs) w).
Proof.
  revert m. induction imgs as [|img imgs IH]; intros m Himgs; [done|].
  cbn [forM_ foldl]. unfold mbind, M_bind.
  rewrite reportBody_run by (apply Himgs; left).
  apply IH. intros ? ?. apply Himgs. by right.
Qed.

Lemma setReport_id w : setReport (Images (ph_ImagesReport (w_phase w))) w = w.
Proof. by destruct w as [? ? ? [? ? ? [?] ? ?] ? ? ?]. Qed.

Lemma createReport_run w :
  reportable w →
  createReport w =
  match json_MarshalIndent (mkImagesReport (finalReport w)) "" tab with
  | Failure err =>
      (Err ("unable to prepare report json: " +:+ err), setReport (finalReport w) w)
  | Success data =>
      let w1 := add_event (EvLog Debug ("ImagesReport:" +:+ nl +:+ data +:+ nl))
                          (setReport (finalReport w) w) in
      if reportWritten (w_phase w)
      then
        let path := ph_ReportPath (w_phase w) in
        let r := ioutil_WriteFile w1 path (data +:+ nl) mode0644 in
        (match r.1 with
         | None => Ok tt
         | Some err => Err ("unable to write report to " +:+ path +:+ ": " +:+ err)
         end,
         set_ext r.2 (add_event (EvWriteFile path (data +:+ nl) mode0644 r.1) w1))
      else (Ok tt, w1)
  end.
Proof.
  intros Hrep. unfold createReport.
  change (forM_ (c_images ?c) _) with (forM_ (Ext := Ext) (c_images c) reportBody).
  unfold getConveyor, get.
  unfold mbind at 1. unfold M_bind at 1. unfold mbind at 1. unfold M_bind at 1.
  cbn [mret M_ret].
  unfold mbind at 1. unfold M_bind at 1.
  pose proof (reportLoop_run w (c_images (w_conveyor w))
                (Images (ph_ImagesReport (w_phase w)))
                (fun img Himg => Hrep img Himg)) as Hloop.
  rewrite setReport_id in Hloop. rewrite Hloop. clear Hloop.
  fold (finalReport w).
  unfold reportWritten, wrapErr, ToJson, getPhase, get, log, modify, when, callErr,
    call, fail, mbind, M_bind, mret, M_ret, setReport, set_phase, add_event,
    set_ext, withImagesReport.
  cbn.
  destruct (json_MarshalIndent _ _ _) as [data|err]; cbn; [|done].
  destruct (negb _ && _); cbn; [|done].
  destruct (ioutil_WriteFile _ _ _ _) as [[e|] x]; done.
Qed.

Lemma reportStep_lookup w m img name :
  imageReportable w img →
  is_Some (reportStep w m img !! name) ↔
  is_Some (m !! name) ∨
  ∃ i, w_images w !! img = Some i ∧ img_isArtifact i = false ∧ img_name i = name.
Proof.
  intros (i & Hi & Hrep). unfold reportStep. rewrite Hi.
  destruct (img_isArtifact i) eqn:Ha.
  - split; [by left|]. intros [H|(i' & Hi' & Ha' & _)]; [done|]. congruence.
  - destruct (Hrep eq_refl) as (last & desc & Hl & Hd). rewrite Hl. cbn. rewrite Hd.
    rewrite lookup_insert_is_Some. split.
    + intros [<-|[_ H]]; [right; eauto|by left].
    + intros [H|(i' & Hi' & _ & Hn)].
      * destruct (decide (img_name i = name)); auto.
      * left. congruence.
Qed.

Lemma reportLoop_lookup w imgs m name :
  (∀ img, img ∈ imgs → imageReportable w img) →
  is_Some (foldl (reportStep w) m imgs !! name) ↔
  is_Some (m !! name) ∨
  ∃ img i, img ∈ imgs ∧ w_images w !! img = Some i ∧
           img_isArtifact i = false ∧ img_name i = name.
Proof.
  revert m. induction imgs as [|img imgs IH]; intros m Himgs; cbn [foldl].
  - split; [by left|]. intros [H|(? & ? & Hin & _)]; [done|]. by apply elem_of_nil in Hin.
  - rewrite IH by (intros ? ?; apply Himgs; by right).
    rewrite reportStep_lookup by (apply Himgs; left).
    split.
    + intros [[H|(i & Hi & Ha & Hn)]|(img' & i & Hin & H)]; [by left| |].
      * right. exists img, i. split; [left|done].
      * right. exists img', i. split; [by right|done].
    + intros [H|(img' & i & Hin & Hi & Ha & Hn)]; [by left; left|].
      apply elem_of_cons in Hin as [->|Hin].
      * left; right. eauto.
      * right. eauto 10.
Qed.
End ReportFacts.

(** *** AfterImageStages and the value of the digest *)

Section FrameFacts.
Context {Ext : Type}.
Context {SM : StageMethods Ext} {SS : StagesStorage Ext} {MG : StorageManager Ext}
        {LM : StorageLockManager Ext} {RT : Runtime Ext} {HO : Host Ext}.
#[local] Existing Instance M_ret.
#[local] Existing Instance M_bind.
Abbreviation World := (World Ext).
Abbreviation M := (@M Ext).
Implicit Types (w : World).

Lemma twp_AfterImageStages_no_repo w img :
  c_localGitRepo (w_conveyor w) = None →
  twp (AfterImageStages img) w (fun o w' evs =>
    Forall (fun e => isMetadataEvent e = false) evs).
Proof.
  intros Hrepo.
  unfold AfterImageStages, addManagedImage, publishImageMetadata,
    Stage_GetContentDigest.
  cbn iota.
  repeat twp_step; world_simpl.
  all: repeat (apply Forall_cons_2; [reflexivity|]); apply Forall_nil_2.
Qed.

Lemma twp_calculateDigest_value w stageName stageDependencies prev :
  twp (calculateDigest stageName stageDependencies prev) w (fun o _ _ =>
    ∀ prevInputs, predecessorInputs w prev prevInputs →
      o = Ok (util_Sha3_224Hash
                ([image_BuildCacheVersion; stageName; stageDependencies] ++
                 match prevInputs with
                 | Some (prevDigest, next) => [prevDigest; next]
                 | None => []
                 end)%list)).
Proof.
  unfold calculateDigest, predecessorInputs, Stage_GetDigest, Stage_Name.
  destruct prev as [p|].
  - apply twp_bind, twp_bind, twp_try, twp_callRes; intros r x Hcall.
    all: repeat twp_step; simpl; repeat twp_step.
    all: intros pin (s' & next & Hs & Hnext & ->).
    all: rewrite Hcall in Hnext; simpl in Hnext.
    all: first [ discriminate Hs | discriminate Hnext
               | injection Hs as <-; injection Hnext as <-; reflexivity ].
  - eapply twp_mono with
      (Q := fun o _ _ =>
              o = Ok (util_Sha3_224Hash
                        [image_BuildCacheVersion; stageName; stageDependencies]));
      [|by intros o ? ? Ho pin ->].
    repeat twp_step; simpl; repeat twp_step. reflexivity.
Qed.
End FrameFacts.

(** *** The properties of the specification *)

Section Claims.
Context {Ext : Type}.
Context {SM : StageMethods Ext} {SS : StagesStorage Ext} {MG : StorageManager Ext}
        {LM : StorageLockManager Ext} {RT : Runtime Ext} {HO : Host Ext}.
#[local] Existing Instance M_ret.
#[local] Existing Instance M_bind.
Abbreviation World := (World Ext).
Abbreviation M := (@M Ext).
Implicit Types (w : World).

Lemma createReport_report w :
  reportable w →
  Images (ph_ImagesReport (w_phase (createReport w).2)) = finalReport w.
Proof.
  intros Hrep. rewrite createReport_run by done.
  destruct (json_MarshalIndent _ _ _); [|done].
  cbn zeta. by destruct (reportWritten _).
Qed.

Lemma createReport_events w :
  reportable w →
  eventsOf createReport w =
  match json_MarshalIndent (mkImagesReport (finalReport w)) "" tab with
  | Success data =>
      EvLog Debug ("ImagesReport:" +:+ nl +:+ data +:+ nl) ::
      (if reportWritten (w_phase w)
       then [EvWriteFile (ph_ReportPath (w_phase w)) (data +:+ nl) mode0644
               (ioutil_WriteFile
                  (add_event (EvLog Debug ("ImagesReport:" +:+ nl +:+ data +:+ nl))
                             (setReport (finalReport w) w))
                  (ph_ReportPath (w_phase w)) (data +:+ nl) mode0644).1]
       else [])
  | Failure _ => []
  end.
Proof.
  intros Hrep. unfold eventsOf. rewrite createReport_run by done.
  destruct (json_MarshalIndent _ _ _).
  - cbn zeta. destruct (reportWritten _); cbn [snd w_trace set_ext add_event setReport set_phase].
    + by rewrite <- app_assoc, drop_app_length.
    + by rewrite drop_app_length.
  - cbn. by rewrite drop_all.
Qed.

(** C1: the digest is the hash of the cache version, the stage name, the
    dependency summary and, when a previous non-empty stage exists, that
    stage's digest followed by its next-stage dependencies, in this order;
    the world enters the result through these inputs only. *)
Theorem calculateDigest_inputs w stageName stageDependencies prev prevInputs :
  predecessorInputs w prev prevInputs →
  (calculateDigest stageName stageDependencies prev w).1 =
  Ok (util_Sha3_224Hash
        ([image_BuildCacheVersion; stageName; stageDependencies] ++
         match prevInputs with
         | Some (prevDigest, next) => [prevDigest; next]
         | None => []
         end)%list).
Proof.
  intros H.
  exact (twp_eventsOf _ _ _
           (twp_calculateDigest_value w stageName stageDependencies prev) _ H).
Qed.

(** C2: when the selection made after the build, under the lock on the
    project name and the digest of the stage, over the stages the storage
    holds for this digest, finds a suitable stage, nothing is stored, no
    unique id is generated and the cache is not written; the stage leaves
    the image just built for the registry's object named by the
    description found (the registered one or a new one with the parent
    GetPrevImage gives), this object carries the description, and the
    function returns nil after releasing the lock. *)
Theorem atomicBuildStageImage_discards_on_lost_race w img stg stages desc :
  registryValid w →
  (∀ w0 t, iterator_GetPrevImage w0 img stg ≠ IfaceOther t) →
  EvSelectSuitableStage stg stages (Success (Some desc))
    ∈ eventsOf (atomicBuildStageImage img stg) w →
  (atomicBuildStageImage img stg w).1 = Ok tt ∧
  boundDescription (atomicBuildStageImage img stg w).2 stg = Some desc ∧
  reboundTo w (atomicBuildStageImage img stg w).2 img stg desc ∧
  Forall (fun e => isPublishEvent e = false)
         (eventsOf (atomicBuildStageImage img stg) w) ∧
  ∃ s built lock ans,
    w_stages w !! stg = Some s ∧ stg_image s = Some built ∧
    [EvBuild built (ImageBuildOptions (w_phase w)) None;
     EvLockStage (c_projectName (w_conveyor w)) (stg_digest s) (Success lock);
     EvGetStagesByDigest (stg_logDetailedName s) (stg_digest s) (Success stages);
     EvSelectSuitableStage stg stages (Success (Some desc))]
      `sublist_of` eventsOf (atomicBuildStageImage img stg) w ∧
    last (eventsOf (atomicBuildStageImage img stg) w) =
      Some (EvUnlockStage lock ans).
Proof.
  intros Hvalid Htyped Hin.
  destruct (twp_eventsOf _ _ _ (twp_atomicBuildStageImage_discard w img stg)
              stages desc Hin) as (Hno & Hord & Hres).
  destruct (Hres Hvalid Htyped) as (Ho & Hb & Hr). done.
Qed.

(** C3: the handler of a stage that must already be built and is not does
    not release the mutex of the digest: it took the mutex free and returns
    "stages required" with the mutex held. *)
Theorem onImageStage_leaves_mutex_locked w img stg i stages :
  ShouldBeBuiltMode (w_phase w) = true →
  w_images w !! img = Some i →
  EvSelectSuitableStage stg stages (Success None)
    ∈ eventsOf (onImageStage img stg false) w →
  (onImageStage img stg false w).1 = Err "stages required" ∧
  ∃ s, w_stages (onImageStage img stg false w).2 !! stg = Some s ∧
       mutexHeld w (stg_digest s) = false ∧
       mutexHeld (onImageStage img stg false w).2 (stg_digest s) = true.
Proof.
  intros Hmode Hi Hin.
  destruct (twp_eventsOf _ _ _ (twp_onImageStage_shouldBeBuilt w img stg i Hmode Hi)
              stages Hin) as (Ho & _ & _ & _ & s & Hs & _ & Hfree & Hheld & _).
  eauto.
Qed.

(** C4: in ShouldBeBuiltMode, when the selection finds no suitable stage,
    the handler ends its output with the diagnostic naming the stage, the
    digest and the numbered reasons, returns "stages required", asks for no
    fresh name, builds nothing and leaves the stage images, their registry
    and the image of the stage as they were. *)
Theorem onImageStage_shouldBeBuilt_miss w img stg i stages :
  ShouldBeBuiltMode (w_phase w) = true →
  w_images w !! img = Some i →
  EvSelectSuitableStage stg stages (Success None)
    ∈ eventsOf (onImageStage img stg false) w →
  (onImageStage img stg false w).1 = Err "stages required" ∧
  Forall (fun e => isNewUUID e = false ∧ isBuild e = false)
         (eventsOf (onImageStage img stg false) w) ∧
  w_stageImages (onImageStage img stg false w).2 = w_stageImages w ∧
  c_stageImages (w_conveyor (onImageStage img stg false w).2) =
    c_stageImages (w_conveyor w) ∧
  ∃ s, w_stages (onImageStage img stg false w).2 !! stg = Some s ∧
       (stg_image <$> w_stages w !! stg) = Some (stg_image s) ∧
       shouldBeBuiltDiagnostic (img_isDockerfileImage i)
         (stg_logDetailedName s) (stg_digest s)
         `suffix_of` eventsOf (onImageStage img stg false) w.
Proof.
  intros Hmode Hi Hin.
  destruct (twp_eventsOf _ _ _ (twp_onImageStage_shouldBeBuilt w img stg i Hmode Hi)
              stages Hin) as (Ho & Himgs & Hreg & Hev & s & Hs & Himg & _ & _ & Hd).
  eauto 10.
Qed.

(** C5: every cache write of atomicBuildStageImage passes the stage IDs of
    the candidates the query under the lock returned, in their order,
    followed by the stage ID of the image just stored; and the publish path
    makes this write. *)
Theorem atomicBuildStageImage_cache_stageIDs w img stg :
  stageImageRegistered w stg →
  (∀ name digest ids ans,
     EvAtomicStoreStagesByDigestToCache name digest ids ans
       ∈ eventsOf (atomicBuildStageImage img stg) w →
     ∃ logName stages project uid desc,
       EvGetStagesByDigest logName digest (Success stages)
         ∈ eventsOf (atomicBuildStageImage img stg) w ∧
       EvSelectSuitableStage stg stages (Success None)
         ∈ eventsOf (atomicBuildStageImage img stg) w ∧
       EvGetStageDescription project digest uid (Success (Some desc))
         ∈ eventsOf (atomicBuildStageImage img stg) w ∧
       ids = ((sd_StageID <$> stages) ++ [sd_StageID desc])%list) ∧
  (∀ stages r project digest uid desc,
     EvSelectSuitableStage stg stages (Success None)
       ∈ eventsOf (atomicBuildStageImage img stg) w →
     EvStoreImage r None ∈ eventsOf (atomicBuildStageImage img stg) w →
     EvGetStageDescription project digest uid (Success (Some desc))
       ∈ eventsOf (atomicBuildStageImage img stg) w →
     ∃ name ans,
       EvAtomicStoreStagesByDigestToCache
         name digest ((sd_StageID <$> stages) ++ [sd_StageID desc])%list ans
       ∈ eventsOf (atomicBuildStageImage img stg) w).
Proof.
  intros Hreg.
  exact (twp_eventsOf _ _ _ (twp_atomicBuildStageImage_publish w img stg Hreg)).
Qed.

(** C6: after createReport the report has an entry under a name exactly
    when it had one before or an image of the conveyor that is not an
    artifact bears the name; an artifact adds no entry. *)
Theorem createReport_skips_artifacts w name :
  reportable w →
  is_Some (Images (ph_ImagesReport (w_phase (createReport w).2)) !! name) ↔
  is_Some (Images (ph_ImagesReport (w_phase w)) !! name) ∨
  ∃ img i, img ∈ c_images (w_conveyor w) ∧ w_images w !! img = Some i ∧
           img_isArtifact i = false ∧ img_name i = name.
Proof.
  intros Hrep. rewrite createReport_report by done.
  apply reportLoop_lookup. exact Hrep.
Qed.

(** What [createReport] writes, in terms of the fields [ReportPath] and
    [ReportFormat] of the phase itself: when the path is not empty and the
    format is "json", one file, at that path, with mode 0644, holding the
    tab-indented JSON of the report followed by one newline; otherwise,
    and when the report cannot be marshalled, no file. *)
Lemma createReport_file w :
  reportable w →
  match json_MarshalIndent
          (ph_ImagesReport (w_phase (createReport w).2)) "" tab
  with
  | Success data =>
      if negb (bool_decide (ph_ReportPath (w_phase w) = "")) &&
         bool_decide (ph_ReportFormat (w_phase w) = "json")
      then ∃ answer,
             List.filter isWriteFile (eventsOf createReport w) =
             [EvWriteFile (ph_ReportPath (w_phase w))
                          (data +:+ nl) 420%N answer]
      else List.filter isWriteFile (eventsOf createReport w) = []
  | Failure _ => List.filter isWriteFile (eventsOf createReport w) = []
  end.
Proof.
  intros Hrep.
  pose proof (createReport_report w Hrep) as Hr.
  destruct (ph_ImagesReport (w_phase (createReport w).2)) as [m]. simpl in Hr.
  subst m. rewrite createReport_events by done.
  destruct (json_MarshalIndent _ _ _) as [data|err]; [|done].
  change (negb _ && _) with (reportWritten (w_phase w)).
  destruct (reportWritten (w_phase w)); [|done].
  eexists. reflexivity.
Qed.

(** C7: the path and the format [createReport] reads are the fields of the
    phase itself, not the ones of its build options; [NewBuildPhase]
    leaves them empty and the phase changes only its iterator, its
    managed-image flag and its report.  So for a phase made from options
    that configure a report path and the format "json", [createReport]
    writes no file. *)
Theorem createReport_configured_report_not_written w opts it added report :
  reportable w →
  bo_ReportPath (bpo_BuildOptions opts) ≠ "" →
  bo_ReportFormat (bpo_BuildOptions opts) = ReportJSON →
  w_phase w =
    withImagesReport report
      (withShouldAddManagedImageRecord added
         (withStagesIterator it (NewBuildPhase opts))) →
  bo_ReportPath (bpo_BuildOptions (ph_BuildPhaseOptions (w_phase w))) ≠ "" ∧
  bo_ReportFormat (bpo_BuildOptions (ph_BuildPhaseOptions (w_phase w))) = "json" ∧
  List.filter isWriteFile (eventsOf createReport w) = [].
Proof.
  intros Hrep Hpath Hformat Hphase.
  split; [by rewrite Hphase|]. split; [by rewrite Hphase|].
  rewrite createReport_events by done.
  destruct (json_MarshalIndent _ _ _) as [data|err]; [|done].
  by rewrite Hphase.
Qed.

(** C9: for an empty stage the handler returns nil at once and leaves the
    world, trace included, as it was. *)
Theorem onImageStage_empty_stage w img stg :
  onImageStage img stg true w = (Ok tt, w).
Proof. reflexivity. Qed.

(** C10: without a local git repository publishImageMetadata returns nil
    and changes nothing, and AfterImageStages asks for no head commit and
    neither reads nor writes image metadata.  With a repository the head
    commit is asked for; once it is known, IsImageMetadataExist is asked
    about the project, the image, this commit and the stage ID of the
    image; PutImageMetadata is called exactly when the answer was false,
    and for this project, this image, this commit and the stage ID of the
    image. *)
Theorem publishImageMetadata_frame w img :
  (c_localGitRepo (w_conveyor w) = None →
   publishImageMetadata img w = (Ok tt, w) ∧
   Forall (fun e => isMetadataEvent e = false)
          (eventsOf (AfterImageStages img) w)) ∧
  ((∃ p n c s a,
      EvPutImageMetadata p n c s a ∈ eventsOf (publishImageMetadata img) w) ↔
   (∃ p n c s,
      EvIsImageMetadataExist p n c s (Success false)
        ∈ eventsOf (publishImageMetadata img) w)) ∧
  (∀ repo i,
     c_localGitRepo (w_conveyor w) = Some repo → w_images w !! img = Some i →
     (∃ head, EvHeadCommit head ∈ eventsOf (publishImageMetadata img) w) ∧
     (∀ c, EvHeadCommit (Success c) ∈ eventsOf (publishImageMetadata img) w →
        ∃ s ans,
          EvIsImageMetadataExist (c_projectName (w_conveyor w)) (img_name i)
                                 c s ans
            ∈ eventsOf (publishImageMetadata img) w ∧
          stageIDDuring w img s) ∧
     (∀ p n c s,
        EvIsImageMetadataExist p n c s (Success false)
          ∈ eventsOf (publishImageMetadata img) w →
        p = c_projectName (w_conveyor w) ∧ n = img_name i ∧
        EvHeadCommit (Success c) ∈ eventsOf (publishImageMetadata img) w ∧
        stageIDDuring w img s ∧
        ∃ s' a, EvPutImageMetadata p n c s' a
                  ∈ eventsOf (publishImageMetadata img) w ∧
                stageIDDuring w img s') ∧
     (∀ p n c s a,
        EvPutImageMetadata p n c s a ∈ eventsOf (publishImageMetadata img) w →
        p = c_projectName (w_conveyor w) ∧ n = img_name i ∧
        EvHeadCommit (Success c) ∈ eventsOf (publishImageMetadata img) w ∧
        stageIDDuring w img s ∧
        ∃ s', EvIsImageMetadataExist p n c s' (Success false)
                ∈ eventsOf (publishImageMetadata img) w ∧
              stageIDDuring w img s')).
Proof.
  split.
  - intros Hrepo. split.
    + unfold publishImageMetadata, getConveyor, get, mbind, M_bind, mret, M_ret.
      cbn. by rewrite Hrepo.
    + exact (twp_eventsOf _ _ _ (twp_AfterImageStages_no_repo w img Hrepo)).
  - exact (proj2 (proj2 (twp_eventsOf _ _ _ (twp_publishImageMetadata w img)))).
Qed.
End Claims.

(** *** Further properties of the build phase *)

Section FrameIntro.
Context {Ext : Type}.
Context {SM : StageMethods Ext} {SS : StagesStorage Ext} {MG : StorageManager Ext}
        {LM : StorageLockManager Ext} {RT : Runtime Ext} {HO : Host Ext}.
#[local] Existing Instance M_ret.
#[local] Existing Instance M_bind.
Abbreviation World := (World Ext).
Abbreviation M := (@M Ext).
Implicit Types (w : World).

Lemma framed_intro w w' evs :
  w_trace w' = (w_trace w ++ evs)%list →
  w_phase w' = w_phase w →
  w_images w' = w_images w →
  c_images (w_conveyor w') = c_images (w_conveyor w) →
  c_stageDigestMutexes (w_conveyor w') = c_stageDigestMutexes (w_conveyor w) →
  c_projectName (w_conveyor w') = c_projectName (w_conveyor w) →
  c_sshAuthSock (w_conveyor w') = c_sshAuthSock (w_conveyor w) →
  c_Parallel (w_conveyor w') = c_Parallel (w_conveyor w) →
  c_localGitRepo (w_conveyor w') = c_localGitRepo (w_conveyor w) →
  framed w w' evs.
Proof.
  destruct w' as [x t [? reg ? ? ? ? ? funcs] p ST SI im]. simpl.
  intros -> -> -> -> -> -> -> -> ->. by exists x, reg, funcs, ST, SI.
Qed.

Lemma framed_refl w : framed w w [].
Proof. apply framed_intro; rewrite ?app_nil_r; reflexivity. Qed.

End FrameIntro.

Ltac framed_solve :=
  first [ apply framed_refl
        | apply framed_intro; world_simpl; rewrite <- ?app_assoc, ?app_nil_r;
          reflexivity ].

Section FrameFacts2.
Context {Ext : Type}.
Context {SM : StageMethods Ext} {SS : StagesStorage Ext} {MG : StorageManager Ext}
        {LM : StorageLockManager Ext} {RT : Runtime Ext} {HO : Host Ext}.
#[local] Existing Instance M_ret.
#[local] Existing Instance M_bind.
Abbreviation World := (World Ext).
Abbreviation M := (@M Ext).
Implicit Types (w : World).

Lemma twp_fetchBaseImageForStage w img stg :
  twp (fetchBaseImageForStage img stg) w (fun o w' evs =>
    framed w w' evs ∧ o ≠ Blocked ∧
    Forall (fun e => isQuietEvent e = true) evs).
Proof.
  unfold fetchBaseImageForStage.
  repeat twp_step; world_simpl.
  all: split; [framed_solve|].
  all: split; [done|repeat constructor].
Qed.

Lemma twp_prepareStageInstructions w img stg :
  twp (prepareStageInstructions img stg) w (fun o w' evs =>
    framed w w' evs ∧ o ≠ Blocked ∧
    Forall (fun e => isQuietEvent e = true) evs).
Proof.
  unfold prepareStageInstructions.
  repeat twp_step; world_simpl.
  all: split; [framed_solve|].
  all: split; [done|repeat constructor].
Qed.

Lemma twp_logImageCommands w i :
  twp (logImageCommands i) w (fun o w' evs =>
    framed w w' evs ∧ o ≠ Blocked ∧
    (Forall (fun e => isQuietEvent e = true) evs ∧ ∀ e, o ≠ Err e)).
Proof.
  unfold logImageCommands.
  repeat twp_step; world_simpl.
  all: split; [framed_solve|].
  all: split; [done|]. 
  all: split; [repeat constructor|done].
Qed.

Lemma twp_introspectStage w stg :
  twp (introspectStage stg) w (fun o w' evs =>
    framed w w' evs ∧ o ≠ Blocked ∧
    Forall (fun e => isQuietEvent e = true) evs).
Proof.
  unfold introspectStage.
  repeat twp_step; world_simpl.
  all: split; [framed_solve|].
  all: split; [done|repeat constructor].
Qed.

Lemma twp_atomicBuildStageImage_frame w img stg :
  twp (atomicBuildStageImage img stg) w (fun o w' evs =>
    framed w w' evs ∧ o ≠ Blocked ∧
    (Forall (fun e => isAtomicBuildEvent e = true) evs ∧
     (o = Ok tt → ∃ built opts, EvBuild built opts None ∈ evs))).
Proof.
  unfold atomicBuildStageImage. cbn iota.
  repeat twp_step; world_simpl.
  all: split; [framed_solve|].
  all: split; [done|].
  all: split; [repeat constructor|].
  all: first [ intros _; do 2 eexists; elem_prove | intros H; discriminate H ].
Qed.
End FrameFacts2.

(** A part that returns no error did not return one. *)
Ltac no_error :=
  exfalso;
  match goal with
  | H : ∀ e, Err _ ≠ Err e |- _ => by eapply H
  end.

(** One step of the execution for a part whose frame is known. *)
Ltac frame_by lem :=
  hide_post; eapply twp_mono; [apply lem|];
  let o := fresh "o" in
  intros o ? ? ((?&?&?&?&?&->)&?&?);
  destruct o; [| | |done];
  repeat match goal with H : _ ∧ _ |- _ => destruct H end;
  cbn beta iota.

Ltac elem_find :=
  lazymatch goal with
  | |- _ ∈ _ :: _ =>
      first [ apply list_elem_of_here | apply list_elem_of_further; elem_find ]
  | |- _ ∈ (_ ++ _)%list =>
      apply elem_of_app; first [ left; elem_find | right; elem_find ]
  | |- _ => eassumption
  end.

Section AtomicBuildFacts.
Context {Ext : Type}.
Context {SM : StageMethods Ext} {SS : StagesStorage Ext} {MG : StorageManager Ext}
        {LM : StorageLockManager Ext} {RT : Runtime Ext} {HO : Host Ext}.
#[local] Existing Instance M_ret.
#[local] Existing Instance M_bind.
Abbreviation World := (World Ext).
Abbreviation M := (@M Ext).
Implicit Types (w : World).

Lemma twp_atomicBuildStageImage_protocol w img stg :
  twp (atomicBuildStageImage img stg) w (fun o w' evs =>
    lockDiscipline None evs = true ∧
    publishOrder (List.filter isPublishEvent evs) = true ∧
    (∀ built opts e,
       EvBuild built opts (Some e) ∈ evs →
       Forall (fun e => isLockEvent e = false ∧ isStorageEvent e = false) evs ∧
       ∃ s, w_stages w !! stg = Some s ∧
            o = Err ("failed to build image for stage " +:+ stg_name s +:+
                     " with digest " +:+ stg_digest s +:+ ": " +:+ e))).
Proof.
  unfold atomicBuildStageImage. cbn iota.
  let rec go := first [ twp_step; go | idtac ] in go.
  all: world_simpl.
  all: split; [cbn; rewrite ?bool_decide_eq_true_2 by done; reflexivity|].
  all: split; [reflexivity|].
  all: intros built opts err Hin; elem_cases Hin; subst.
  all: split; [repeat (apply Forall_cons_2; [done|]); apply Forall_nil_2|].
  all: eexists; split; reflexivity.
Qed.
End AtomicBuildFacts.

Section BuildStageFacts.
Context {Ext : Type}.
Context {SM : StageMethods Ext} {SS : StagesStorage Ext} {MG : StorageManager Ext}
        {LM : StorageLockManager Ext} {RT : Runtime Ext} {HO : Host Ext}.
#[local] Existing Instance M_ret.
#[local] Existing Instance M_bind.
Abbreviation World := (World Ext).
Abbreviation M := (@M Ext).
Implicit Types (w : World).

Lemma digestEvents_not_build (evs : list Event) :
  Forall (λ e, isDigestEvent e = true) evs →
  Forall (λ e, isBuild e = false) evs.
Proof.
  intros H. eapply Forall_impl; [exact H|].
  intros e He. by destruct e.
Qed.

Lemma twp_logImageInfo w i size cached :
  twp (logImageInfo i size cached) w (fun o w' evs =>
    framed w w' evs ∧ o ≠ Blocked ∧
    (Forall (fun e => isQuietEvent e = true) evs ∧ ∀ e, o ≠ Err e)).
Proof.
  unfold logImageInfo.
  repeat first [ lazymatch goal with
                 | |- twp (logImageCommands _) _ _ => frame_by twp_logImageCommands
                 end
               | twp_step ]; world_simpl.
  all: try no_error.
  all: split; [framed_solve|].
  all: split; [done|].
  all: split; [|done].
  all: repeat first [ apply Forall_nil_2 | apply Forall_cons_2; [done|]
                    | apply Forall_app_2; [assumption|] | assumption ].
Qed.
End BuildStageFacts.

Ltac twp_part :=
  lazymatch goal with
  | |- twp (calculateDigest _ _ _) _ _ => twp_calculateDigest_step
  | |- twp (logImageCommands _) _ _ => frame_by twp_logImageCommands
  | |- twp (logImageInfo _ _ _) _ _ => frame_by twp_logImageInfo
  | |- twp (introspectStage _) _ _ => frame_by twp_introspectStage
  | |- twp (fetchBaseImageForStage _ _) _ _ => frame_by twp_fetchBaseImageForStage
  | |- twp (prepareStageInstructions _ _) _ _ =>
      frame_by twp_prepareStageInstructions
  | |- twp (atomicBuildStageImage _ _) _ _ =>
      frame_by twp_atomicBuildStageImage_frame
  end.

Ltac twp_run_parts := repeat first [ twp_part | twp_step ].

Ltac no_build :=
  repeat first [ apply Forall_nil_2 | apply Forall_cons_2; [done|]
               | apply Forall_app_2;
                   [first [assumption | by apply digestEvents_not_build]|]
               | assumption | by apply digestEvents_not_build ].

Section BuildStageFacts2.
Context {Ext : Type}.
Context {SM : StageMethods Ext} {SS : StagesStorage Ext} {MG : StorageManager Ext}
        {LM : StorageLockManager Ext} {RT : Runtime Ext} {HO : Host Ext}.
#[local] Existing Instance M_ret.
#[local] Existing Instance M_bind.
Abbreviation World := (World Ext).
Abbreviation M := (@M Ext).
Implicit Types (w : World).

Lemma twp_buildStage_frame w img stg :
  twp (buildStage img stg) w (fun o w' evs =>
    framed w w' evs ∧ o ≠ Blocked ∧
    (o = Ok tt → ∃ built opts, EvBuild built opts None ∈ evs)).
Proof.
  unfold buildStage, getPrevNonEmptyStageImageSize.
  twp_run_parts; world_simpl.
  all: try no_error.
  all: split; [framed_solve|].
  all: split; [done|].
  all: try (intro; discriminate).
  all: intros _.
  all: match goal with
       | H : Ok ?u = Ok tt → _ |- _ =>
           destruct u; destruct (H eq_refl) as (built & opts & Hin)
       end.
  all: exists built, opts; elem_find.
Qed.
End BuildStageFacts2.

(** All the ways [H : e ∈ l] can hold, the parts of [l] that cannot hold
    [e] left out. *)
Ltac event_cases H :=
  lazymatch type of H with
  | _ ∈ [] => apply elem_of_nil in H; destruct H
  | _ ∈ _ :: _ =>
      apply elem_of_cons in H as [H|H];
      [ first [ discriminate H | idtac ] | event_cases H ]
  | _ ∈ (_ ++ _)%list => apply elem_of_app in H as [H|H]; event_cases H
  | _ ∈ ?evs =>
      first [ exfalso;
              match goal with
              | HF : Forall _ evs |- _ =>
                  rewrite Forall_forall in HF; apply HF in H; discriminate H
              end
            | idtac ]
  end.

Section CalculateStageFacts.
Context {Ext : Type}.
Context {SM : StageMethods Ext} {SS : StagesStorage Ext} {MG : StorageManager Ext}
        {LM : StorageLockManager Ext} {RT : Runtime Ext} {HO : Host Ext}.
#[local] Existing Instance M_ret.
#[local] Existing Instance M_bind.
Abbreviation World := (World Ext).
Abbreviation M := (@M Ext).
Implicit Types (w : World).

Lemma mutex_restored (m : gmap string bool) k d :
  default false (m !! k) = false →
  default false (<[k:=false]> (<[k:=true]> m) !! d) = default false (m !! d).
Proof.
  intros Hk. destruct (decide (k = d)) as [->|Hne].
  - by rewrite lookup_insert_eq.
  - by rewrite !lookup_insert_ne.
Qed.

Lemma twp_calculateStage_frame w img stg mode :
  twp (calculateStage img stg mode) w (fun o w' evs =>
    (w_phase w' = w_phase w ∧ w_images w' = w_images w ∧
     c_images (w_conveyor w') = c_images (w_conveyor w) ∧
     c_projectName (w_conveyor w') = c_projectName (w_conveyor w) ∧
     c_sshAuthSock (w_conveyor w') = c_sshAuthSock (w_conveyor w) ∧
     c_Parallel (w_conveyor w') = c_Parallel (w_conveyor w) ∧
     c_localGitRepo (w_conveyor w') = c_localGitRepo (w_conveyor w)) ∧
    Forall (fun e => isBuild e = false) evs ∧
    (o = Ok tt →
     ∃ s, w_stages w' !! stg = Some s ∧
          c_stageDigestMutexes (w_conveyor w') =
            <[stg_digest s := true]> (c_stageDigestMutexes (w_conveyor w)) ∧
          mutexHeld w (stg_digest s) = false ∧
          ∀ r i, stg_image s = Some r → w_stageImages w' !! r = Some i →
                 si_stageDescription i = None →
                 mode = false ∧
                 ∃ stages name,
                   EvSelectSuitableStage stg stages (Success None) ∈ evs ∧
                   EvNewUUID name ∈ evs)).
Proof.
  unfold calculateStage, printShouldBeBuiltError, warnLn, reasonNumberFunc.
  destruct mode; cbn iota.
  all: twp_run_parts; world_simpl.
  all: split; [done|].
  all: split; [solve [no_build]|].
  all: try (intro; discriminate).
  all: intros _; eexists; split; [by rewrite lookup_insert_eq|].
  all: split; [reflexivity|].
  all: split;
    [unfold mutexHeld; cbn [stg_digest];
     match goal with H : c_stageDigestMutexes _ !! _ = _ |- _ => rewrite H end;
     first [reflexivity|assumption]|].
  all: intros rr ii Hr Hi Hnone; cbn [stg_image] in Hr; injection Hr as <-.
  all: rewrite ?lookup_insert_eq in Hi; try (injection Hi as <-).
  all: first [ discriminate Hnone
             | split; [reflexivity|do 2 eexists; split; elem_find] ].
Qed.
End CalculateStageFacts.

Ltac calc_step :=
  lazymatch goal with
  | |- twp (calculateStage _ _ _) _ _ =>
      hide_post; eapply twp_mono; [apply twp_calculateStage_frame|];
      let o := fresh "o" in
      let w' := fresh "w" in
      let Hok := fresh "Hok" in
      intros o w' ? ((?&?&?&?&?&?&?)&?&Hok);
      destruct w' as [? ? [? ? ? ? ? ? ? ?] ? ? ? ?];
      cbn [w_ext w_trace w_conveyor w_phase w_stages w_stageImages w_images
           c_images c_stageImages c_stageDigestMutexes c_projectName
           c_sshAuthSock c_Parallel c_localGitRepo c_onTerminateFuncs] in *;
      subst;
      destruct o;
      [ let s := fresh "s" in
        let Hs := fresh "Hs" in
        let Hmut := fresh "Hmut" in
        let Hfree := fresh "Hfree" in
        let Hmiss := fresh "Hmiss" in
        match goal with u : unit |- _ => destruct u end;
        destruct (Hok eq_refl) as (s & Hs & Hmut & Hfree & Hmiss); clear Hok;
        subst
      | clear Hok | clear Hok | clear Hok ];
      cbn beta iota
  end.

Ltac build_step :=
  lazymatch goal with
  | |- twp (buildStage _ _) _ _ => frame_by twp_buildStage_frame
  end.

Ltac twp_run_handler := repeat first [ calc_step | build_step | twp_part | twp_step ].

Section HandlerFacts.
Context {Ext : Type}.
Context {SM : StageMethods Ext} {SS : StagesStorage Ext} {MG : StorageManager Ext}
        {LM : StorageLockManager Ext} {RT : Runtime Ext} {HO : Host Ext}.
#[local] Existing Instance M_ret.
#[local] Existing Instance M_bind.
Abbreviation World := (World Ext).
Abbreviation M := (@M Ext).
Implicit Types (w : World).

Lemma twp_onImageStage_handled w img stg isEmpty :
  twp (onImageStage img stg isEmpty) w (fun o w' evs =>
    (o = Ok tt → ∀ d, mutexHeld w' d = mutexHeld w d) ∧
    (ph_ShouldAddManagedImageRecord (w_phase w') = true →
     ph_ShouldAddManagedImageRecord (w_phase w) = true ∨
     ∃ built opts, EvBuild built opts None ∈ evs) ∧
    (ph_ShouldAddManagedImageRecord (w_phase w) = true →
     ph_ShouldAddManagedImageRecord (w_phase w') = true) ∧
    (o = Ok tt →
     (∃ built opts ans, EvBuild built opts ans ∈ evs) →
     ph_ShouldAddManagedImageRecord (w_phase w') = true) ∧
    (∀ built opts ans,
       EvBuild built opts ans ∈ evs →
       ∃ stages name,
         EvSelectSuitableStage stg stages (Success None) ∈ evs ∧
         EvNewUUID name ∈ evs) ∧
    w_phase w' =
      withShouldAddManagedImageRecord
        (ph_ShouldAddManagedImageRecord (w_phase w')) (w_phase w) ∧
    w_images w' = w_images w).
Proof.
  unfold onImageStage, deferStageDigestMutexUnlock, getPrevNonEmptyStageImageSize.
  destruct isEmpty; cbn iota.
  { apply twp_ret. split; [done|]. split; [by left|]. split; [done|]. split.
    - intros _ (?&?&?&Hin). by apply elem_of_nil in Hin.
    - split; [|split; [by destruct (w_phase w)|done]].
      intros ??? Hin. by apply elem_of_nil in Hin. }
  twp_run_handler.
  all: try match goal with E : id true = false |- _ => discriminate E end.
  all: world_simpl.
  all: split;
    [ first [ intro; discriminate
            | intros _ d;
              match goal with
              | Hf : mutexHeld _ _ = false |- _ =>
                  unfold mutexHeld in Hf |- *; world_simpl; world_simpl_in Hf;
                  apply mutex_restored; exact Hf
              end ] |].
  all: split;
    [ first [ intros Hflag; left; exact Hflag
            | intros _; right;
              match goal with
              | H : Ok ?u = Ok tt → _ |- _ =>
                  destruct u; destruct (H eq_refl) as (built & opts & Hin)
              end;
              exists built, opts; elem_find ] |].
  all: split; [first [intros Hflag; exact Hflag | reflexivity]|].
  all: split;
    [ first [ intro; discriminate
            | intros _ _; reflexivity
            | intros _ (built & opts & ans & Hin); solve [event_cases Hin] ] |].
  all: split; [|split; [by destruct (w_phase w)|reflexivity]].
  all: intros built opts ans Hin; event_cases Hin.
  all: match goal with
       | Hmiss : ∀ r i, _ → _ → _ → _ ∧ _ |- _ =>
           edestruct Hmiss as (_ & stages & name & Hsel & Huuid);
           [first [eassumption|reflexivity]..|]
       end.
  all: exists stages, name; split; elem_find.
Qed.
End HandlerFacts.

Section BuildStageHooks.
Context {Ext : Type}.
Context {SM : StageMethods Ext} {SS : StagesStorage Ext} {MG : StorageManager Ext}
        {LM : StorageLockManager Ext} {RT : Runtime Ext} {HO : Host Ext}.
#[local] Existing Instance M_ret.
#[local] Existing Instance M_bind.
Abbreviation World := (World Ext).
Abbreviation M := (@M Ext).
Implicit Types (w : World).

Lemma quiet_not_atomic (evs : list Event) :
  Forall (λ e, isQuietEvent e = true) evs →
  Forall (λ e, isBuild e = false ∧ isLockEvent e = false ∧
               isStorageEvent e = false) evs.
Proof.
  intros H. eapply Forall_impl; [exact H|].
  intros e He. by destruct e.
Qed.

Lemma twp_buildStage_hooks w img stg :
  twp (buildStage img stg) w (fun o w' evs =>
    (∀ i, w_images w !! img = Some i → img_isDockerfileImage i = true →
          ∀ a, EvGetOrCreateContainer a ∉ evs) ∧
    (∀ e, EvGetOrCreateContainer (Failure e) ∈ evs →
          o = Err ("get or create stapel container failed: " +:+ e) ∧
          evs = [EvGetOrCreateContainer (Failure e)]) ∧
    (∀ e, EvPreRunHook stg (Some e) ∈ evs →
          o ≠ Ok tt ∧
          (∀ e', o = Err e' →
                 ∃ s, w_stages w !! stg = Some s ∧
                      e' = stg_logDetailedName s +:+ " preRunHook failed: " +:+ e) ∧
          Forall (λ e, isBuild e = false ∧ isLockEvent e = false ∧
                       isStorageEvent e = false) evs)).
Proof.
  unfold buildStage, getPrevNonEmptyStageImageSize.
  twp_run_parts; world_simpl.
  all: try no_error.
  all: split; [intros ii Hii Hdf aa Hin; try congruence; event_cases Hin|].
  all: split; [intros ee Hin; event_cases Hin; injection Hin as <-; done|].
  all: intros ee Hin; event_cases Hin; injection Hin as <-.
  all: split; [done|].
  all: split;
    [intros ee' He';
     first [ discriminate He'
           | injection He' as <-; eexists;
             split; [first [eassumption|reflexivity]|reflexivity] ]|].
  all: repeat first [ apply Forall_nil_2 | apply Forall_cons_2; [done|]
                    | apply Forall_app_2; [by apply quiet_not_atomic|]
                    | by apply quiet_not_atomic ].
Qed.

Lemma twp_AfterImageStages_no_stage w img it i :
  ph_StagesIterator (w_phase w) = Some it →
  PrevNonEmptyStage it = None →
  w_images w !! img = Some i →
  twp (AfterImageStages img) w (fun o w' evs =>
    o = Panic nilDeref ∧ evs = [] ∧
    w_images w' = <[img := withLastNonEmptyStage None i]> (w_images w)).
Proof.
  intros Hit Hprev Hi.
  unfold AfterImageStages, addManagedImage, publishImageMetadata,
    Stage_GetContentDigest.
  cbn iota.
  repeat twp_step; world_simpl.
  all: try congruence.
  all: rewrite ?Hprev in *; done.
Qed.

Lemma twp_AfterImageStages_records w img it prev s i :
  ph_StagesIterator (w_phase w) = Some it →
  PrevNonEmptyStage it = Some prev →
  w_stages w !! prev = Some s →
  w_images w !! img = Some i →
  twp (AfterImageStages img) w (fun o w' evs =>
    w_images w' !! img =
      Some (withContentDigest (stg_contentDigest s)
              (withLastNonEmptyStage (Some prev) i)) ∧
    (img_isArtifact i = true → o = Ok tt ∧ evs = []) ∧
    (img_isArtifact i = false →
     ((∃ project name ans, EvAddManagedImage project name ans ∈ evs) ↔
      ph_ShouldAddManagedImageRecord (w_phase w) = true) ∧
     (∀ project name ans,
        EvAddManagedImage project name ans ∈ evs →
        project = c_projectName (w_conveyor w) ∧ name = img_name i) ∧
     (∀ project name e,
        EvAddManagedImage project name (Some e) ∈ evs →
        o = Err ("unable to add image " +:+ strconv_Quote (img_name i) +:+
                 " to the managed images of project " +:+
                 strconv_Quote (c_projectName (w_conveyor w)) +:+ ": " +:+ e) ∧
        Forall (fun e => isMetadataEvent e = false) evs))).
Proof.
  intros Hit Hprev Hs Hi.
  unfold AfterImageStages, addManagedImage, publishImageMetadata,
    Stage_GetContentDigest.
  cbn iota.
  repeat twp_step; world_simpl.
  all: cbn [img_name img_isArtifact withContentDigest withLastNonEmptyStage] in *.
  all: split; [by rewrite lookup_insert_eq|].
  all: split; [intros Hart; first [congruence | done]|].
  all: intros Hart; try congruence.
  all: split;
    [split;
       [ intros (?&?&?&Hin); first [assumption | reflexivity | solve [event_cases Hin]]
       | intros Hflag; first [congruence | do 3 eexists; elem_prove] ]|].
  all: split;
    [intros p n a' Hin; event_cases Hin; inversion Hin; subst; split; reflexivity|].
  all: intros p n e' Hin; event_cases Hin; inversion Hin; subst.
  all: split; [reflexivity|repeat constructor].
Qed.
End BuildStageHooks.

Section DigestChain.
Context {Ext : Type}.
Context {SM : StageMethods Ext} {SS : StagesStorage Ext} {MG : StorageManager Ext}
        {LM : StorageLockManager Ext} {RT : Runtime Ext} {HO : Host Ext}.
#[local] Existing Instance M_ret.
#[local] Existing Instance M_bind.
Abbreviation World := (World Ext).
Abbreviation M := (@M Ext).
Implicit Types (w : World).

Lemma digestFrom_mono w w2 prev name deps (evs evs2 : list Event) v :
  digestFrom w prev name deps evs v →
  w_stages w2 = w_stages w →
  (∀ e, e ∈ evs → e ∈ evs2) →
  digestFrom w2 prev name deps evs2 v.
Proof.
  unfold digestFrom. destruct prev as [p|]; [|done].
  intros (s & next & Hs & Hin & ->) Hst Hsub. rewrite Hst. eauto 10.
Qed.

Lemma twp_calculateDigest_chain w stageName stageDependencies prev :
  twp (calculateDigest stageName stageDependencies prev) w (fun o w' evs =>
    (∃ x, w' = advance x evs w) ∧
    Forall (fun e => isDigestEvent e = true) evs ∧
    (o ≠ Blocked ∧
     ∀ v, o = Ok v → digestFrom w prev stageName stageDependencies evs v)).
Proof.
  unfold calculateDigest, digestFrom.
  destruct prev as [p|].
  - repeat twp_step; simpl; repeat twp_step; world_simpl.
    all: split; [|split; [repeat constructor|split; [done|]]].
    all: try (eexists; apply advance_intro; world_simpl;
              rewrite <- ?app_assoc; reflexivity).
    all: intros v' Hv; try discriminate Hv; injection Hv as <-.
    all: do 2 eexists; split; [reflexivity|split; [elem_prove|reflexivity]].
  - repeat twp_step; simpl; repeat twp_step; world_simpl.
    all: split; [|split; [repeat constructor|split; [done|]]].
    all: try (eexists; apply advance_intro; world_simpl;
              rewrite <- ?app_assoc; reflexivity).
    all: intros v' Hv; try discriminate Hv; injection Hv as <-; reflexivity.
Qed.
End DigestChain.

Ltac chain_step :=
  lazymatch goal with
  | |- twp (calculateDigest _ _ _) _ _ =>
      hide_post;
      eapply twp_mono; [apply twp_calculateDigest_chain|];
      let o := fresh "o" in
      let Hv := fresh "Hv" in
      intros o ? ? ((?&->)&?&?&Hv);
      destruct o; [| | |done];
      [ specialize (Hv _ eq_refl) | clear Hv | clear Hv ];
      cbn beta iota
  end.

Section DigestChain2.
Context {Ext : Type}.
Context {SM : StageMethods Ext} {SS : StagesStorage Ext} {MG : StorageManager Ext}
        {LM : StorageLockManager Ext} {RT : Runtime Ext} {HO : Host Ext}.
#[local] Existing Instance M_ret.
#[local] Existing Instance M_bind.
Abbreviation World := (World Ext).
Abbreviation M := (@M Ext).
Implicit Types (w : World).

Lemma twp_calculateStage_digests w img stg mode :
  twp (calculateStage img stg mode) w (fun o w' evs =>
    o = Ok tt →
    ∃ s it deps next,
      w_stages w' !! stg = Some s ∧
      ph_StagesIterator (w_phase w) = Some it ∧
      EvGetDependencies stg (Success deps) ∈ evs ∧
      digestFrom w (PrevNonEmptyStage it) (stg_name s) deps evs (stg_digest s) ∧
      EvGetNextStageDependencies stg (Success next) ∈ evs ∧
      stg_contentDigest s =
        util_Sha3_224Hash
          [image_BuildCacheVersion; stg_name s +:+ "-content"; "";
           stg_digest s; next] ∧
      ∀ logName d a, EvGetStagesByDigest logName d a ∈ evs → d = stg_digest s).
Proof.
  unfold calculateStage, printShouldBeBuiltError, warnLn, reasonNumberFunc.
  destruct mode; cbn iota.
  all: repeat first [ chain_step | twp_step ]; world_simpl.
  all: try (intro; discriminate).
  all: intros _.
  all: match goal with
       | Hc : digestFrom _ (Some _) _ _ _ _ |- _ =>
           destruct Hc as (sc & next & Hsc & Hnext & Hcv);
           world_simpl_in Hsc; rewrite lookup_insert_eq in Hsc;
           injection Hsc as <-; cbn [stg_digest stg_name] in Hcv
       end.
  all: match goal with
       | Hp : digestFrom _ (PrevNonEmptyStage _) _ _ _ _ |- _ =>
           eexists _, _, _, next;
           split; [by rewrite lookup_insert_eq|];
           split; [first [eassumption|reflexivity]|];
           split; [elem_find|];
           split; [eapply digestFrom_mono;
                     [exact Hp|reflexivity|intros ? ?; elem_find]|];
           split; [elem_find|];
           split; [exact Hcv|]
       end.
  all: intros logName d ans Hin; event_cases Hin; inversion Hin; reflexivity.
Qed.
End DigestChain2.

Section ReportContents.
Context {Ext : Type}.
Context {SM : StageMethods Ext} {SS : StagesStorage Ext} {MG : StorageManager Ext}
        {LM : StorageLockManager Ext} {RT : Runtime Ext} {HO : Host Ext}.
#[local] Existing Instance M_ret.
#[local] Existing Instance M_bind.
Abbreviation World := (World Ext).
Abbreviation M := (@M Ext).
Implicit Types (w : World).

(** The record [createReport] makes for an image. *)
Lemma reportStep_other w m img name :
  (∀ i, w_images w !! img = Some i → img_isArtifact i = false →
        img_name i ≠ name) →
  reportStep w m img !! name = m !! name.
Proof.
  intros Hne. unfold reportStep.
  destruct (w_images w !! img) as [i|] eqn:Hi; [|done].
  destruct (img_isArtifact i) eqn:Ha; [done|].
  destruct (img_lastNonEmptyStage i ≫= boundDescription w); [|done].
  rewrite lookup_insert_ne; [done|]. by apply Hne.
Qed.

Lemma reportLoop_other w imgs m name :
  (∀ img i, img ∈ imgs → w_images w !! img = Some i →
            img_isArtifact i = false → img_name i ≠ name) →
  foldl (reportStep w) m imgs !! name = m !! name.
Proof.
  revert m. induction imgs as [|img imgs IH]; intros m Hne; [done|].
  cbn [foldl]. rewrite IH.
  - apply reportStep_other. intros i Hi Ha.
    exact (Hne img i (list_elem_of_here _ _) Hi Ha).
  - intros img' i' Hin. apply Hne. by right.
Qed.

Lemma reportLoop_record w imgs m name rec :
  (∀ img i, img ∈ imgs → w_images w !! img = Some i →
            img_isArtifact i = false → img_name i = name →
            ∃ last desc, img_lastNonEmptyStage i = Some last ∧
                         boundDescription w last = Some desc ∧
                         rec = reportRecord desc) →
  (m !! name = Some rec ∨
   ∃ img i, img ∈ imgs ∧ w_images w !! img = Some i ∧
            img_isArtifact i = false ∧ img_name i = name) →
  foldl (reportStep w) m imgs !! name = Some rec.
Proof.
  revert m. induction imgs as [|img imgs IH]; intros m Hrec Hsrc.
  - destruct Hsrc as [H|(? & ? & Hin & _)]; [done|]. by apply elem_of_nil in Hin.
  - cbn [foldl]. apply IH.
    + intros img' i' Hin. apply Hrec. by right.
    + assert (Hstep : ∀ i, w_images w !! img = Some i → img_isArtifact i = false →
                img_name i = name → reportStep w m img !! name = Some rec).
      { intros i Hi Ha Hn.
        pose proof (Hrec img i (list_elem_of_here _ _) Hi Ha Hn)
          as (last & desc & Hl & Hd & ->).
        unfold reportStep. rewrite Hi, Ha, Hl. cbn. rewrite Hd, <- Hn.
        by rewrite lookup_insert_eq. }
      destruct Hsrc as [Hm|(img' & i' & Hin & Hi' & Ha' & Hn')].
      * left. destruct (w_images w !! img) as [i|] eqn:Hi.
        -- destruct (img_isArtifact i) eqn:Ha;
             [rewrite reportStep_other; [done|]; intros; congruence|].
           destruct (decide (img_name i = name)) as [Hn|Hn];
             [by apply (Hstep i)|].
           rewrite reportStep_other; [done|]. intros; congruence.
        -- rewrite reportStep_other; [done|]. intros; congruence.
      * apply elem_of_cons in Hin as [->|Hin].
        -- left. by apply (Hstep i').
        -- right. eauto 10.
Qed.

Lemma ImageStageShouldBeIntrospected_spec opts imageName stageName :
  ImageStageShouldBeIntrospected opts imageName stageName = true ↔
  ∃ t, t ∈ Targets opts ∧
       (it_ImageName t = "*" ∨ it_ImageName t = imageName) ∧
       it_StageName t = stageName.
Proof.
  unfold ImageStageShouldBeIntrospected. rewrite existsb_exists. split.
  - intros (t & Hin & Ht). exists t. apply list_elem_of_In in Hin.
    apply andb_true_iff in Ht as [Hi Hs]. apply orb_true_iff in Hi.
    apply bool_decide_eq_true in Hs.
    split; [done|]. split; [|done].
    destruct Hi as [Hi|Hi]; apply bool_decide_eq_true in Hi; auto.
  - intros (t & Hin & Hi & Hs). exists t. apply list_elem_of_In in Hin.
    split; [done|]. apply andb_true_iff. split.
    + apply orb_true_iff. destruct Hi; [left|right]; by apply bool_decide_eq_true.
    + by apply bool_decide_eq_true.
Qed.
End ReportContents.

Section ReadOnly.
Context {Ext : Type}.
Context {SM : StageMethods Ext} {SS : StagesStorage Ext} {MG : StorageManager Ext}
        {LM : StorageLockManager Ext} {RT : Runtime Ext} {HO : Host Ext}.
#[local] Existing Instance M_ret.
#[local] Existing Instance M_bind.
Abbreviation World := (World Ext).
Abbreviation M := (@M Ext).
Implicit Types (w : World).

Lemma digestEvents_read_only (evs : list Event) :
  Forall (λ e, isDigestEvent e = true) evs →
  Forall (λ e, isBuild e = false ∧ isNewUUID e = false ∧
               isPublishEvent e = false ∧ isLockEvent e = false) evs.
Proof.
  intros H. eapply Forall_impl; [exact H|].
  intros e He. by destruct e.
Qed.

Lemma twp_onImageStage_shouldBeBuilt_read_only w img stg isEmpty :
  ShouldBeBuiltMode (w_phase w) = true →
  twp (onImageStage img stg isEmpty) w (fun o w' evs =>
    Forall (λ e, isBuild e = false ∧ isNewUUID e = false ∧
                 isPublishEvent e = false ∧ isLockEvent e = false) evs ∧
    w_phase w' = w_phase w ∧ w_images w' = w_images w).
Proof.
  intros Hmode.
  unfold onImageStage, calculateStage, printShouldBeBuiltError, warnLn,
    reasonNumberFunc, deferStageDigestMutexUnlock.
  destruct isEmpty; cbn iota.
  { apply twp_ret. split; [constructor|done]. }
  repeat first [ twp_calculateDigest_step | twp_step ]; world_simpl.
  all: split; [|done].
  all: repeat first [ apply Forall_nil_2 | apply Forall_cons_2; [done|]
                    | by apply digestEvents_read_only
                    | apply Forall_app_2 ].
Qed.

Lemma twp_AfterImageStages_phase w img :
  twp (AfterImageStages img) w (fun o w' evs =>
    w_phase w' = w_phase w ∧ o ≠ Blocked).
Proof.
  unfold AfterImageStages, addManagedImage, publishImageMetadata,
    Stage_GetContentDigest.
  cbn iota.
  repeat twp_step; world_simpl.
  all: done.
Qed.

End ReadOnly.

Section ByteCountFacts.
Import ByteCount.

Lemma int64_id z : (- 2 ^ 63 <= z < 2 ^ 63)%Z → int64 z = z.
Proof.
  intros Hz. unfold int64.
  rewrite Z.mod_small; lia.
Qed.

Lemma loop_scale n div exp b :
  (1 <= n)%Z →
  div = (1024 ^ (Z.of_nat exp + 1))%Z →
  (div * n <= b < div * (n + 1))%Z →
  (b < 2 ^ 63)%Z →
  (loop n div exp).1 = (1024 ^ (Z.of_nat (loop n div exp).2 + 1))%Z ∧
  ((loop n div exp).1 <= b < 1024 * (loop n div exp).1)%Z ∧
  ((loop n div exp).2 ≤ 5)%nat.
Proof.
  funelim (loop n div exp); intros Hn Hdiv Hb Hmax; clear Heqcall.
  - unfold unit in *.
    assert (0 < div)%Z by (subst div; apply Z.pow_pos_nonneg; lia).
    assert (Hq : (n = 1024 * (n `quot` 1024) + n `rem` 1024)%Z)
      by (apply Z.quot_rem'; lia).
    assert (0 <= n `rem` 1024 < 1024)%Z by (apply Z.rem_bound_pos; lia).
    assert (1 <= n `quot` 1024)%Z by lia.
    assert (Hw : int64 (div * 1024) = (div * 1024)%Z) by (apply int64_id; nia).
    rewrite Hw in *.
    apply H; try lia; try nia.
    rewrite Hdiv. rewrite Nat2Z.inj_succ.
    replace (Z.succ (Z.of_nat exp) + 1)%Z with (Z.succ (Z.of_nat exp + 1)) by lia.
    rewrite Z.pow_succ_r by lia. lia.
  - unfold unit in *. simpl.
    assert (0 < div)%Z by (subst div; apply Z.pow_pos_nonneg; lia).
    split; [done|]. split; [nia|].
    destruct (decide (exp ≤ 5)%nat) as [|Hexp]; [done|]. exfalso.
    assert (1024 ^ 7 <= div)%Z; [|nia].
    subst div. apply Z.pow_le_mono_r; lia.
Qed.
End ByteCountFacts.

Section MoreProperties.
Context {Ext : Type}.
Context {SM : StageMethods Ext} {SS : StagesStorage Ext} {MG : StorageManager Ext}
        {LM : StorageLockManager Ext} {RT : Runtime Ext} {HO : Host Ext}.
#[local] Existing Instance M_ret.
#[local] Existing Instance M_bind.
Abbreviation World := (World Ext).
Abbreviation M := (@M Ext).
Implicit Types (w : World).


(** X2: the steps that publish an image come in one order: the unique id
    is generated, then the image is stored, and the cache of stages by
    digest is written only after a store that succeeded; each step is
    made at most once. *)
Theorem atomicBuildStageImage_publish_order w img stg :
  publishOrder
    (List.filter isPublishEvent (eventsOf (atomicBuildStageImage img stg) w)) = true.
Proof.
  exact (proj1 (proj2 (twp_eventsOf _ _ _
                         (twp_atomicBuildStageImage_protocol w img stg)))).
Qed.

(** X3: when the build of the image fails, atomicBuildStageImage returns
    the error "failed to build image for stage <name> with digest
    <digest>: <cause>" and takes no lock and calls the storage not at
    all. *)
Theorem atomicBuildStageImage_build_failure w img stg built opts e :
  EvBuild built opts (Some e) ∈ eventsOf (atomicBuildStageImage img stg) w →
  Forall (fun e => isLockEvent e = false ∧ isStorageEvent e = false)
         (eventsOf (atomicBuildStageImage img stg) w) ∧
  ∃ s, w_stages w !! stg = Some s ∧
       (atomicBuildStageImage img stg w).1 =
       Err ("failed to build image for stage " +:+ stg_name s +:+
            " with digest " +:+ stg_digest s +:+ ": " +:+ e).
Proof.
  intros Hin.
  exact (proj2 (proj2 (twp_eventsOf _ _ _
                         (twp_atomicBuildStageImage_protocol w img stg)))
           built opts e Hin).
Qed.

(** X4: when the handler of a stage returns nil, every mutex of a digest
    is in the state it had before: the mutex the handler took is
    released. *)
Theorem onImageStage_releases_mutex w img stg isEmpty :
  (onImageStage img stg isEmpty w).1 = Ok tt →
  ∀ digest, mutexHeld (onImageStage img stg isEmpty w).2 digest =
            mutexHeld w digest.
Proof.
  exact (proj1 (twp_eventsOf _ _ _ (twp_onImageStage_handled w img stg isEmpty))).
Qed.

(** X5: the handler of a stage changes nothing of the phase but the flag
    ShouldAddManagedImageRecord, and nothing of the images.  The flag is
    never cleared; it is set only in a run whose build succeeded, and a
    handler that built and returns nil has set it. *)
Theorem onImageStage_managed_image_flag w img stg isEmpty :
  w_phase (onImageStage img stg isEmpty w).2 =
    withShouldAddManagedImageRecord
      (ph_ShouldAddManagedImageRecord (w_phase (onImageStage img stg isEmpty w).2))
      (w_phase w) ∧
  w_images (onImageStage img stg isEmpty w).2 = w_images w ∧
  (ph_ShouldAddManagedImageRecord (w_phase w) = true →
   ph_ShouldAddManagedImageRecord (w_phase (onImageStage img stg isEmpty w).2)
     = true) ∧
  (ph_ShouldAddManagedImageRecord (w_phase (onImageStage img stg isEmpty w).2)
     = true →
   ph_ShouldAddManagedImageRecord (w_phase w) = true ∨
   ∃ built opts,
     EvBuild built opts None ∈ eventsOf (onImageStage img stg isEmpty) w) ∧
  ((onImageStage img stg isEmpty w).1 = Ok tt →
   (∃ built opts ans,
      EvBuild built opts ans ∈ eventsOf (onImageStage img stg isEmpty) w) →
   ph_ShouldAddManagedImageRecord (w_phase (onImageStage img stg isEmpty w).2)
     = true).
Proof.
  destruct (twp_eventsOf _ _ _ (twp_onImageStage_handled w img stg isEmpty))
    as (_ & Hset & Hkeep & Hbuilt & _ & Hphase & Himages).
  split; [exact Hphase|]. split; [exact Himages|].
  split; [exact Hkeep|]. split; [exact Hset|exact Hbuilt].
Qed.


(** X7: buildStage asks for no stapel container for a Dockerfile image;
    when the container cannot be had it returns "get or create stapel
    container failed: <cause>" having done nothing else; when the
    pre-run hook of the stage fails it does not return nil, the error it
    returns is "<stage> preRunHook failed: <cause>", and it neither
    builds nor locks nor calls the storage. *)
Theorem buildStage_hooks w img stg :
  (∀ i, w_images w !! img = Some i → img_isDockerfileImage i = true →
        ∀ a, EvGetOrCreateContainer a ∉ eventsOf (buildStage img stg) w) ∧
  (∀ e, EvGetOrCreateContainer (Failure e) ∈ eventsOf (buildStage img stg) w →
        (buildStage img stg w).1 =
          Err ("get or create stapel container failed: " +:+ e) ∧
        eventsOf (buildStage img stg) w = [EvGetOrCreateContainer (Failure e)]) ∧
  (∀ e, EvPreRunHook stg (Some e) ∈ eventsOf (buildStage img stg) w →
        (buildStage img stg w).1 ≠ Ok tt ∧
        (∀ e', (buildStage img stg w).1 = Err e' →
               ∃ s, w_stages w !! stg = Some s ∧
                    e' = stg_logDetailedName s +:+ " preRunHook failed: " +:+ e) ∧
        Forall (λ e, isBuild e = false ∧ isLockEvent e = false ∧
                     isStorageEvent e = false)
               (eventsOf (buildStage img stg) w)).
Proof.
  exact (twp_eventsOf _ _ _ (twp_buildStage_hooks w img stg)).
Qed.

(** X8: AfterImageStages records in the image the last non-empty stage of
    the iterator and the content digest of that stage.  For an artifact
    it then returns nil and calls nothing.  For another image it adds
    the image to the managed images of the project exactly when the flag
    ShouldAddManagedImageRecord is set, under the project's name and the
    image's name; when that fails it returns "unable to add image <name>
    to the managed images of project <project>: <cause>" and does not
    touch the image metadata. *)
Theorem AfterImageStages_records w img it prev s i :
  ph_StagesIterator (w_phase w) = Some it →
  PrevNonEmptyStage it = Some prev →
  w_stages w !! prev = Some s →
  w_images w !! img = Some i →
  w_images (AfterImageStages img w).2 !! img =
    Some (withContentDigest (stg_contentDigest s)
            (withLastNonEmptyStage (Some prev) i)) ∧
  (img_isArtifact i = true →
   (AfterImageStages img w).1 = Ok tt ∧ eventsOf (AfterImageStages img) w = []) ∧
  (img_isArtifact i = false →
   ((∃ project name ans,
       EvAddManagedImage project name ans ∈ eventsOf (AfterImageStages img) w) ↔
    ph_ShouldAddManagedImageRecord (w_phase w) = true) ∧
   (∀ project name ans,
      EvAddManagedImage project name ans ∈ eventsOf (AfterImageStages img) w →
      project = c_projectName (w_conveyor w) ∧ name = img_name i) ∧
   (∀ project name e,
      EvAddManagedImage project name (Some e)
        ∈ eventsOf (AfterImageStages img) w →
      (AfterImageStages img w).1 =
        Err ("unable to add image " +:+ strconv_Quote (img_name i) +:+
             " to the managed images of project " +:+
             strconv_Quote (c_projectName (w_conveyor w)) +:+ ": " +:+ e) ∧
      Forall (fun e => isMetadataEvent e = false)
             (eventsOf (AfterImageStages img) w))).
Proof.
  intros Hit Hprev Hs Hi.
  exact (twp_eventsOf _ _ _ (twp_AfterImageStages_records w img it prev s i
                               Hit Hprev Hs Hi)).
Qed.

(** X9: for an image none of whose stages was non-empty AfterImageStages
    dereferences the nil stage: it panics after it set the last non-empty
    stage of the image to nil, and calls nothing. *)
Theorem AfterImageStages_without_stage w img it i :
  ph_StagesIterator (w_phase w) = Some it →
  PrevNonEmptyStage it = None →
  w_images w !! img = Some i →
  (AfterImageStages img w).1 = Panic nilDeref ∧
  eventsOf (AfterImageStages img) w = [] ∧
  w_images (AfterImageStages img w).2 =
    <[img := withLastNonEmptyStage None i]> (w_images w).
Proof.
  intros Hit Hprev Hi.
  exact (twp_eventsOf _ _ _ (twp_AfterImageStages_no_stage w img it i
                               Hit Hprev Hi)).
Qed.

(** X10: in ShouldBeBuiltMode the handler of a stage only reads: it
    builds nothing, draws no fresh name, takes no lock of the storage,
    stores nothing and writes no cache, and leaves the phase and the
    images as they were. *)
Theorem onImageStage_shouldBeBuilt_read_only w img stg isEmpty :
  ShouldBeBuiltMode (w_phase w) = true →
  Forall (λ e, isBuild e = false ∧ isNewUUID e = false ∧
               isPublishEvent e = false ∧ isLockEvent e = false)
         (eventsOf (onImageStage img stg isEmpty) w) ∧
  w_phase (onImageStage img stg isEmpty w).2 = w_phase w ∧
  w_images (onImageStage img stg isEmpty w).2 = w_images w.
Proof.
  intros Hmode.
  exact (twp_eventsOf _ _ _
           (twp_onImageStage_shouldBeBuilt_read_only w img stg isEmpty Hmode)).
Qed.

(** X11: when calculateStage returns nil, the digest of the stage is the
    hash of the cache version, the stage name, the dependencies the
    stage answered and, after a non-empty stage, that stage's digest and
    next-stage dependencies; the content digest is the hash of the cache
    version, "<name>-content", the empty string, the digest and the
    stage's own next-stage dependencies; and the storage was asked for
    the stages of this digest only. *)
Theorem calculateStage_digests w img stg mode :
  (calculateStage img stg mode w).1 = Ok tt →
  ∃ s it deps next,
    w_stages (calculateStage img stg mode w).2 !! stg = Some s ∧
    ph_StagesIterator (w_phase w) = Some it ∧
    EvGetDependencies stg (Success deps)
      ∈ eventsOf (calculateStage img stg mode) w ∧
    digestFrom w (PrevNonEmptyStage it) (stg_name s) deps
               (eventsOf (calculateStage img stg mode) w) (stg_digest s) ∧
    EvGetNextStageDependencies stg (Success next)
      ∈ eventsOf (calculateStage img stg mode) w ∧
    stg_contentDigest s =
      util_Sha3_224Hash
        [image_BuildCacheVersion; stg_name s +:+ "-content"; "";
         stg_digest s; next] ∧
    ∀ logName d a,
      EvGetStagesByDigest logName d a
        ∈ eventsOf (calculateStage img stg mode) w →
      d = stg_digest s.
Proof.
  exact (twp_eventsOf _ _ _ (twp_calculateStage_digests w img stg mode)).
Qed.

(** X12: the report [createReport] leaves holds, under the name of an
    image that is not an artifact and is the only such image of its
    name, the record of the description of the image's last non-empty
    stage: its name, repository, tag and id. *)
Theorem createReport_record w img i last desc :
  reportable w →
  img ∈ c_images (w_conveyor w) →
  w_images w !! img = Some i →
  img_isArtifact i = false →
  img_lastNonEmptyStage i = Some last →
  boundDescription w last = Some desc →
  (∀ img' i', img' ∈ c_images (w_conveyor w) → w_images w !! img' = Some i' →
              img_isArtifact i' = false → img_name i' = img_name i → img' = img) →
  Images (ph_ImagesReport (w_phase (createReport w).2)) !! img_name i =
    Some (mkReportImageRecord (info_Name (sd_Info desc))
                              (info_Repository (sd_Info desc))
                              (info_Tag (sd_Info desc))
                              (info_ID (sd_Info desc))).
Proof.
  intros Hrep Hin Hi Hart Hlast Hdesc Huniq.
  rewrite createReport_report by done.
  apply reportLoop_record.
  - intros img' i' Hin' Hi' Hart' Hname.
    rewrite (Huniq img' i' Hin' Hi' Hart' Hname) in Hi'.
    rewrite Hi in Hi'. injection Hi' as <-.
    exists last, desc. done.
  - right. exists img, i. done.
Qed.

(** X13: the hooks of the phase leave its fields ReportPath and
    ReportFormat, and its options, as they are: BeforeImageStages, the
    handler of a stage and AfterImageStages assign none of them. *)
Theorem phase_report_fields_kept w img stg isEmpty :
  (ph_ReportPath (w_phase (BeforeImageStages img w).2) = ph_ReportPath (w_phase w) ∧
   ph_ReportFormat (w_phase (BeforeImageStages img w).2) =
     ph_ReportFormat (w_phase w) ∧
   ph_BuildPhaseOptions (w_phase (BeforeImageStages img w).2) =
     ph_BuildPhaseOptions (w_phase w)) ∧
  (ph_ReportPath (w_phase (onImageStage img stg isEmpty w).2) =
     ph_ReportPath (w_phase w) ∧
   ph_ReportFormat (w_phase (onImageStage img stg isEmpty w).2) =
     ph_ReportFormat (w_phase w) ∧
   ph_BuildPhaseOptions (w_phase (onImageStage img stg isEmpty w).2) =
     ph_BuildPhaseOptions (w_phase w)) ∧
  w_phase (AfterImageStages img w).2 = w_phase w.
Proof.
  split; [done|]. split.
  - destruct (twp_eventsOf _ _ _ (twp_onImageStage_handled w img stg isEmpty))
      as (_ & _ & _ & _ & _ & Hphase & _).
    rewrite Hphase. done.
  - exact (proj1 (twp_eventsOf _ _ _ (twp_AfterImageStages_phase w img))).
Qed.
End MoreProperties.

Section MoreByteCountFacts.
Import ByteCount.
Variable fmt_Sprintf_1f : Z -> Z -> string.

Lemma unit_letter (exp : nat) :
  (exp ≤ 5)%nat → ∃ c, String.get exp "KMGTPE" = Some c.
Proof.
  intros H.
  do 6 (destruct exp as [|exp]; [eexists; reflexivity|]). lia.
Qed.

(** X16: for every 64-bit count below 1024 byteCountBinary prints the
    count and " B"; for every other one it scales by the largest power
    of 1024 that is at most the count, named by one of the six letters
    K, M, G, T, P, E: the index into the letters is never out of range
    and the multiplications never overflow. *)
Theorem byteCountBinary_scale (b : Z) :
  (b < 2 ^ 63)%Z →
  ((b < 1024)%Z →
   byteCountBinary fmt_Sprintf_1f b = Ok (pretty b +:+ " B")) ∧
  ((1024 <= b)%Z →
   ∃ (exp : nat) c,
     (exp ≤ 5)%nat ∧ String.get exp "KMGTPE" = Some c ∧
     (1024 ^ (Z.of_nat exp + 1) <= b < 1024 * 1024 ^ (Z.of_nat exp + 1))%Z ∧
     byteCountBinary fmt_Sprintf_1f b =
       Ok (fmt_Sprintf_1f b (1024 ^ (Z.of_nat exp + 1))%Z +:+ " " +:+
           String c "iB")).
Proof.
  intros Hmax. unfold byteCountBinary, unit. split; intros Hb.
  - destruct (decide (b < 1024)%Z); [done|lia].
  - destruct (decide (b < 1024)%Z); [lia|].
    assert (Hq : (b = 1024 * (b `quot` 1024) + b `rem` 1024)%Z)
      by (apply Z.quot_rem'; lia).
    assert (0 <= b `rem` 1024 < 1024)%Z by (apply Z.rem_bound_pos; lia).
    destruct (loop_scale (b `quot` 1024) 1024 0 b) as (Hdiv & Hrange & Hexp);
      [lia|done|lia|done|].
    destruct (loop (b `quot` 1024) 1024 0) as [div exp]. cbn [fst snd] in *.
    destruct (unit_letter exp Hexp) as [c Hc].
    exists exp, c. rewrite Hc, <- Hdiv. done.
Qed.
End MoreByteCountFacts.


End BuildFacts.

(** ** The properties on the scenario *)

Module Witnesses.
Import Go Build Scenario BuildFacts.

Ltac elem_of_run := vm_compute; elem_prove.

Lemma builtWorld_reportable path format : reportable (builtWorld path format).
Proof.
  intros img Hin.
  apply elem_of_cons in Hin as [->|Hin];
    [|apply elem_of_cons in Hin as [->|Hin]; [|by apply elem_of_nil in Hin]].
  - exists app. split; [reflexivity|]. intros _.
    exists 0, storedDesc. split; reflexivity.
  - exists tools. split; [reflexivity|]. intros H. discriminate H.
Qed.

Lemma world_registryValid stored shouldBeBuilt :
  registryValid (world stored shouldBeBuilt).
Proof.
  intros name r H. change (({["uuid-1" := 0]} : gmap string ref) !! name = Some r) in H.
  apply lookup_singleton_Some in H as [_ <-].
  by exists installImage.
Qed.

Lemma calculateDigest_inputs_witness :
  (calculateDigest "layers" "deps" (Some 0) (world false false)).1 =
  Ok (util_Sha3_224Hash [image_BuildCacheVersion; "layers"; "deps"; "d1"; "next"]).
Proof.
  apply (calculateDigest_inputs (world false false) "layers" "deps" (Some 0)
           (Some ("d1", "next"))).
  exists install, "next". split; [reflexivity|]. split; reflexivity.
Defined.

Lemma atomicBuildStageImage_discards_on_lost_race_witness :
  (atomicBuildStageImage 0 0 (world true false)).1 = Ok tt ∧
  boundDescription (atomicBuildStageImage 0 0 (world true false)).2 0 =
    Some storedDesc ∧
  reboundTo (world true false) (atomicBuildStageImage 0 0 (world true false)).2
            0 0 storedDesc ∧
  ∃ lock ans,
    [EvBuild 0 "" None; EvLockStage "demo" "d1" (Success lock);
     EvGetStagesByDigest "app/install" "d1" (Success [storedDesc]);
     EvSelectSuitableStage 0 [storedDesc] (Success (Some storedDesc))]
      `sublist_of` eventsOf (atomicBuildStageImage 0 0) (world true false) ∧
    last (eventsOf (atomicBuildStageImage 0 0) (world true false)) =
      Some (EvUnlockStage lock ans).
Proof.
  destruct (atomicBuildStageImage_discards_on_lost_race
              (world true false) 0 0 [storedDesc] storedDesc)
    as (Ho & Hb & Hr & _ & s & built & lock & ans & Hs & Hi & Hord & Hlast).
  - apply world_registryValid.
  - intros w0 t H. discriminate H.
  - elem_of_run.
  - injection Hs as <-. injection Hi as <-.
    split; [exact Ho|]. split; [exact Hb|]. split; [exact Hr|].
    exists lock, ans. split; [exact Hord|exact Hlast].
Defined.

(** The discarding run on the scenario: the stage leaves image 0, just
    built and still registered as "uuid-1" without a description, for the
    new object 1 registered under the name of the stored stage. *)
Example atomicBuildStageImage_discard_run :
  stg_image <$> w_stages (atomicBuildStageImage 0 0 (world true false)).2 !! 0 =
    Some (Some 1) ∧
  c_stageImages (w_conveyor (atomicBuildStageImage 0 0 (world true false)).2)
    !! "repo:d1-1" = Some 1 ∧
  w_stageImages (atomicBuildStageImage 0 0 (world true false)).2 !! 1 =
    Some storedImage ∧
  w_stageImages (atomicBuildStageImage 0 0 (world true false)).2 !! 0 =
    Some installImage.
Proof. repeat split; vm_compute; reflexivity. Qed.

Lemma onImageStage_leaves_mutex_locked_witness :
  (onImageStage 0 0 false (world false true)).1 = Err "stages required" ∧
  ∃ s, w_stages (onImageStage 0 0 false (world false true)).2 !! 0 = Some s ∧
       mutexHeld (world false true) (stg_digest s) = false ∧
       mutexHeld (onImageStage 0 0 false (world false true)).2 (stg_digest s) = true.
Proof.
  apply (onImageStage_leaves_mutex_locked (world false true) 0 0 app []).
  - reflexivity.
  - reflexivity.
  - elem_of_run.
Defined.

Lemma onImageStage_shouldBeBuilt_miss_witness :
  (onImageStage 0 0 false (world false true)).1 = Err "stages required" ∧
  Forall (fun e => isNewUUID e = false ∧ isBuild e = false)
         (eventsOf (onImageStage 0 0 false) (world false true)).
Proof.
  destruct (onImageStage_shouldBeBuilt_miss (world false true) 0 0 app [])
    as (Ho & Hev & _).
  - reflexivity.
  - reflexivity.
  - elem_of_run.
  - split; [exact Ho|exact Hev].
Defined.

Lemma atomicBuildStageImage_cache_stageIDs_witness :
  ∃ name ans,
    EvAtomicStoreStagesByDigestToCache
      name "d1" [sd_StageID storedDesc; sd_StageID builtDesc] ans
      ∈ eventsOf (atomicBuildStageImage (MG := pickyManager) 0 0)
                 (world false false).
Proof.
  destruct (atomicBuildStageImage_cache_stageIDs (MG := pickyManager)
              (world false false) 0 0)
    as [_ Hpub].
  - exists install, 0, installImage. repeat split; reflexivity.
  - apply (Hpub [storedDesc] 0 "demo" "d1" 7%Z builtDesc); elem_of_run.
Defined.

Lemma createReport_skips_artifacts_witness :
  is_Some (Images (ph_ImagesReport
                     (w_phase (createReport (builtWorld "" "")).2)) !! "tools") ↔
  is_Some (Images (ph_ImagesReport (w_phase (builtWorld "" ""))) !! "tools") ∨
  ∃ img i, img ∈ c_images (w_conveyor (builtWorld "" "")) ∧
           w_images (builtWorld "" "") !! img = Some i ∧
           img_isArtifact i = false ∧ img_name i = "tools".
Proof.
  apply (createReport_skips_artifacts (builtWorld "" "") "tools").
  apply builtWorld_reportable.
Defined.

Lemma reportWorld_reportable : reportable reportWorld.
Proof. exact (builtWorld_reportable "" ""). Qed.

Lemma createReport_configured_report_not_written_witness :
  bo_ReportPath (bpo_BuildOptions (ph_BuildPhaseOptions (w_phase reportWorld)))
    ≠ "" ∧
  bo_ReportFormat (bpo_BuildOptions (ph_BuildPhaseOptions (w_phase reportWorld)))
    = "json" ∧
  List.filter isWriteFile (eventsOf createReport reportWorld) = [].
Proof.
  apply (createReport_configured_report_not_written
           reportWorld reportOptions
           (Some (mkStagesIterator (Some 0) (Some 0))) false (mkImagesReport ∅)).
  - apply reportWorld_reportable.
  - intros H. discriminate H.
  - reflexivity.
  - reflexivity.
Defined.

Lemma publishImageMetadata_frame_witness :
  (publishImageMetadata 0 (builtWorld "" "") = (Ok tt, builtWorld "" "") ∧
   Forall (fun e => isMetadataEvent e = false)
          (eventsOf (AfterImageStages 0) (builtWorld "" ""))) ∧
  (EvHeadCommit (Success "c0ffee") ∈ eventsOf (publishImageMetadata 0) repoWorld ∧
   stageIDDuring repoWorld 0 "d1-1" ∧
   ∃ s' a, EvPutImageMetadata "demo" "app" "c0ffee" s' a
             ∈ eventsOf (publishImageMetadata 0) repoWorld ∧
           stageIDDuring repoWorld 0 s').
Proof.
  split.
  - apply (proj1 (publishImageMetadata_frame (builtWorld "" "") 0)).
    reflexivity.
  - destruct (proj2 (proj2 (publishImageMetadata_frame repoWorld 0))
                0 app eq_refl eq_refl) as (_ & _ & Habsent & _).
    destruct (Habsent "demo" "app" "c0ffee" "d1-1") as (_ & _ & Hhead & Hid & Hput).
    + elem_of_run.
    + split; [exact Hhead|]. split; [exact Hid|exact Hput].
Defined.

(** The sleeps of a pull that fails six times, for the raw draws 14 to 18:
    the largest value [rand.Intn] can return gives 29 seconds. *)
Example doCliPullWithRetries_run :
  Docker.sleeps (Docker.trace
            (Docker.doCliPullWithRetries flakyPull draw ["alpine"]
               (Docker.mkWorld 14 [])).2) = [29; 15; 16; 17; 18] ∧
  Docker.pulls (Docker.trace
                  (Docker.doCliPullWithRetries flakyPull draw ["alpine"]
                     (Docker.mkWorld 14 [])).2) = 6.
Proof. split; vm_compute; reflexivity. Qed.

(** The handler of the scenario's stage leaves the mutex of the digest
    held. *)
Example onImageStage_mutex_run :
  (onImageStage 0 0 false (world false true)).1 = Err "stages required" ∧
  mutexHeld (onImageStage 0 0 false (world false true)).2 "1.2|install|deps" = true.
Proof. split; vm_compute; reflexivity. Qed.

End Witnesses.

Module MoreWitnesses.
Import Go Build Scenario MoreScenarios BuildFacts Witnesses.

Lemma atomicBuildStageImage_build_failure_witness :
  Forall (fun e => isLockEvent e = false ∧ isStorageEvent e = false)
         (eventsOf (atomicBuildStageImage (RT := brokenRuntime) 0 0)
                   (world false false)) ∧
  ∃ s, w_stages (world false false) !! 0 = Some s ∧
       (atomicBuildStageImage (RT := brokenRuntime) 0 0 (world false false)).1 =
       Err ("failed to build image for stage " +:+ stg_name s +:+
            " with digest " +:+ stg_digest s +:+ ": " +:+ "exit status 1").
Proof.
  apply (atomicBuildStageImage_build_failure (RT := brokenRuntime)
           (world false false) 0 0 0 "" "exit status 1").
  elem_of_run.
Defined.

Lemma onImageStage_releases_mutex_witness :
  (onImageStage 0 0 false (handledWorld true)).1 = Ok tt ∧
  stg_digest <$> w_stages (onImageStage 0 0 false (handledWorld true)).2 !! 0 =
    Some "1.2|install|deps|d1|next" ∧
  mutexHeld (onImageStage 0 0 false (handledWorld true)).2
            "1.2|install|deps|d1|next" =
  mutexHeld (handledWorld true) "1.2|install|deps|d1|next".
Proof.
  assert (Hrun : (onImageStage 0 0 false (handledWorld true)).1 = Ok tt)
    by (vm_compute; reflexivity).
  split; [exact Hrun|]. split; [vm_compute; reflexivity|].
  exact (onImageStage_releases_mutex (handledWorld true) 0 0 false Hrun
           "1.2|install|deps|d1|next").
Defined.


Lemma AfterImageStages_records_witness :
  w_images (AfterImageStages 0 (builtWorld "" "")).2 !! 0 =
    Some (withContentDigest "" (withLastNonEmptyStage (Some 0) app)) ∧
  ∃ ans, EvAddManagedImage "demo" "app" ans
           ∈ eventsOf (AfterImageStages 0) (builtWorld "" "").
Proof.
  destruct (AfterImageStages_records (builtWorld "" "") 0
              (mkStagesIterator (Some 0) (Some 0)) 0 install app)
    as (Hrec & _ & Hadd); [reflexivity..|].
  split; [exact Hrec|].
  destruct (Hadd eq_refl) as ([_ Hflag] & Hargs & _).
  destruct (Hflag eq_refl) as (project & name & ans & Hin).
  destruct (Hargs project name ans Hin) as [-> ->].
  exists ans. exact Hin.
Defined.

Lemma AfterImageStages_without_stage_witness :
  (AfterImageStages 0 (world false false)).1 = Panic nilDeref ∧
  eventsOf (AfterImageStages 0) (world false false) = [] ∧
  w_images (AfterImageStages 0 (world false false)).2 =
    <[0 := withLastNonEmptyStage None app]> (w_images (world false false)).
Proof.
  apply (AfterImageStages_without_stage (world false false) 0 NewStagesIterator app);
    reflexivity.
Defined.

Lemma onImageStage_shouldBeBuilt_read_only_witness :
  Forall (λ e, isBuild e = false ∧ isNewUUID e = false ∧
               isPublishEvent e = false ∧ isLockEvent e = false)
         (eventsOf (onImageStage 0 0 false) (world true true)) ∧
  w_phase (onImageStage 0 0 false (world true true)).2 = w_phase (world true true) ∧
  w_images (onImageStage 0 0 false (world true true)).2 =
    w_images (world true true).
Proof.
  apply (onImageStage_shouldBeBuilt_read_only (world true true) 0 0 false).
  reflexivity.
Defined.

Lemma calculateStage_digests_witness :
  ∃ s it deps next,
    w_stages (calculateStage 0 0 false (handledWorld true)).2 !! 0 = Some s ∧
    ph_StagesIterator (w_phase (handledWorld true)) = Some it ∧
    EvGetDependencies 0 (Success deps)
      ∈ eventsOf (calculateStage 0 0 false) (handledWorld true) ∧
    digestFrom (handledWorld true) (PrevNonEmptyStage it) (stg_name s) deps
               (eventsOf (calculateStage 0 0 false) (handledWorld true))
               (stg_digest s) ∧
    EvGetNextStageDependencies 0 (Success next)
      ∈ eventsOf (calculateStage 0 0 false) (handledWorld true) ∧
    stg_contentDigest s =
      util_Sha3_224Hash
        [image_BuildCacheVersion; stg_name s +:+ "-content"; "";
         stg_digest s; next] ∧
    ∀ logName d a,
      EvGetStagesByDigest logName d a
        ∈ eventsOf (calculateStage 0 0 false) (handledWorld true) →
      d = stg_digest s.
Proof.
  apply (calculateStage_digests (handledWorld true) 0 0 false).
  vm_compute. reflexivity.
Defined.

Lemma createReport_record_witness :
  Images (ph_ImagesReport (w_phase (createReport (builtWorld "" "")).2)) !! "app" =
    Some (mkReportImageRecord "repo:d1-1" "repo" "d1-1" "sha256:aa").
Proof.
  apply (createReport_record (builtWorld "" "") 0 app 0 storedDesc).
  - apply builtWorld_reportable.
  - apply list_elem_of_here.
  - reflexivity.
  - reflexivity.
  - reflexivity.
  - reflexivity.
  - intros img' i' Hin Hi Hart Hname.
    apply elem_of_cons in Hin as [->|Hin]; [reflexivity|].
    apply elem_of_cons in Hin as [->|Hin]; [|by apply elem_of_nil in Hin].
    injection Hi as <-. discriminate Hart.
Defined.

Lemma retries_exhausted_witness :
  Docker.pulls (Docker.newEvents (Docker.mkWorld 0 [])
                  (Docker.doCliPullWithRetries flakyPull draw ["alpine"]
                     (Docker.mkWorld 0 [])).2) = 6 ∧
  Docker.pushes (Docker.newEvents (Docker.mkWorld 0 [])
                   (Docker.doCliPushWithRetries timeoutPush draw ["alpine"]
                      (Docker.mkWorld 0 [])).2) = 11.
Proof.
  destruct (DockerFacts.retries_exhausted flakyPull timeoutPush draw ["alpine"]
              (Docker.mkWorld 0 [])) as [Hpull Hpush].
  split.
  - apply Hpull. intros x. eexists. split; [reflexivity|]. vm_compute. discriminate.
  - apply Hpush. intros x. eexists. split; [reflexivity|]. vm_compute. discriminate.
Defined.

Lemma byteCountBinary_scale_witness :
  ByteCount.byteCountBinary (fun b div => pretty (b `div` div)%Z) 1536 =
    Ok (pretty (1536 `div` 1024 ^ (Z.of_nat 0 + 1))%Z +:+ " " +:+ "KiB").
Proof.
  destruct (byteCountBinary_scale (fun b div => pretty (b `div` div)%Z) 1536)
    as [_ H]; [reflexivity|].
  destruct H as (exp & c & Hexp & Hc & Hrange & Hrun); [lia|].
  assert (exp = 0)%nat as ->.
  { destruct exp as [|exp]; [done|]. exfalso.
    assert (1024 ^ 2 <= 1024 ^ (Z.of_nat (S exp) + 1))%Z
      by (apply Z.pow_le_mono_r; lia). lia. }
  injection Hc as <-. exact Hrun.
Defined.

End MoreWitnesses.
